(** * Incident response orchestrator (ch10, Recipe 10.4)

    A shallow embedding of
      - [incident_workflows.py]: [WorkflowStep], the five workflow
        generators and [WorkflowEngine] ([create_workflow],
        [get_next_steps], [update_step_status]);
      - [incident_response_system.py]:
        [IncidentClassifier._determine_incident_type],
        [IncidentResponseEngine._generate_response_plan] and the
        [response_actions] table written by [_store_response_action];
    followed by the properties C1 to C10 of the orchestrator, and by
    further properties (X1 to X26) of [get_workflow_status], the
    generators, the classifier, the two database tables, the device
    managers and [_execute_response_step].  Python calls that may raise
    return a [Py.res]; the engine and the tables are passed explicitly;
    the clock is an argument; what the managers do to devices goes through
    parameters acting on a state of the world.  Texts are ASCII. *)

From Stdlib Require Import ZArith String Ascii List Bool Lia.
From stdpp Require Import base option list gmap strings pretty.
Import ListNotations.
Local Open Scope string_scope.

(** ** Python values

    Incident reports are parsed JSON: [None], booleans, integers, strings,
    lists and dicts with string keys (floats do not occur in what the
    modelled functions inspect).  A dict keeps its items in insertion order
    and its keys are distinct, so the first binding of a key is the
    binding. *)

Module Py.

(** The exceptions the modelled code can raise; [SqliteError] stands for
    what a call of the [sqlite3] module raises: its own errors, and the
    [OverflowError] of an integer that does not fit 64 bits. *)
Inductive exn := ValueError | AttributeError | TypeError | SqliteError.

(** Result of a Python call: a value, or a raised exception. *)
Inductive res (A : Type) :=
| Ok (a : A)
| Raise (e : exn).
Arguments Ok {A} a.
Arguments Raise {A} e.

(** Sequencing: an exception raised by [m] propagates. *)
#[global] Instance res_bind : MBind res := fun A B k m =>
  match m with
  | Ok a => k a
  | Raise e => Raise e
  end.

#[global] Instance res_ret : MRet res := fun A a => Ok a.

#[global] Instance res_fmap : FMap res := fun A B f m =>
  match m with
  | Ok a => Ok (f a)
  | Raise e => Raise e
  end.

#[warnings="-register-all"]
Inductive val :=
| None_
| Bool (b : bool)
| Int (z : Z)
| Str (s : string)
| List (l : list val)
| Dict (d : list (string * val)).

Definition dict := list (string * val).

(** [d.get(k)] on a dict: the bound value, if any. *)
Fixpoint lookup (d : dict) (k : string) : option val :=
  match d with
  | [] => None
  | (k', v) :: d' => if String.eqb k' k then Some v else lookup d' k
  end.

(** [d.get(k, dflt)] on a dict. *)
Definition get (d : dict) (k : string) (dflt : val) : val :=
  match lookup d k with
  | Some v => v
  | None => dflt
  end.

(** [v.get(k, dflt)] on an arbitrary value: only dicts have [get]. *)
Definition get_attr (v : val) (k : string) (dflt : val) : res val :=
  match v with
  | Dict d => Ok (get d k dflt)
  | _ => Raise AttributeError
  end.

(** Truth value of [v] in a condition. *)
Definition truthy (v : val) : bool :=
  match v with
  | None_ => false
  | Bool b => b
  | Int z => negb (Z.eqb z 0)
  | Str s => negb (String.eqb s EmptyString)
  | List l => match l with [] => false | _ => true end
  | Dict d => match d with [] => false | _ => true end
  end.

(** [needle in hay] on strings: substring test. *)
Fixpoint str_contains (needle hay : string) : bool :=
  String.prefix needle hay ||
  match hay with
  | EmptyString => false
  | String _ hay' => str_contains needle hay'
  end.

(** [k in v] for a string [k]: key membership on a dict, element
    membership on a list, substring on a string, [TypeError] on the
    values that are not containers. *)
Definition contains (k : string) (v : val) : res bool :=
  match v with
  | Dict d => Ok (match lookup d k with Some _ => true | None => false end)
  | List l =>
      Ok (existsb (fun x => match x with Str s => String.eqb s k | _ => false end) l)
  | Str s => Ok (str_contains k s)
  | _ => Raise TypeError
  end.

(** [for x in v]: the items iterated over; a string yields its
    characters, a dict its keys. *)
Fixpoint chars (s : string) : list val :=
  match s with
  | EmptyString => []
  | String c s' => Str (String c EmptyString) :: chars s'
  end.

Definition iter (v : val) : res (list val) :=
  match v with
  | List l => Ok l
  | Str s => Ok (chars s)
  | Dict d => Ok (map (fun kv => Str (fst kv)) d)
  | _ => Raise TypeError
  end.

(** [len(v)]. *)
Definition len (v : val) : res Z :=
  match v with
  | List l => Ok (Z.of_nat (length l))
  | Str s => Ok (Z.of_nat (String.length s))
  | Dict d => Ok (Z.of_nat (length d))
  | _ => Raise TypeError
  end.

(** [s.replace(a, b)] for one-character [a] and [b]. *)
Fixpoint replace_char (a b : ascii) (s : string) : string :=
  match s with
  | EmptyString => EmptyString
  | String c s' => String (if Ascii.eqb c a then b else c) (replace_char a b s')
  end.

(** [v.replace(a, b)]: only strings have it. *)
Definition replace (v : val) (a b : ascii) : res string :=
  match v with
  | Str s => Ok (replace_char a b s)
  | _ => Raise AttributeError
  end.

(** [for x in xs: body(x)] where the body may raise. *)
Fixpoint mapM {A B} (f : A -> res B) (xs : list A) : res (list B) :=
  match xs with
  | [] => Ok []
  | x :: xs' => y ← f x; ys ← mapM f xs'; Ok (y :: ys)
  end.

(** [repr(v)], for values whose strings are printable ASCII. *)
Definition squote : ascii := "039"%char.
Definition dquote : ascii := "034"%char.
Definition backslash : ascii := "092"%char.

Definition repr_char (q : ascii) (c : ascii) : string :=
  if Ascii.eqb c backslash then String backslash (String backslash EmptyString)
  else if Ascii.eqb c q then String backslash (String q EmptyString)
  else if Ascii.eqb c "010"%char then "\n"
  else if Ascii.eqb c "013"%char then "\r"
  else if Ascii.eqb c "009"%char then "\t"
  else String c EmptyString.

Fixpoint repr_chars (q : ascii) (s : string) : string :=
  match s with
  | EmptyString => EmptyString
  | String c s' => repr_char q c ++ repr_chars q s'
  end.


Definition repr_str (s : string) : string :=
  let q :=
    if str_contains (String squote EmptyString) s
       && negb (str_contains (String dquote EmptyString) s)
    then dquote else squote in
  String q (repr_chars q s ++ String q EmptyString).

Fixpoint join (sep : string) (l : list string) : string :=
  match l with
  | [] => EmptyString
  | [x] => x
  | x :: l' => x ++ sep ++ join sep l'
  end.

Fixpoint repr (v : val) : string :=
  match v with
  | None_ => "None"
  | Bool true => "True"
  | Bool false => "False"
  | Int z => pretty z
  | Str s => repr_str s
  | List l => "[" ++ join ", " (map repr l) ++ "]"
  | Dict d =>
      "{" ++ join ", " (map (fun kv => repr_str (fst kv) ++ ": " ++ repr (snd kv)) d) ++ "}"
  end.

(** [str(v)]: a string is itself, any other value prints as its [repr]. *)
Definition str (v : val) : string :=
  match v with
  | Str s => s
  | _ => repr v
  end.

End Py.

Import Py.

(** ** Workflow steps ([incident_workflows.py]) *)

Inductive WorkflowStatus := PENDING | IN_PROGRESS | COMPLETED | FAILED | SKIPPED.

#[global] Instance WorkflowStatus_eq_dec : EqDecision WorkflowStatus.
Proof. solve_decision. Defined.

(** A reading of [datetime.datetime.now()]. *)
Definition datetime := Z.

Record WorkflowStep := mkWorkflowStep {
  step_id : string;
  name : string;
  description : string;
  action_type : string;
  parameters : dict;
  prerequisites : option (list string);
  timeout_minutes : Z;
  critical : bool;
  status : WorkflowStatus;
  execution_time : option datetime;
  result : option string
}.

(** The dataclass constructor as the generators call it: [status],
    [execution_time] and [result] take their defaults. *)
Definition new_step (step_id name description action_type : string)
    (parameters : dict) (prerequisites : option (list string))
    (timeout_minutes : Z) (critical : bool) : WorkflowStep :=
  mkWorkflowStep step_id name description action_type parameters prerequisites
    timeout_minutes critical PENDING None None.

Definition strs (l : list string) : val := List (map Str l).

(** ** Workflow generators

    In each generator [incident_data.get('indicators', {})] is evaluated
    once here; the source evaluates it again for every indicator it reads,
    with the same result. *)

Module RansomwareWorkflow.

Definition generate_workflow (incident_data : dict) : res (list WorkflowStep) :=
  let affected_systems := get incident_data "affected_systems" (List []) in
  let indicators := get incident_data "indicators" (Dict []) in
  c2_ips ← get_attr indicators "c2_ips" (List []);
  Ok [
    (* Immediate containment phase *)
    new_step "RANSOM_001" "Emergency Network Isolation"
      "Immediately isolate all affected systems from network"
      "isolate_systems"
      [("systems", affected_systems); ("method", Str "emergency_isolation");
       ("preserve_evidence", Bool true)]
      None 2 true;
    new_step "RANSOM_002" "Block C2 Communications"
      "Block command and control server IPs"
      "block_ips"
      [("ip_list", c2_ips); ("rule_type", Str "emergency_block");
       ("apply_to_all_firewalls", Bool true)]
      None 5 true;
    new_step "RANSOM_003" "Disable File Shares"
      "Temporarily disable network file shares to prevent spread"
      "disable_services"
      [("services", strs ["SMB"; "NFS"; "FTP"]); ("scope", Str "organization_wide")]
      None 5 true;
    (* Investigation phase *)
    new_step "RANSOM_004" "Collect Memory Dumps"
      "Collect memory dumps from infected systems"
      "collect_evidence"
      [("systems", affected_systems); ("evidence_type", Str "memory_dump");
       ("encryption", Bool true)]
      (Some ["RANSOM_001"]) 30 false;
    new_step "RANSOM_005" "Identify Ransomware Variant"
      "Analyze samples to identify ransomware family"
      "malware_analysis"
      [("sample_locations", Str "/evidence/samples/"); ("analysis_type", Str "automated");
       ("sandbox_analysis", Bool true)]
      (Some ["RANSOM_004"]) 20 false;
    new_step "RANSOM_006" "Check for Decryption Tools"
      "Search for available decryption tools"
      "decryption_research"
      [("ransomware_family", Str "TBD"); ("check_nomoreransom", Bool true);
       ("check_vendor_tools", Bool true)]
      (Some ["RANSOM_005"]) 15 false;
    (* Recovery phase *)
    new_step "RANSOM_007" "Assess Backup Integrity"
      "Verify backup systems are not compromised"
      "backup_verification"
      [("backup_systems", strs ["primary_backup"; "offsite_backup"]);
       ("integrity_check", Bool true); ("malware_scan", Bool true)]
      None 45 false;
    new_step "RANSOM_008" "Begin System Restoration"
      "Start restoring systems from clean backups"
      "system_restore"
      [("restore_priority", strs ["critical_servers"; "user_workstations"]);
       ("verification_required", Bool true)]
      (Some ["RANSOM_007"]) 120 false
  ].

End RansomwareWorkflow.

Module DataExfiltrationWorkflow.

Definition generate_workflow (incident_data : dict) : res (list WorkflowStep) :=
  let affected_systems := get incident_data "affected_systems" (List []) in
  let indicators := get incident_data "indicators" (Dict []) in
  external_ips ← get_attr indicators "external_ips" (List []);
  user_account ← get_attr indicators "user_account" None_;
  source_directories ← get_attr indicators "source_directories" (List []);
  compliance_reqs ←
    get_attr (get incident_data "impact_assessment" (Dict []))
      "compliance_implications" (List []);
  Ok (
    (* Immediate response *)
    [ new_step "EXFIL_001" "Block External Destinations"
        "Block communication to external exfiltration destinations"
        "block_ips"
        [("ip_list", external_ips); ("rule_type", Str "exfiltration_block");
         ("log_attempts", Bool true)]
        None 3 true;
      new_step "EXFIL_002" "Isolate Source Systems"
        "Isolate systems involved in data exfiltration"
        "isolate_systems"
        [("systems", affected_systems); ("method", Str "network_isolation");
         ("maintain_monitoring", Bool true)]
        None 5 true ]
    ++
    (* Account security *)
    (if truthy user_account then
      [ new_step "EXFIL_003" "Secure Compromised Account"
          "Disable compromised user account and reset credentials"
          "account_security"
          [("account", user_account);
           ("actions", strs ["disable"; "reset_password"; "revoke_tokens"]);
           ("force_logout", Bool true)]
          None 5 true ]
     else [])
    ++
    (* Investigation *)
    [ new_step "EXFIL_004" "Analyze Data Access Patterns"
        "Review file access logs to determine scope of compromise"
        "log_analysis"
        [("log_sources", strs ["file_server"; "database"; "sharepoint"]);
         ("time_range_hours", Int 48); ("focus_user", user_account)]
        None 30 false;
      new_step "EXFIL_005" "Identify Exfiltrated Data"
        "Determine what data was potentially exfiltrated"
        "data_classification"
        [("source_directories", source_directories);
         ("classification_scan", Bool true); ("privacy_assessment", Bool true)]
        (Some ["EXFIL_004"]) 45 false;
      new_step "EXFIL_006" "Network Traffic Analysis"
        "Analyze network traffic for exfiltration patterns"
        "network_analysis"
        [("capture_period_hours", Int 24);
         ("analyze_protocols", strs ["HTTPS"; "FTP"; "SFTP"; "DNS"]);
         ("external_destinations", external_ips)]
        None 60 false ]
    ++
    (* Compliance and notification *)
    (if truthy compliance_reqs then
      [ new_step "EXFIL_007" "Compliance Notification"
          "Notify relevant authorities per compliance requirements"
          "compliance_notification"
          [("regulations", compliance_reqs); ("notification_window_hours", Int 72);
           ("include_data_assessment", Bool true)]
          (Some ["EXFIL_005"]) 30 true ]
     else []))%list.

End DataExfiltrationWorkflow.

Module CredentialCompromiseWorkflow.

Definition generate_workflow (incident_data : dict) : res (list WorkflowStep) :=
  let indicators := get incident_data "indicators" (Dict []) in
  compromised_accounts ← get_attr indicators "compromised_accounts" (List []);
  source_ip ← get_attr indicators "source_ip" None_;
  let affected_systems := get incident_data "affected_systems" (List []) in
  n_accounts ← len compromised_accounts;
  Ok [
    (* Immediate containment *)
    new_step "CRED_001" "Disable Compromised Accounts"
      "Immediately disable all compromised user accounts"
      "disable_accounts"
      [("accounts", compromised_accounts); ("revoke_sessions", Bool true);
       ("revoke_tokens", Bool true)]
      None 5 true;
    new_step "CRED_002" "Block Attack Source"
      "Block the source IP of the credential attack"
      "block_ips"
      [("ip_list", if truthy source_ip then List [source_ip] else List []);
       ("rule_type", Str "credential_attack_block"); ("duration_hours", Int 24)]
      None 3 true;
    (* Security assessment *)
    new_step "CRED_003" "Assess Privilege Escalation"
      "Check for unauthorized privilege escalations"
      "privilege_audit"
      [("accounts", compromised_accounts); ("check_group_memberships", Bool true);
       ("check_permissions", Bool true); ("compare_baseline", Bool true)]
      None 20 false;
    new_step "CRED_004" "Review Authentication Logs"
      "Analyze authentication logs for attack patterns"
      "log_analysis"
      [("log_sources", strs ["domain_controller"; "vpn"; "web_applications"]);
       ("time_range_hours", Int 72); ("failed_login_threshold", Int 10)]
      None 30 false;
    new_step "CRED_005" "Lateral Movement Detection"
      "Check for signs of lateral movement"
      "lateral_movement_analysis"
      [("source_systems", affected_systems); ("check_rdp_sessions", Bool true);
       ("check_smb_access", Bool true); ("check_powershell_activity", Bool true)]
      (Some ["CRED_004"]) 45 false;
    (* Recovery actions *)
    new_step "CRED_006" "Force Password Reset"
      "Force password reset for all potentially affected accounts"
      "password_reset"
      [("scope", Str (if (5 <? n_accounts)%Z then "organization_wide" else "targeted"));
       ("require_mfa_setup", Bool true); ("minimum_complexity", Str "high")]
      (Some ["CRED_003"]) 60 false;
    new_step "CRED_007" "Rebuild Compromised Systems"
      "Rebuild systems with administrative access"
      "system_rebuild"
      [("systems", affected_systems); ("backup_data", Bool true);
       ("security_hardening", Bool true)]
      (Some ["CRED_005"]) 180 false
  ].

End CredentialCompromiseWorkflow.

Module DDoSWorkflow.

Definition generate_workflow (incident_data : dict) : res (list WorkflowStep) :=
  let indicators := get incident_data "indicators" (Dict []) in
  attack_sources ← get_attr indicators "attack_sources" (List []);
  attack_types ← get_attr indicators "attack_types" (List []);
  Ok [
    (* Immediate mitigation *)
    new_step "DDOS_001" "Activate DDoS Protection"
      "Enable DDoS protection services"
      "ddos_protection"
      [("protection_level", Str "maximum"); ("scrubbing_centers", Bool true);
       ("rate_limiting", Bool true)]
      None 5 true;
    new_step "DDOS_002" "Block Attack Sources"
      "Block identified attack source networks"
      "block_networks"
      [("networks", attack_sources); ("rule_type", Str "ddos_block");
       ("upstream_filtering", Bool true)]
      None 10 true;
    (* Traffic analysis and filtering *)
    new_step "DDOS_003" "Analyze Attack Patterns"
      "Analyze traffic patterns to identify attack vectors"
      "traffic_analysis"
      [("attack_types", attack_types); ("pattern_recognition", Bool true);
       ("geolocation_analysis", Bool true)]
      None 15 false;
    new_step "DDOS_004" "Implement Filtering Rules"
      "Create specific filtering rules based on attack patterns"
      "traffic_filtering"
      [("filter_types", strs ["packet_size"; "request_rate"; "geographic"]);
       ("whitelist_known_good", Bool true); ("adaptive_filtering", Bool true)]
      (Some ["DDOS_003"]) 20 false;
    (* Service restoration *)
    new_step "DDOS_005" "Scale Infrastructure"
      "Scale up infrastructure to handle attack volume"
      "infrastructure_scaling"
      [("auto_scaling", Bool true); ("load_balancing", Bool true);
       ("cdn_activation", Bool true)]
      None 30 false;
    new_step "DDOS_006" "Monitor Service Availability"
      "Continuously monitor service availability and performance"
      "availability_monitoring"
      [("check_interval_seconds", Int 30);
       ("performance_thresholds",
        Dict [("response_time", Int 2000); ("success_rate", Int 95)]);
       ("alert_degradation", Bool true)]
      None 60 false
  ].

End DDoSWorkflow.

Module InsiderThreatWorkflow.

Definition generate_workflow (incident_data : dict) : res (list WorkflowStep) :=
  let indicators := get incident_data "indicators" (Dict []) in
  employee_id ← get_attr indicators "employee_id" None_;
  accessed_systems ← get_attr indicators "accessed_systems" (List []);
  data_accessed ← get_attr indicators "data_accessed" (List []);
  Ok [
    (* Discrete monitoring *)
    new_step "INSIDER_001" "Enable Enhanced Monitoring"
      "Enable detailed monitoring of user activities"
      "user_monitoring"
      [("employee_id", employee_id); ("monitor_file_access", Bool true);
       ("monitor_network_activity", Bool true); ("monitor_email", Bool true);
       ("discrete_mode", Bool true)]
      None 10 true;
    new_step "INSIDER_002" "Review Access Permissions"
      "Review user's current access permissions"
      "permission_audit"
      [("employee_id", employee_id); ("systems", accessed_systems);
       ("check_job_role_alignment", Bool true); ("historical_access_review", Bool true)]
      None 20 false;
    (* Investigation *)
    new_step "INSIDER_003" "Analyze User Behavior"
      "Analyze user behavior patterns for anomalies"
      "behavior_analysis"
      [("employee_id", employee_id); ("time_range_days", Int 30);
       ("compare_peer_group", Bool true); ("anomaly_detection", Bool true)]
      None 45 false;
    new_step "INSIDER_004" "Data Loss Assessment"
      "Assess potential data loss or misuse"
      "data_loss_assessment"
      [("data_types", data_accessed); ("export_detection", Bool true);
       ("external_communication_check", Bool true)]
      (Some ["INSIDER_003"]) 30 false;
    (* Coordinated response *)
    new_step "INSIDER_005" "HR Coordination"
      "Coordinate with HR for personnel action"
      "hr_coordination"
      [("employee_id", employee_id);
       ("recommended_actions", strs ["investigation"; "access_review"]);
       ("evidence_package", Bool true)]
      (Some ["INSIDER_004"]) 60 false;
    new_step "INSIDER_006" "Legal Review"
      "Initiate legal review of incident"
      "legal_review"
      [("incident_type", Str "insider_threat"); ("evidence_preservation", Bool true);
       ("potential_violations", strs ["data_access_policy"; "confidentiality_agreement"])]
      (Some ["INSIDER_005"]) 120 false
  ].

End InsiderThreatWorkflow.

(** ** The workflow engine ([WorkflowEngine]) *)

Record WorkflowEngine := mkWorkflowEngine {
  active_workflows : gmap string (list WorkflowStep);
  workflow_generators : gmap string (dict -> res (list WorkflowStep))
}.

(** [WorkflowEngine.__init__] *)
Definition WorkflowEngine_init : WorkflowEngine :=
  mkWorkflowEngine ∅
    (list_to_map [
      ("malware_outbreak", RansomwareWorkflow.generate_workflow);
      ("data_exfiltration", DataExfiltrationWorkflow.generate_workflow);
      ("credential_compromise", CredentialCompromiseWorkflow.generate_workflow);
      ("ddos_attack", DDoSWorkflow.generate_workflow);
      ("insider_threat", InsiderThreatWorkflow.generate_workflow)
    ]).

(** [create_workflow]: [ValueError] for a type without generator; an
    exception of the generator propagates and nothing is stored. *)
Definition create_workflow (self : WorkflowEngine)
    (incident_id incident_type : string) (incident_data : dict)
  : res (list WorkflowStep * WorkflowEngine) :=
  match workflow_generators self !! incident_type with
  | None => Raise ValueError
  | Some generate =>
      workflow_steps ← generate incident_data;
      Ok (workflow_steps,
          mkWorkflowEngine (<[incident_id := workflow_steps]> (active_workflows self))
            (workflow_generators self))
  end.

(** [next((s for s in workflow if s.step_id == id), None)], with the
    position of the step found. *)
Definition find_step (workflow : list WorkflowStep) (id : string)
  : option (nat * WorkflowStep) :=
  list_find (λ s, step_id s = id) workflow.

(** The body of the inner loop of [get_next_steps]: the prerequisite is
    found and completed. *)
Definition prereq_completed (workflow : list WorkflowStep) (prereq_id : string) : bool :=
  match find_step workflow prereq_id with
  | Some (_, prereq_step) => bool_decide (status prereq_step = COMPLETED)
  | None => false
  end.

(** The body of the outer loop of [get_next_steps]: [step] is appended. *)
Definition ready (workflow : list WorkflowStep) (step : WorkflowStep) : bool :=
  bool_decide (status step = PENDING) &&
  match prerequisites step with
  | Some ((_ :: _) as prereqs) => forallb (prereq_completed workflow) prereqs
  | _ => true
  end.

Definition next_steps (workflow : list WorkflowStep) : list WorkflowStep :=
  List.filter (ready workflow) workflow.

Definition get_next_steps (self : WorkflowEngine) (incident_id : string)
  : list WorkflowStep :=
  match active_workflows self !! incident_id with
  | None => []
  | Some workflow => next_steps workflow
  end.

(** The three assignments of [update_step_status] to the step found. *)
Definition set_status (now : datetime) (step : WorkflowStep)
    (new_status : WorkflowStatus) (new_result : option string) : WorkflowStep :=
  {| step_id := step_id step;
     name := name step;
     description := description step;
     action_type := action_type step;
     parameters := parameters step;
     prerequisites := prerequisites step;
     timeout_minutes := timeout_minutes step;
     critical := critical step;
     status := new_status;
     execution_time :=
       if bool_decide (new_status ∈ [COMPLETED; FAILED]) then Some now
       else execution_time step;
     result := new_result |}.

(** [update_step_status] on the step list of one workflow: [None] when no
    step has the id.  The step is mutated in place, so the list keeps its
    other elements. *)
Definition update_steps (now : datetime) (workflow : list WorkflowStep)
    (id : string) (new_status : WorkflowStatus) (new_result : option string)
  : option (list WorkflowStep) :=
  match find_step workflow id with
  | Some (i, step) => Some (<[i := set_status now step new_status new_result]> workflow)
  | None => None
  end.

(** [update_step_status]; [now] is what [datetime.datetime.now()] returns
    if it is called. *)
Definition update_step_status (now : datetime) (self : WorkflowEngine)
    (incident_id id : string) (new_status : WorkflowStatus)
    (new_result : option string) : bool * WorkflowEngine :=
  match active_workflows self !! incident_id with
  | None => (false, self)
  | Some workflow =>
      match update_steps now workflow id new_status new_result with
      | Some workflow' =>
          (true,
           mkWorkflowEngine (<[incident_id := workflow']> (active_workflows self))
             (workflow_generators self))
      | None => (false, self)
      end
  end.

(** The prerequisites a step lists ([None] and [[]] list none). *)
Definition prereq_ids (step : WorkflowStep) : list string :=
  default [] (prerequisites step).

(** The report of [main()] in [incident_workflows.py]. *)
Definition ransomware_data : dict :=
  [("affected_systems", strs ["10.0.1.150"; "10.0.1.175"]);
   ("indicators",
    Dict [("c2_ips", strs ["198.51.100.25"; "203.0.113.50"]);
          ("encrypted_file_extensions", strs [".locked"; ".encrypted"])])].

Definition step_ids (workflow : list WorkflowStep) : list string :=
  map step_id workflow.

Definition statuses (workflow : list WorkflowStep) : list (string * WorkflowStatus) :=
  map (λ s, (step_id s, status s)) workflow.


(** ** [WorkflowEngine.get_workflow_status] *)

Definition WorkflowStatus_value (st : WorkflowStatus) : string :=
  match st with
  | PENDING => "pending"
  | IN_PROGRESS => "in_progress"
  | COMPLETED => "completed"
  | FAILED => "failed"
  | SKIPPED => "skipped"
  end.

(** [len([s for s in workflow if s.status == st])] *)
Definition count_status (st : WorkflowStatus) (workflow : list WorkflowStep) : nat :=
  length (List.filter (λ s, bool_decide (status s = st)) workflow).

Module StatusReport.

(** An entry of the ["steps"] list of the summary. *)
Record step_entry := mkStepEntry {
  entry_step_id : string;
  entry_name : string;
  entry_status : string;
  entry_critical : bool;
  entry_execution_time : option datetime;
  entry_result : option string
}.

(** The summary dict. *)
Record summary := mkSummary {
  total_steps : nat;
  completed : nat;
  failed : nat;
  in_progress : nat;
  pending : nat;
  steps : list step_entry
}.

(** What [get_workflow_status] returns: the error dict or the summary. *)
Inductive report :=
| Error (message : string)
| Summary (s : summary).

End StatusReport.

Definition step_entry_of (step : WorkflowStep) : StatusReport.step_entry :=
  StatusReport.mkStepEntry (step_id step) (name step)
    (WorkflowStatus_value (status step)) (critical step)
    (execution_time step) (result step).

Definition get_workflow_status (self : WorkflowEngine) (incident_id : string)
  : StatusReport.report :=
  match active_workflows self !! incident_id with
  | None => StatusReport.Error "Workflow not found"
  | Some workflow =>
      StatusReport.Summary
        (StatusReport.mkSummary
           (length workflow)
           (count_status COMPLETED workflow)
           (count_status FAILED workflow)
           (count_status IN_PROGRESS workflow)
           (count_status PENDING workflow)
           (map step_entry_of workflow))
  end.

(** [1] when the two statuses are the same, [0] otherwise. *)
Definition same_status (a b : WorkflowStatus) : nat :=
  if bool_decide (a = b) then 1 else 0.

(** The declared types of what the generators read from a report: the
    indicators and the impact assessment are dicts when present, and the
    compromised accounts have a length. *)
Definition is_dict (v : val) : bool :=
  match v with
  | Dict _ => true
  | _ => false
  end.

Definition sized (v : val) : bool :=
  match v with
  | List _ | Str _ | Dict _ => true
  | None_ | Bool _ | Int _ => false
  end.

Definition report_typed (incident_data : dict) : bool :=
  match get incident_data "indicators" (Dict []) with
  | Dict indicators =>
      is_dict (get incident_data "impact_assessment" (Dict []))
      && sized (get indicators "compromised_accounts" (List []))
  | _ => false
  end.

(** ** The response system ([incident_response_system.py]) *)

Module ResponseSystem.

Inductive IncidentSeverity := LOW | MEDIUM | HIGH | CRITICAL.

Definition IncidentSeverity_value (s : IncidentSeverity) : string :=
  match s with
  | LOW => "low"
  | MEDIUM => "medium"
  | HIGH => "high"
  | CRITICAL => "critical"
  end.

Inductive IncidentType :=
| RANSOMWARE
| DATA_EXFILTRATION
| CREDENTIAL_COMPROMISE
| INSIDER_THREAT
| DDOS_ATTACK
| SUPPLY_CHAIN.

Definition IncidentType_value (t : IncidentType) : string :=
  match t with
  | RANSOMWARE => "malware_outbreak"
  | DATA_EXFILTRATION => "data_exfiltration"
  | CREDENTIAL_COMPROMISE => "credential_compromise"
  | INSIDER_THREAT => "insider_threat"
  | DDOS_ATTACK => "ddos_attack"
  | SUPPLY_CHAIN => "supply_chain_compromise"
  end.

Inductive ResponseAction :=
| ISOLATE_SYSTEM
| BLOCK_IP
| COLLECT_EVIDENCE
| DISABLE_ACCOUNT
| QUARANTINE_FILE
| NOTIFY_STAKEHOLDERS.

#[global] Instance ResponseAction_eq_dec : EqDecision ResponseAction.
Proof. solve_decision. Defined.

Definition ResponseAction_value (a : ResponseAction) : string :=
  match a with
  | ISOLATE_SYSTEM => "isolate_system"
  | BLOCK_IP => "block_ip"
  | COLLECT_EVIDENCE => "collect_evidence"
  | DISABLE_ACCOUNT => "disable_account"
  | QUARANTINE_FILE => "quarantine_file"
  | NOTIFY_STAKEHOLDERS => "notify_stakeholders"
  end.

Record IncidentData := mkIncidentData {
  incident_id : string;
  incident_type : IncidentType;
  severity : IncidentSeverity;
  detection_time : datetime;
  affected_systems : val;
  indicators : val;
  description : val;
  incident_status : string
}.

Record ResponseStep := mkResponseStep {
  action : ResponseAction;
  target : val;
  parameters : dict;
  status : string;
  execution_time : option datetime;
  result : option string
}.

(** The dataclass constructor with its defaults. *)
Definition new_response_step (action : ResponseAction) (target : val)
    (parameters : dict) : ResponseStep :=
  mkResponseStep action target parameters "pending" None None.

(** *** [IncidentClassifier._determine_incident_type]

    [str] is Python's [str()], of which [Py.str] is a model. *)

(** [a or b] on conditions that may raise: [b] is evaluated only when [a]
    is false. *)
Definition or_else (a b : res bool) : res bool :=
  x ← a; if x : bool then Ok true else b.

Section Classifier.

Variable str : val -> string.

Definition _determine_incident_type (data : dict) : res IncidentType :=
  let indicators := get data "indicators" (Dict []) in
  if existsb (λ ext, str_contains ext (str indicators))
       [".locked"; ".encrypted"; ".crypto"]
  then Ok RANSOMWARE
  else
    exfil ← or_else (contains "data_volume" indicators)
                    (contains "external_ips" indicators);
    if exfil : bool then Ok DATA_EXFILTRATION
    else
      cred ← or_else (contains "compromised_accounts" indicators)
                     (contains "privilege_escalation" indicators);
      if cred : bool then Ok CREDENTIAL_COMPROMISE
      else
        ddos ← or_else (contains "attack_volume" indicators)
                       (contains "attack_sources" indicators);
        if ddos : bool then Ok DDOS_ATTACK
        else
          supply ← or_else (contains "compromised_software" indicators)
                           (contains "vendor" indicators);
          if supply : bool then Ok SUPPLY_CHAIN
          else Ok INSIDER_THREAT.

(** The classification as the specification words it: an ordered list of
    category predicates over the indicators, the first match wins, and
    the residual category is returned when none matches. *)
Definition has_key (k : string) (indicators : dict) : bool :=
  match lookup indicators k with
  | Some _ => true
  | None => false
  end.

Definition ransomware_markers (indicators : dict) : bool :=
  existsb (λ ext, str_contains ext (str (Dict indicators)))
    [".locked"; ".encrypted"; ".crypto"].

Definition exfiltration_markers (indicators : dict) : bool :=
  has_key "data_volume" indicators || has_key "external_ips" indicators.

Definition credential_markers (indicators : dict) : bool :=
  has_key "compromised_accounts" indicators || has_key "privilege_escalation" indicators.

Definition ddos_markers (indicators : dict) : bool :=
  has_key "attack_volume" indicators || has_key "attack_sources" indicators.

Definition supply_chain_markers (indicators : dict) : bool :=
  has_key "compromised_software" indicators || has_key "vendor" indicators.

Definition category_predicates : list ((dict -> bool) * IncidentType) :=
  [ (ransomware_markers, RANSOMWARE);
    (exfiltration_markers, DATA_EXFILTRATION);
    (credential_markers, CREDENTIAL_COMPROMISE);
    (ddos_markers, DDOS_ATTACK);
    (supply_chain_markers, SUPPLY_CHAIN) ].

Fixpoint first_match (rules : list ((dict -> bool) * IncidentType))
    (residual : IncidentType) (indicators : dict) : IncidentType :=
  match rules with
  | [] => residual
  | (matches, category) :: rules' =>
      if matches indicators then category
      else first_match rules' residual indicators
  end.

Definition classify_spec (indicators : dict) : IncidentType :=
  first_match category_predicates INSIDER_THREAT indicators.

End Classifier.

(** *** [IncidentResponseEngine._generate_response_plan] *)

Definition dot : ascii := "."%char.
Definition underscore : ascii := "_"%char.
Definition slash : ascii := "/"%char.

(** The notification step added for all incidents. *)
Definition notification_step (incident : IncidentData) : ResponseStep :=
  new_response_step NOTIFY_STAKEHOLDERS (Str "security_team")
    [("incident_id", Str (incident_id incident));
     ("severity", Str (IncidentSeverity_value (severity incident)))].

(** The steps of the branch taken for the incident type. *)
Definition type_specific_steps (incident : IncidentData) : res (list ResponseStep) :=
  match incident_type incident with
  | RANSOMWARE =>
      (* Isolate all affected systems *)
      systems ← iter (affected_systems incident);
      let isolate :=
        map (λ system,
               new_response_step ISOLATE_SYSTEM system [("method", Str "edr_isolation")])
            systems in
      (* Block C2 IPs *)
      c2_ips ← get_attr (indicators incident) "c2_ips" (List []);
      ips ← iter c2_ips;
      block ← mapM (λ ip,
                 r ← replace ip dot underscore;
                 Ok (new_response_step BLOCK_IP ip
                       [("rule_name", Str ("BLOCK_C2_" ++ r))])) ips;
      (* Collect forensic evidence *)
      systems' ← iter (affected_systems incident);
      let collect :=
        map (λ system,
               new_response_step COLLECT_EVIDENCE system
                 [("evidence_types", strs ["memory_dump"; "disk_image"])])
            systems' in
      Ok (isolate ++ block ++ collect)%list
  | DATA_EXFILTRATION =>
      (* Block external IPs *)
      external_ips ← get_attr (indicators incident) "external_ips" (List []);
      ips ← iter external_ips;
      block ← mapM (λ ip,
                 r ← replace ip dot underscore;
                 Ok (new_response_step BLOCK_IP ip
                       [("rule_name", Str ("BLOCK_EXFIL_" ++ r))])) ips;
      (* Isolate source system *)
      systems ← iter (affected_systems incident);
      let isolate :=
        map (λ system,
               new_response_step ISOLATE_SYSTEM system
                 [("method", Str "network_isolation")])
            systems in
      (* Disable compromised account *)
      user_account ← get_attr (indicators incident) "user_account" None_;
      let disable :=
        if truthy user_account then
          [new_response_step DISABLE_ACCOUNT user_account
             [("domain", Str "company.local")]]
        else [] in
      Ok (block ++ isolate ++ disable)%list
  | CREDENTIAL_COMPROMISE =>
      (* Disable compromised accounts *)
      compromised_accounts ←
        get_attr (indicators incident) "compromised_accounts" (List []);
      accounts ← iter compromised_accounts;
      let disable :=
        map (λ account,
               new_response_step DISABLE_ACCOUNT account
                 [("domain", Str "company.local")])
            accounts in
      (* Block source IP *)
      source_ip ← get_attr (indicators incident) "source_ip" None_;
      block ←
        (if truthy source_ip then
           r ← replace source_ip dot underscore;
           Ok [new_response_step BLOCK_IP source_ip
                 [("rule_name", Str ("BLOCK_ATTACK_" ++ r))]]
         else Ok []);
      Ok (disable ++ block)%list
  | DDOS_ATTACK =>
      (* Block attack sources *)
      attack_sources ← get_attr (indicators incident) "attack_sources" (List []);
      sources ← iter attack_sources;
      mapM (λ source,
              r ← replace source dot underscore;
              Ok (new_response_step BLOCK_IP source
                    [("rule_name",
                      Str ("BLOCK_DDOS_" ++ replace_char slash underscore r))]))
           sources
  | INSIDER_THREAT | SUPPLY_CHAIN => Ok []
  end.

Definition _generate_response_plan (incident : IncidentData) : res (list ResponseStep) :=
  steps ← type_specific_steps incident;
  (* Add notification step for all incidents *)
  Ok (steps ++ [notification_step incident])%list.

(** The declared types of what the plan iterates over: the affected
    systems and the address and account lists are lists of strings, the
    indicators are a dict, and a source address, when given, is a string. *)
Definition is_str (v : val) : bool :=
  match v with
  | Str _ => true
  | _ => false
  end.

Definition str_list (v : val) : bool :=
  match v with
  | List l => forallb is_str l
  | _ => false
  end.

Definition plan_inputs_typed (incident : IncidentData) : bool :=
  str_list (affected_systems incident) &&
  match indicators incident with
  | Dict d =>
      str_list (get d "c2_ips" (List []))
      && str_list (get d "external_ips" (List []))
      && str_list (get d "compromised_accounts" (List []))
      && str_list (get d "attack_sources" (List []))
      && (negb (truthy (get d "source_ip" None_)) || is_str (get d "source_ip" None_))
  | _ => false
  end.

(** A step other than the notification. *)
Definition not_notify (s : ResponseStep) : Prop := action s ≠ NOTIFY_STAKEHOLDERS.

(** *** The [response_actions] table

    [action_id INTEGER PRIMARY KEY AUTOINCREMENT] is the only key of the
    table: SQLite gives a new row the largest id ever used plus one (kept
    in [sqlite_sequence]) and refuses the insert when that id is the
    largest 64-bit integer.  [target TEXT NOT NULL] refuses [None]; lists
    and dicts cannot be bound to a statement, nor can an integer outside
    the signed 64-bit range ([True] and [False] are bound as 1 and 0).
    The foreign key on
    [incident_id] is not enforced, as the connection never turns
    [foreign_keys] on.  [parameters] holds the dict whose JSON text is
    stored. *)

Record action_row := mkActionRow {
  action_id : Z;
  row_incident_id : string;
  row_action_type : string;
  row_target : val;
  row_parameters : dict;
  row_status : string;
  row_execution_time : option datetime;
  row_result : option string;
  created_at : datetime
}.

Record Database := mkDatabase {
  response_actions : list action_row;
  response_actions_seq : Z
}.

(** [_init_database] on a fresh file. *)
Definition empty_database : Database := mkDatabase [] 0.

Definition max_rowid : Z := 9223372036854775807.

(** An integer that SQLite can hold. *)
Definition int64 (z : Z) : bool :=
  ((- max_rowid - 1 <=? z) && (z <=? max_rowid))%Z.

Definition bindable (v : val) : bool :=
  match v with
  | Str _ | Bool _ => true
  | Int z => int64 z
  | None_ | List _ | Dict _ => false
  end.

(** [_store_response_action]: one [INSERT]; [now] is [CURRENT_TIMESTAMP]
    at the insert. *)
Definition _store_response_action (now : datetime) (db : Database)
    (incident_id : string) (step : ResponseStep) : res Database :=
  if negb (bindable (target step)) then Raise SqliteError
  else if (response_actions_seq db =? max_rowid)%Z then Raise SqliteError
  else
    let id := (response_actions_seq db + 1)%Z in
    Ok (mkDatabase
          (response_actions db ++
           [mkActionRow id incident_id (ResponseAction_value (action step))
              (target step) (parameters step) (status step)
              (execution_time step) (result step) now])%list
          id).

(** [SELECT * FROM response_actions WHERE incident_id = ?], the query of
    [get_incident_status]. *)
Definition select_actions (db : Database) (incident_id : string) : list action_row :=
  List.filter (λ row, String.eqb (row_incident_id row) incident_id)
    (response_actions db).

End ResponseSystem.

(** ** Classification and persistence of incidents *)

Module PyStr.

(** [c.lower()] on an ASCII character. *)
Definition lower_char (c : ascii) : ascii :=
  let n := nat_of_ascii c in
  if Nat.leb 65 n && Nat.leb n 90 then ascii_of_nat (n + 32) else c.

(** [s.lower()], for ASCII text. *)
Fixpoint lower (s : string) : string :=
  match s with
  | EmptyString => EmptyString
  | String c s' => String (lower_char c) (lower s')
  end.

Definition newline : ascii := "010"%char.

(** The ASCII characters [str.split()] treats as white space. *)
Definition is_space (c : ascii) : bool :=
  let n := nat_of_ascii c in
  (Nat.leb 9 n && Nat.leb n 13) || (Nat.leb 28 n && Nat.leb n 32).

(** The pieces of [s] between the characters that satisfy [sep]; there
    is always at least one piece. *)
Fixpoint split_by (sep : ascii -> bool) (s : string) : list string :=
  match s with
  | EmptyString => [EmptyString]
  | String c s' =>
      if sep c then EmptyString :: split_by sep s'
      else match split_by sep s' with
           | [] => [String c EmptyString]
           | piece :: pieces => String c piece :: pieces
           end
  end.

(** [s.split(c)] for a one-character separator. *)
Definition split_on (c : ascii) (s : string) : list string :=
  split_by (Ascii.eqb c) s.

Definition nonempty (s : string) : bool :=
  match s with
  | EmptyString => false
  | String _ _ => true
  end.

(** [s.split()]: the maximal runs of characters that are not white
    space. *)
Definition split_ws (s : string) : list string :=
  List.filter nonempty (split_by is_space s).

(** [s.startswith(c)] and [s.endswith(c)] for one character. *)
Definition starts_with (c : ascii) (s : string) : bool :=
  match s with
  | String c' _ => Ascii.eqb c' c
  | EmptyString => false
  end.

Fixpoint ends_with (c : ascii) (s : string) : bool :=
  match s with
  | EmptyString => false
  | String c' EmptyString => Ascii.eqb c' c
  | String _ s' => ends_with c s'
  end.

(** [os.path.join(a, p)] on POSIX. *)
Definition path_join (a p : string) : string :=
  let slash := "/"%char in
  if starts_with slash p then p
  else if negb (nonempty a) || ends_with slash a then a ++ p
  else a ++ String slash p.

(** Every character of [s] satisfies [p]. *)
Fixpoint all_chars (p : ascii -> bool) (s : string) : bool :=
  match s with
  | EmptyString => true
  | String c s' => p c && all_chars p s'
  end.

(** The first result of [f] over [l], as a loop that returns from inside
    finds it. *)
Fixpoint first_result {A B} (f : A -> option B) (l : list A) : option B :=
  match l with
  | [] => None
  | x :: l' =>
      match f x with
      | Some y => Some y
      | None => first_result f l'
      end
  end.

End PyStr.

Module Incidents.
Import ResponseSystem.

Definition severity_map : list (string * IncidentSeverity) :=
  [("low", LOW); ("medium", MEDIUM); ("high", HIGH); ("critical", CRITICAL)].

(** [severity_map.get(key, MEDIUM)] *)
Fixpoint severity_get (m : list (string * IncidentSeverity)) (key : string)
  : IncidentSeverity :=
  match m with
  | [] => MEDIUM
  | (k, v) :: m' => if String.eqb k key then v else severity_get m' key
  end.

(** [IncidentClassifier._determine_severity]: only a string has
    [lower]. *)
Definition _determine_severity (data : dict) : res IncidentSeverity :=
  match get data "severity" (Str "medium") with
  | Str severity_str => Ok (severity_get severity_map (PyStr.lower severity_str))
  | _ => Raise AttributeError
  end.

Section Classify.

(** Python's [str()] and [datetime.strftime]. *)
Variable str : val -> string.
Variable strftime : string -> datetime -> string.

(** [IncidentClassifier._generate_incident_id], at clock reading [now]. *)
Definition _generate_incident_id (now : datetime) : string :=
  "INC-" ++ strftime "%Y%m%d%H%M%S" now.

(** [IncidentClassifier.classify_incident]; the clock is read for the id
    and then for the detection time. *)
Definition classify_incident (now_id now_detection : datetime) (incident_data : dict)
  : res IncidentData :=
  incident_type ← _determine_incident_type str incident_data;
  severity ← _determine_severity incident_data;
  Ok (mkIncidentData (_generate_incident_id now_id) incident_type severity
        now_detection
        (get incident_data "affected_systems" (List []))
        (get incident_data "indicators" (Dict []))
        (get incident_data "description" (Str EmptyString))
        "active").

End Classify.

(** *** The [incidents] table

    [incident_id TEXT PRIMARY KEY]: an insert under an id already in the
    table is refused.  The affected systems and the indicators hold the
    values whose JSON text is stored; the description is bound as it is,
    which lists, dicts and integers outside the signed 64-bit range
    cannot be. *)

Record incident_row := mkIncidentRow {
  row_id : string;
  row_type : string;
  row_severity : string;
  row_detection_time : datetime;
  row_affected_systems : val;
  row_indicators : val;
  row_description : val;
  row_incident_status : string;
  row_created_at : datetime
}.

(** The two tables of [incident_response.db]. *)
Record Store := mkStore {
  incidents : list incident_row;
  actions : Database
}.

(** [_init_database] on a fresh file. *)
Definition empty_store : Store := mkStore [] empty_database.

Definition bindable_or_null (v : val) : bool :=
  match v with
  | List _ | Dict _ => false
  | Int z => int64 z
  | None_ | Str _ | Bool _ => true
  end.

(** [SELECT * FROM incidents WHERE incident_id = ?] with [fetchone]. *)
Definition select_incident (db : Store) (id : string) : option incident_row :=
  List.find (λ row, String.eqb (row_id row) id) (incidents db).

(** [IncidentResponseEngine._store_incident]; [now] is
    [CURRENT_TIMESTAMP] at the insert. *)
Definition _store_incident (now : datetime) (db : Store) (incident : IncidentData)
  : res Store :=
  if negb (bindable_or_null (description incident)) then Raise SqliteError
  else
    match select_incident db (incident_id incident) with
    | Some _ => Raise SqliteError
    | None =>
        Ok (mkStore
              (incidents db ++
               [mkIncidentRow (incident_id incident)
                  (IncidentType_value (incident_type incident))
                  (IncidentSeverity_value (severity incident))
                  (detection_time incident) (affected_systems incident)
                  (indicators incident) (description incident)
                  (incident_status incident) now])%list
              (actions db))
    end.

(** [_store_response_action] on the database of both tables. *)
Definition store_response_action (now : datetime) (db : Store)
    (incident_id : string) (step : ResponseStep) : res Store :=
  actions' ← _store_response_action now (actions db) incident_id step;
  Ok (mkStore (incidents db) actions').

(** What a [TEXT] column gives back for a bound value: numbers come back
    as their text. *)
Definition text_affinity (v : val) : val :=
  match v with
  | Int z => Str (pretty z)
  | Bool b => Str (if b then "1" else "0")
  | _ => v
  end.

(** An entry of ["response_actions"] in the status. *)
Record action_entry := mkActionEntry {
  entry_action_type : string;
  entry_target : val;
  entry_status : string;
  entry_execution_time : option datetime;
  entry_result : option string
}.

Definition action_entry_of (row : action_row) : action_entry :=
  mkActionEntry (row_action_type row) (text_affinity (row_target row))
    (row_status row) (row_execution_time row) (row_result row).

(** The status dict of an incident. *)
Record incident_status_data := mkIncidentStatus {
  status_incident_id : string;
  status_incident_type : string;
  status_severity : string;
  status_detection_time : datetime;
  status_affected_systems : val;
  status_status : string;
  status_response_actions : list action_entry
}.

Inductive status_report :=
| NotFound (message : string)
| Found (data : incident_status_data).

(** [IncidentResponseEngine.get_incident_status] *)
Definition get_incident_status (db : Store) (id : string) : status_report :=
  match select_incident db id with
  | None => NotFound "Incident not found"
  | Some row =>
      Found (mkIncidentStatus (row_id row) (row_type row) (row_severity row)
               (row_detection_time row) (row_affected_systems row)
               (row_incident_status row)
               (map action_entry_of (select_actions (actions db) id)))
  end.

(** The writes of the engine, and a database after a sequence of them
    ([None] once a write is refused). *)
Inductive write :=
| StoreIncident (now : datetime) (incident : IncidentData)
| StoreAction (now : datetime) (incident_id : string) (step : ResponseStep).

Definition apply_write (db : Store) (w : write) : res Store :=
  match w with
  | StoreIncident now incident => _store_incident now db incident
  | StoreAction now incident_id step => store_response_action now db incident_id step
  end.

Fixpoint apply_writes (db : Store) (ws : list write) : res Store :=
  match ws with
  | [] => Ok db
  | w :: ws' => db' ← apply_write db w; apply_writes db' ws'
  end.

(** The keys of the two tables are in order: incident ids are distinct,
    and the action ids are 1, 2, ... in insertion order, the last one
    being the sequence value. *)
Definition store_consistent (db : Store) : Prop :=
  NoDup (map row_id (incidents db)) ∧
  map action_id (response_actions (actions db))
  = map Z.of_nat (seq 1 (length (response_actions (actions db)))) ∧
  response_actions_seq (actions db)
  = Z.of_nat (length (response_actions (actions db))).

(** The status entry of a step stored as an action. *)
Definition entry_of_step (step : ResponseStep) : action_entry :=
  mkActionEntry (ResponseAction_value (action step)) (text_affinity (target step))
    (status step) (execution_time step) (result step).

End Incidents.

(** ** Device managers and the execution of a response step

    What the managers do to the outside world goes through three calls:
    [NetworkDevice.execute_command] (a command over SSH, which returns
    the output or raises), [EDRManager.isolate_endpoint] (which answers
    by a boolean) and the clock.  They are parameters, acting on a state
    of the world. *)

Module Managers.
Import ResponseSystem.

Record NetworkDevice := mkNetworkDevice {
  device_name : string;
  device_ip : string;
  device_type : string;
  management_protocol : string
}.

Definition mac_like (part : string) : bool :=
  str_contains ":" part && Nat.eqb (String.length part) 17.

(** [SwitchManager._extract_mac_from_arp] *)
Definition _extract_mac_from_arp (arp_output target_ip : string) : option string :=
  PyStr.first_result
    (λ line, if str_contains target_ip line
             then List.find mac_like (PyStr.split_ws line)
             else None)
    (PyStr.split_on PyStr.newline arp_output).

(** No white space in [s]. *)
Definition no_space (s : string) : bool :=
  PyStr.all_chars (λ c, negb (PyStr.is_space c)) s.

Definition port_markers : list string := ["Gi"; "Fa"; "Eth"].

Definition has_port_marker (s : string) : bool :=
  existsb (λ x, str_contains x s) port_markers.

(** [SwitchManager._extract_port_from_cam] *)
Definition _extract_port_from_cam (cam_output : string) : option string :=
  PyStr.first_result
    (λ line, if has_port_marker line
             then List.find has_port_marker (PyStr.split_ws line)
             else None)
    (PyStr.split_on PyStr.newline cam_output).

Section World.

Variable World : Type.

(** [device.execute_command(command, username, password)]: the output,
    or [None] when it raises. *)
Variable execute_command :
  NetworkDevice -> string -> string -> string -> World -> option string * World.

(** [EDRManager.isolate_endpoint], which catches what it raises. *)
Variable isolate_endpoint : val -> World -> bool * World.

(** [datetime.datetime.now()] and [strftime]. *)
Variable clock : World -> datetime * World.
Variable strftime : string -> datetime -> string.

(** Python's [str()]. *)
Variable str : val -> string.

Definition nl : string := String PyStr.newline EmptyString.

(** The body of the loop of [FirewallManager.block_ip_address] for one
    device: whether the success count goes up.  A device of another type
    is skipped; an exception, of the command or of [replace] on an
    address that is not a string, is caught. *)
Definition block_on_device (device : NetworkDevice) (ip_address : val) (w : World)
  : bool * World :=
  let kind := PyStr.lower (device_type device) in
  let command : option string :=
    if str_contains "palo_alto" kind then
      match replace ip_address dot underscore with
      | Ok dashed =>
          Some ("configure" ++ nl ++ "set rulebase security rules BLOCK_" ++ dashed
                ++ " from any to any source " ++ str ip_address ++ " action deny"
                ++ nl ++ "commit")
      | Raise _ => None
      end
    else if str_contains "cisco" kind then
      Some ("configure terminal" ++ nl ++ "access-list 100 deny ip host "
            ++ str ip_address ++ " any" ++ nl ++ "exit" ++ nl ++ "write memory")
    else None in
  match command with
  | Some command =>
      let '(out, w') := execute_command device command "admin" "password" w in
      (match out with Some _ => true | None => false end, w')
  | None => (false, w)
  end.

Fixpoint block_loop (devices : list NetworkDevice) (ip_address : val)
    (success_count : nat) (w : World) : nat * World :=
  match devices with
  | [] => (success_count, w)
  | device :: devices' =>
      let '(ok, w') := block_on_device device ip_address w in
      block_loop devices' ip_address (if ok then S success_count else success_count) w'
  end.

(** [FirewallManager.block_ip_address]; the rule name is not used. *)
Definition block_ip_address (devices : list NetworkDevice) (ip_address : val)
    (rule_name : val) (w : World) : bool * World :=
  let '(success_count, w') := block_loop devices ip_address 0 w in
  (Nat.ltb 0 success_count, w').

(** The body of the loop of [SwitchManager.isolate_port_by_ip] for one
    device: whether the port was shut down.  An exception, of a command
    or of the search for an address that is not a string, is caught. *)
Definition isolate_on_device (device : NetworkDevice) (target_ip : val) (w : World)
  : bool * World :=
  let '(arp_result, w1) := execute_command device "show ip arp" "admin" "password" w in
  match arp_result, target_ip with
  | Some arp_output, Str ip =>
      match _extract_mac_from_arp arp_output ip with
      | None => (false, w1)
      | Some mac_address =>
          let '(cam_result, w2) :=
            execute_command device ("show mac address-table address " ++ mac_address)
              "admin" "password" w1 in
          match cam_result with
          | Some cam_output =>
              match _extract_port_from_cam cam_output with
              | Some port =>
                  if PyStr.nonempty port then
                    let '(done, w3) :=
                      execute_command device
                        ("configure terminal" ++ nl ++ "interface " ++ port ++ nl
                         ++ "shutdown" ++ nl ++ "exit" ++ nl ++ "write memory")
                        "admin" "password" w2 in
                    (match done with Some _ => true | None => false end, w3)
                  else (false, w2)
              | None => (false, w2)
              end
          | None => (false, w2)
          end
      end
  | _, _ => (false, w1)
  end.

(** [SwitchManager.isolate_port_by_ip]: returns at the first device on
    which the port is shut down. *)
Fixpoint isolate_port_by_ip (devices : list NetworkDevice) (target_ip : val)
    (w : World) : bool * World :=
  match devices with
  | [] => (false, w)
  | device :: devices' =>
      let '(ok, w') := isolate_on_device device target_ip w in
      if ok then (true, w') else isolate_port_by_ip devices' target_ip w'
  end.

(** [ForensicsCollector]: the three collectors only compute the path the
    evidence is to be saved to. *)
Definition collect_memory_dump (evidence_directory : string) (target_ip : val)
    (incident_id : string) (w : World) : option string * World :=
  let '(now, w') := clock w in
  let timestamp := strftime "%Y%m%d_%H%M%S" now in
  (Some (PyStr.path_join evidence_directory
           (incident_id ++ "_" ++ str target_ip ++ "_" ++ timestamp ++ "_memory.dump")),
   w').

Definition collect_disk_image (evidence_directory : string) (target_ip : val)
    (incident_id : string) (w : World) : option string * World :=
  let '(now, w') := clock w in
  let timestamp := strftime "%Y%m%d_%H%M%S" now in
  (Some (PyStr.path_join evidence_directory
           (incident_id ++ "_" ++ str target_ip ++ "_" ++ timestamp ++ "_disk.img")),
   w').

Definition collect_network_logs (evidence_directory : string) (incident_id : string)
    (w : World) : option string * World :=
  let '(now, w') := clock w in
  let timestamp := strftime "%Y%m%d_%H%M%S" now in
  (Some (PyStr.path_join evidence_directory
           (incident_id ++ "_" ++ timestamp ++ "_network_logs.json")),
   w').

(** The managers of an engine. *)
Record managers := mkManagers {
  firewalls : list NetworkDevice;
  switches : list NetworkDevice;
  evidence_directory : string
}.

Definition is_string (v : val) (s : string) : bool :=
  match v with
  | Str s' => String.eqb s' s
  | _ => false
  end.

(** The loop of the evidence branch: the results collected so far, in
    order. *)
Fixpoint collect_loop (m : managers) (incident_id : string) (target : val)
    (evidence_types : list val) (results : list string) (w : World)
  : list string * World :=
  match evidence_types with
  | [] => (results, w)
  | evidence_type :: rest =>
      let '(path, w') :=
        if is_string evidence_type "memory_dump" then
          collect_memory_dump (evidence_directory m) target incident_id w
        else if is_string evidence_type "disk_image" then
          collect_disk_image (evidence_directory m) target incident_id w
        else if is_string evidence_type "network_logs" then
          collect_network_logs (evidence_directory m) incident_id w
        else (None, w) in
      let results' :=
        match path with
        | Some path =>
            if PyStr.nonempty path
            then (results ++ [(str evidence_type ++ ": " ++ path)%string])%list
            else results
        | None => results
        end in
      collect_loop m incident_id target rest results' w'
  end.

(** [IncidentResponseEngine._execute_response_step] *)
Definition _execute_response_step (m : managers) (incident_id : string)
    (step : ResponseStep) (w : World) : res string * World :=
  match action step with
  | ISOLATE_SYSTEM =>
      let method := get (parameters step) "method" (Str "edr_isolation") in
      if is_string method "edr_isolation" then
        let '(success, w') := isolate_endpoint (target step) w in
        (Ok (if success then "Success" else "Failed"), w')
      else if is_string method "network_isolation" then
        let '(success, w') := isolate_port_by_ip (switches m) (target step) w in
        (Ok (if success then "Success" else "Failed"), w')
      else (Raise ValueError, w)
  | BLOCK_IP =>
      let rule_name :=
        get (parameters step) "rule_name" (Str ("BLOCK_" ++ str (target step))) in
      let '(success, w') := block_ip_address (firewalls m) (target step) rule_name w in
      (Ok (if success then "Success" else "Failed"), w')
  | COLLECT_EVIDENCE =>
      let evidence_types :=
        get (parameters step) "evidence_types" (List [Str "memory_dump"]) in
      match iter evidence_types with
      | Ok types =>
          let '(results, w') := collect_loop m incident_id (target step) types [] w in
          (Ok (if match results with [] => false | _ => true end
               then join "; " results
               else "No evidence collected"), w')
      | Raise e => (Raise e, w)
      end
  | DISABLE_ACCOUNT => (Ok ("Account " ++ str (target step) ++ " disabled"), w)
  | NOTIFY_STAKEHOLDERS => (Ok "Notifications sent", w)
  | QUARANTINE_FILE => (Raise ValueError, w)
  end.

End World.

(** The device is of a type [block_ip_address] has a command for. *)
Definition known_firewall (device : NetworkDevice) : bool :=
  str_contains "palo_alto" (PyStr.lower (device_type device))
  || str_contains "cisco" (PyStr.lower (device_type device)).

(** The step is one [_execute_response_step] has a branch for: its
    action is not the quarantine of a file, an isolation names one of the
    two methods, and the evidence types of a collection can be iterated
    over. *)
Definition executable (step : ResponseStep) : bool :=
  match action step with
  | ISOLATE_SYSTEM =>
      let method := get (parameters step) "method" (Str "edr_isolation") in
      is_string method "edr_isolation" || is_string method "network_isolation"
  | COLLECT_EVIDENCE =>
      match iter (get (parameters step) "evidence_types" (List [Str "memory_dump"])) with
      | Ok _ => true
      | Raise _ => false
      end
  | QUARANTINE_FILE => false
  | BLOCK_IP | DISABLE_ACCOUNT | NOTIFY_STAKEHOLDERS => true
  end.

(** The evidence types the collection branch has a collector for. *)
Definition known_evidence (evidence_type : val) : bool :=
  is_string evidence_type "memory_dump" || is_string evidence_type "disk_image"
  || is_string evidence_type "network_logs".

(** A world that is the log of the commands run, on which every command
    succeeds, every endpoint is isolated and the clock stands still. *)
Definition log := list (string * string).

Definition log_command (device : NetworkDevice) (command username password : string)
    (w : log) : option string * log :=
  (Some "ok", (w ++ [(device_name device, command)])%list).

Definition log_isolate (target : val) (w : log) : bool * log := (true, w).

Definition log_clock (w : log) : datetime * log := (0%Z, w).

End Managers.

(** ** Scheduling discipline

    The source has no loop that drives a workflow: [get_next_steps] and
    [update_step_status] are offered to a caller.  A caller that follows
    the scheduler makes two kinds of call: it reports [IN_PROGRESS] for the
    step of an id that [get_next_steps] returns, and it reports
    [COMPLETED] or [FAILED] for the step of an id that is [IN_PROGRESS]. *)

Inductive sched_step : list WorkflowStep -> list WorkflowStep -> Prop :=
| sched_start now workflow id i step r workflow' :
    find_step workflow id = Some (i, step) ->
    ready workflow step = true ->
    update_steps now workflow id IN_PROGRESS r = Some workflow' ->
    sched_step workflow workflow'
| sched_finish now workflow id i step new_status r workflow' :
    find_step workflow id = Some (i, step) ->
    status step = IN_PROGRESS ->
    new_status ∈ [COMPLETED; FAILED] ->
    update_steps now workflow id new_status r = Some workflow' ->
    sched_step workflow workflow'.

(** A run of [n] such calls. *)
Inductive sched_run : nat -> list WorkflowStep -> list WorkflowStep -> Prop :=
| sched_run_O workflow : sched_run 0 workflow workflow
| sched_run_S n workflow1 workflow2 workflow3 :
    sched_step workflow1 workflow2 ->
    sched_run n workflow2 workflow3 ->
    sched_run (S n) workflow1 workflow3.

(** Nothing left to run: no step is returned by [get_next_steps] and none
    is in progress. *)
Definition quiescent (workflow : list WorkflowStep) : Prop :=
  next_steps workflow = [] ∧ ∀ s, s ∈ workflow -> status s ≠ IN_PROGRESS.

(** One call of a caller that follows the scheduler, with its guard
    checked: [None] when the call is not one of [sched_step]. *)
Definition sched_call (now : datetime) (workflow : list WorkflowStep)
    (id : string) (new_status : WorkflowStatus) (r : option string)
  : option (list WorkflowStep) :=
  match find_step workflow id with
  | Some (_, step) =>
      let allowed :=
        match new_status with
        | IN_PROGRESS => ready workflow step
        | COMPLETED | FAILED => bool_decide (status step = IN_PROGRESS)
        | PENDING | SKIPPED => false
        end in
      if allowed then update_steps now workflow id new_status r else None
  | None => None
  end.

(** A sequence of such calls. *)
Fixpoint sched_calls (now : datetime) (workflow : list WorkflowStep)
    (calls : list (string * WorkflowStatus)) : option (list WorkflowStep) :=
  match calls with
  | [] => Some workflow
  | (id, new_status) :: calls' =>
      match sched_call now workflow id new_status None with
      | Some workflow' => sched_calls now workflow' calls'
      | None => None
      end
  end.

(** [quiescent], decided. *)
Definition quiescentb (workflow : list WorkflowStep) : bool :=
  forallb (λ s, negb (ready workflow s) && negb (bool_decide (status s = IN_PROGRESS)))
    workflow.


(** The prerequisite graph of a workflow: ids with their prerequisites. *)
Definition graph (workflow : list WorkflowStep) : list (string * list string) :=
  map (λ s, (step_id s, prereq_ids s)) workflow.

(** The statuses in which a step stays for good. *)
Definition terminal (st : WorkflowStatus) : bool :=
  match st with
  | COMPLETED | FAILED | SKIPPED => true
  | PENDING | IN_PROGRESS => false
  end.

(** Progress of a status along pending, in_progress, terminal. *)
Definition progress (st : WorkflowStatus) : nat :=
  match st with
  | PENDING => 0
  | IN_PROGRESS => 1
  | COMPLETED | FAILED | SKIPPED => 2
  end.

(** Calls still owed by a workflow: two for a pending step, one for a
    step in progress. *)
Definition remaining (workflow : list WorkflowStep) : nat :=
  sum_list (map (λ s, 2 - progress (status s)) workflow).

(** The prerequisite graph is acyclic and closed: every listed
    prerequisite names a step of the workflow, and some ranking of the
    step ids puts every prerequisite strictly below its dependent (a
    topological order). *)
Definition acyclic (workflow : list WorkflowStep) : Prop :=
  ∃ rank : string -> nat,
    ∀ s p, s ∈ workflow -> p ∈ prereq_ids s ->
      is_Some (find_step workflow p) ∧ rank p < rank (step_id s).


(** The stages the steps of a workflow have passed: one for a step in
    progress, two for a step in a terminal status. *)
Definition stages_passed (workflow : list WorkflowStep) : nat :=
  sum_list (map (λ s, progress (status s)) workflow).

(** A check of [acyclic] by the order of the list: every listed
    prerequisite is found at an earlier position than its dependent. *)
Definition topo_listed (workflow : list WorkflowStep) : bool :=
  forallb (λ b : bool, b)
    (imap (λ i s,
             forallb (λ p, match find_step workflow p with
                           | Some (j, _) => Nat.ltb j i
                           | None => false
                           end)
                     (prereq_ids s))
          workflow).

(** ** Concrete data *)

(** A generator whose two steps wait for each other, and an engine in
    which it is registered under the type [mutual_wait]. *)
Definition cyclic_generator (incident_data : dict) : res (list WorkflowStep) :=
  Ok [ new_step "CYCLE_A" "First" "Waits for the second" "collect_evidence" []
         (Some ["CYCLE_B"]) 10 false;
       new_step "CYCLE_B" "Second" "Waits for the first" "collect_evidence" []
         (Some ["CYCLE_A"]) 10 false ].

Definition cyclic_engine : WorkflowEngine :=
  mkWorkflowEngine ∅
    (<["mutual_wait" := cyclic_generator]> (workflow_generators WorkflowEngine_init)).

(** A workflow whose only step lists a prerequisite that names no
    step. *)
Definition orphan_workflow : list WorkflowStep :=
  [ new_step "WAIT_A" "Waits" "Waits for a step that is not there" "collect_evidence" []
      (Some ["GHOST"]) 10 false ].

(** A notification whose target is the integer 2^63, one more than
    SQLite can hold. *)
Definition oversized_step : ResponseSystem.ResponseStep :=
  ResponseSystem.mkResponseStep ResponseSystem.NOTIFY_STAKEHOLDERS
    (Int 9223372036854775808) [] "completed" None None.

(** A report none of whose indicators belongs to a category. *)
Definition insider_report : dict :=
  [("affected_systems", strs ["10.0.3.20"]);
   ("indicators", Dict [("employee_id", Str "E1042"); ("badge_anomaly", Bool true)])].

(** A classified ransomware incident with two affected systems and two
    C2 addresses, and its notification step. *)
Definition sample_incident : ResponseSystem.IncidentData :=
  ResponseSystem.mkIncidentData "INC-20240101000000" ResponseSystem.RANSOMWARE
    ResponseSystem.HIGH 1704067200%Z
    (strs ["10.0.1.150"; "10.0.1.175"])
    (Dict [("c2_ips", strs ["198.51.100.25"; "203.0.113.50"]);
           ("encrypted_file_extensions", strs [".locked"; ".encrypted"])])
    (Str "Ransomware outbreak") "active".

Definition sample_step : ResponseSystem.ResponseStep :=
  ResponseSystem.mkResponseStep ResponseSystem.NOTIFY_STAKEHOLDERS (Str "security_team")
    [("incident_id", Str "INC-20240101000000"); ("severity", Str "high")]
    "completed" (Some 1704067260%Z) (Some "Notifications sent").

(** The ransomware workflow of [main()], and a run of it in which the
    isolation step fails and every other step that gets to run completes. *)
Definition ransomware_workflow : list WorkflowStep :=
  match RansomwareWorkflow.generate_workflow ransomware_data with
  | Ok workflow => workflow
  | Raise _ => []
  end.

Definition isolation_fails : list (string * WorkflowStatus) :=
  [ ("RANSOM_001", IN_PROGRESS); ("RANSOM_002", IN_PROGRESS);
    ("RANSOM_003", IN_PROGRESS); ("RANSOM_007", IN_PROGRESS);
    ("RANSOM_001", FAILED); ("RANSOM_002", COMPLETED);
    ("RANSOM_003", COMPLETED); ("RANSOM_007", COMPLETED);
    ("RANSOM_008", IN_PROGRESS); ("RANSOM_008", COMPLETED) ].

(** The first step of the ransomware workflow. *)
Definition isolation_step : WorkflowStep :=
  nth 0 ransomware_workflow
    (new_step "RANSOM_001" "Emergency Network Isolation"
       "Immediately isolate all affected systems from network" "isolate_systems"
       [] None 2 true).

Definition after_isolation_fails : list WorkflowStep :=
  default [] (sched_calls 0%Z ransomware_workflow isolation_fails).


(** The engine of [main()] after [create_workflow]. *)
Definition ransomware_engine : WorkflowEngine :=
  mkWorkflowEngine (<["INC-001" := ransomware_workflow]> ∅)
    (workflow_generators WorkflowEngine_init).

(** A clock that counts milliseconds, printed to the second. *)
Definition seconds_stamp (format : string) (now : datetime) : string :=
  pretty (now / 1000)%Z.

(** The sample incident and a notification for it, written in turn. *)
Definition sample_writes : list Incidents.write :=
  [ Incidents.StoreIncident 1704067201%Z sample_incident;
    Incidents.StoreAction 1704067261%Z "INC-20240101000000" sample_step;
    Incidents.StoreAction 1704067262%Z "INC-20240101000000" sample_step ].

(** The database once the sample incident is stored. *)
Definition stored_sample : Incidents.Store :=
  match Incidents._store_incident 1704067201%Z Incidents.empty_store sample_incident with
  | Ok db => db
  | Raise _ => Incidents.empty_store
  end.

(** An ARP table in which the address of one host begins with that of
    another. *)
Definition sample_arp : string :=
  "Internet  10.0.0.10  5  aa:bb:cc:dd:ee:01  ARPA  Gi0/1"
  ++ String PyStr.newline "Internet  10.0.0.1  7  aa:bb:cc:dd:ee:02  ARPA  Gi0/2".

(** Two firewalls and a load balancer, and the managers of an engine
    that has them. *)
Definition sample_firewalls : list Managers.NetworkDevice :=
  [ Managers.mkNetworkDevice "fw-edge" "10.0.0.1" "Palo_Alto_PA220" "ssh";
    Managers.mkNetworkDevice "lb-1" "10.0.0.3" "f5_bigip" "ssh";
    Managers.mkNetworkDevice "fw-core" "10.0.0.2" "cisco_asa" "ssh" ].

Definition sample_managers : Managers.managers :=
  Managers.mkManagers sample_firewalls [] "./evidence".

(** ** Proof automation *)

(** Case analysis on the calls of a workflow generator that may raise. *)
Ltac generated H :=
  repeat match type of H with
         | context [get_attr ?v ?k ?d] => destruct v; simpl in H; try discriminate H
         | context [len ?v] => destruct v; simpl in H; try discriminate H
         | context [truthy ?v] => destruct (truthy v); simpl in H
         end;
  injection H as <-.

(** Case analysis on the calls of a response-plan branch that may raise. *)
Ltac run_binds H :=
  repeat match type of H with
         | context [Py.iter ?v] =>
             destruct (Py.iter v) eqn:?; simpl in H; try discriminate H
         | context [get_attr ?v ?k ?d] =>
             destruct (get_attr v k d) eqn:?; simpl in H; try discriminate H
         | context [Py.mapM ?f ?l] =>
             destruct (Py.mapM f l) eqn:?; simpl in H; try discriminate H
         | context [Py.replace ?v ?a ?b] =>
             destruct (Py.replace v a b) eqn:?; simpl in H; try discriminate H
         end.

(** * Properties *)

Local Open Scope list_scope.
Local Open Scope nat_scope.

(** [main()]: the ransomware workflow has eight steps, four of them
    executable at once. *)
Example main_next_steps :
  match create_workflow WorkflowEngine_init "INC-001" "malware_outbreak" ransomware_data with
  | Ok (workflow, engine) =>
      length workflow = 8 ∧
      step_ids (get_next_steps engine "INC-001")
      = ["RANSOM_001"; "RANSOM_002"; "RANSOM_003"; "RANSOM_007"]
  | Raise _ => False
  end.
Proof. vm_compute. done. Qed.

(** ** Looking a step up by id *)

Section Steps.

Implicit Types (workflow : list WorkflowStep) (s q : WorkflowStep) (id p : string).

Lemma find_step_Some workflow id i s :
  find_step workflow id = Some (i, s) ↔
  workflow !! i = Some s ∧ step_id s = id ∧
  ∀ j y, workflow !! j = Some y -> j < i -> step_id y ≠ id.
Proof. unfold find_step. rewrite list_find_Some. done. Qed.

Lemma find_step_None workflow id :
  find_step workflow id = None ↔ ∀ s, s ∈ workflow -> step_id s ≠ id.
Proof.
  unfold find_step. rewrite list_find_None, Forall_forall. done.
Qed.

Lemma find_step_elem workflow id i s :
  find_step workflow id = Some (i, s) -> s ∈ workflow ∧ step_id s = id.
Proof.
  intros [Hi [Hid _]]%find_step_Some. split; [|done].
  apply list_elem_of_lookup. eauto.
Qed.

(** With distinct step ids, the step found is the step of that id. *)
Lemma find_step_unique workflow id s :
  NoDup (step_ids workflow) -> s ∈ workflow -> step_id s = id ->
  ∃ i, find_step workflow id = Some (i, s).
Proof.
  intros Hnd [i Hi]%list_elem_of_lookup Hid. exists i.
  apply find_step_Some. repeat split; [done..|].
  intros j y Hj Hlt Hy.
  assert (i = j); [|lia].
  eapply NoDup_lookup; [exact Hnd| |]; unfold step_ids; rewrite list_lookup_fmap.
  - rewrite Hi. simpl. reflexivity.
  - rewrite Hj. simpl. congruence.
Qed.

(** The step found is the first step of that id in the list. *)
Lemma find_step_first workflow id q :
  (∃ i, find_step workflow id = Some (i, q)) ↔
  ∃ before after,
    workflow = before ++ q :: after ∧ step_id q = id ∧
    ∀ x, x ∈ before -> step_id x ≠ id.
Proof.
  split.
  - intros [i (Hi & Hid & Hfirst)%find_step_Some].
    exists (take i workflow), (drop (S i) workflow).
    split; [by rewrite take_drop_middle|]. split; [done|].
    intros x [j Hj]%list_elem_of_lookup.
    apply lookup_take_Some in Hj as [Hj Hlt]. by eapply Hfirst.
  - intros (before & after & -> & Hid & Hfirst). exists (length before).
    apply find_step_Some. split; [by apply list_lookup_middle|]. split; [done|].
    intros j y Hj Hlt. rewrite lookup_app_l in Hj by done.
    apply Hfirst, list_elem_of_lookup. eauto.
Qed.

Lemma prereq_completed_first workflow p :
  prereq_completed workflow p = true ↔
  ∃ before q after,
    workflow = before ++ q :: after ∧ step_id q = p ∧
    (∀ x, x ∈ before -> step_id x ≠ p) ∧ status q = COMPLETED.
Proof.
  unfold prereq_completed. split.
  - destruct (find_step workflow p) as [[i q]|] eqn:Hfind; [|done].
    intros Hq%bool_decide_eq_true.
    destruct (proj1 (find_step_first workflow p q)) as (before & after & Hw & Hid & Hfirst);
      [by eexists|].
    by exists before, q, after.
  - intros (before & q & after & Hw & Hid & Hfirst & Hq).
    destruct (proj2 (find_step_first workflow p q)) as [i ->];
      [by exists before, after|].
    by apply bool_decide_eq_true.
Qed.

Lemma prereq_completed_true workflow p :
  prereq_completed workflow p = true ↔
  ∃ i q, find_step workflow p = Some (i, q) ∧ status q = COMPLETED.
Proof.
  unfold prereq_completed. destruct (find_step workflow p) as [[i q]|].
  - rewrite bool_decide_eq_true. split; [eauto|]. intros (? & ? & [= <- <-] & ?). done.
  - split; [done|]. intros (? & ? & ? & ?). done.
Qed.

Lemma ready_true workflow s :
  ready workflow s = true ↔
  status s = PENDING ∧ ∀ p, p ∈ prereq_ids s -> prereq_completed workflow p = true.
Proof.
  unfold ready, prereq_ids. rewrite andb_true_iff, bool_decide_eq_true.
  apply and_iff_compat_l.
  destruct (prerequisites s) as [[|p0 prereqs]|].
  - split; [|done]. intros _ p Hp. inversion Hp.
  - change (default [] (Some (p0 :: prereqs))) with (p0 :: prereqs).
    rewrite forallb_forall. setoid_rewrite list_elem_of_In. done.
  - split; [|done]. intros _ p Hp. inversion Hp.
Qed.

Lemma next_steps_elem workflow s :
  s ∈ next_steps workflow ↔ s ∈ workflow ∧ ready workflow s = true.
Proof. unfold next_steps. rewrite !list_elem_of_In. apply filter_In. Qed.

Lemma filter_sublist {A} (f : A -> bool) (l : list A) : sublist (List.filter f l) l.
Proof.
  induction l as [|x l IH]; simpl; [constructor|].
  destruct (f x); by constructor.
Qed.

Lemma filter_nil_forall {A} (f : A -> bool) (l : list A) :
  List.filter f l = [] ↔ ∀ x, In x l -> f x = false.
Proof.
  induction l as [|x l IH]; simpl; [done|].
  destruct (f x) eqn:Hx.
  - split; [done|]. intros Hall. specialize (Hall x (or_introl eq_refl)). congruence.
  - rewrite IH. split; [intros Hall y [<-|Hy]; auto|intros Hall y Hy; auto].
Qed.

End Steps.

(** ** The ready-step query *)

(** C3. [get_next_steps] returns, in workflow order, exactly the steps of
    the incident's workflow that are pending and all of whose listed
    prerequisites are completed, a listed prerequisite standing for the
    first step of the workflow that has it as id: a step is returned if
    and only if it is a pending step of the workflow and, for every id it
    lists, the workflow has a step of that id, the first of them with
    status completed.  For an incident without workflow nothing is
    returned. *)
Theorem get_next_steps_exact (self : WorkflowEngine) (incident_id : string) :
  sublist (get_next_steps self incident_id)
          (default [] (active_workflows self !! incident_id)) ∧
  ∀ s : WorkflowStep,
    s ∈ get_next_steps self incident_id ↔
    ∃ workflow,
      active_workflows self !! incident_id = Some workflow ∧
      s ∈ workflow ∧
      status s = PENDING ∧
      ∀ prereqs p, prerequisites s = Some prereqs -> p ∈ prereqs ->
        ∃ before q after,
          workflow = before ++ q :: after ∧
          step_id q = p ∧
          (∀ x, x ∈ before -> step_id x ≠ p) ∧
          status q = COMPLETED.
Proof.
  assert (∀ (s : WorkflowStep) (Q : string -> Prop),
            (∀ p, p ∈ prereq_ids s -> Q p) ↔
            (∀ prereqs p, prerequisites s = Some prereqs -> p ∈ prereqs -> Q p))
    as Hlisted.
  { intros s Q. unfold prereq_ids. split.
    - intros HQ prereqs p Hs Hp. apply HQ. by rewrite Hs.
    - intros HQ p Hp. destruct (prerequisites s) as [prereqs|]; [by eapply HQ|].
      inversion Hp. }
  unfold get_next_steps.
  destruct (active_workflows self !! incident_id) as [workflow|]; simpl.
  - split; [apply filter_sublist|].
    intros s. rewrite next_steps_elem, ready_true.
    setoid_rewrite prereq_completed_first.
    rewrite (Hlisted s). split.
    + intros (Hin & Hst & Hpre). exists workflow. done.
    + intros (w & [= <-] & Hin & Hst & Hpre). done.
  - split; [constructor|].
    intros s. split; [intros H; inversion H|]. intros (w & [=] & _).
Qed.

(** ** Updating a step *)

(** C10. [update_step_status] returns [False] and leaves the engine as it
    is when the incident has no active workflow or no step of the workflow
    has the id.  Otherwise it returns [True] and changes only the first
    step with that id, in the workflow of that incident: the step gets the
    new status and result, its execution time is set to the current time
    when the new status is completed or failed and is kept for skipped,
    in_progress and pending, and its other fields are kept; the other
    steps, the other workflows and the generators are untouched. *)
Theorem update_step_status_frame (now : datetime) (self : WorkflowEngine)
    (incident_id id : string) (new_status : WorkflowStatus)
    (new_result : option string) :
  match active_workflows self !! incident_id with
  | None =>
      update_step_status now self incident_id id new_status new_result = (false, self)
  | Some workflow =>
      match find_step workflow id with
      | None =>
          (∀ s, s ∈ workflow -> step_id s ≠ id) ∧
          update_step_status now self incident_id id new_status new_result
          = (false, self)
      | Some (i, step) =>
          workflow !! i = Some step ∧ step_id step = id ∧
          ∃ self' workflow' step',
            update_step_status now self incident_id id new_status new_result
            = (true, self') ∧
            workflow_generators self' = workflow_generators self ∧
            (∀ other, other ≠ incident_id ->
               active_workflows self' !! other = active_workflows self !! other) ∧
            active_workflows self' !! incident_id = Some workflow' ∧
            length workflow' = length workflow ∧
            (∀ j, j ≠ i -> workflow' !! j = workflow !! j) ∧
            workflow' !! i = Some step' ∧
            status step' = new_status ∧
            result step' = new_result ∧
            execution_time step' =
              match new_status with
              | COMPLETED | FAILED => Some now
              | SKIPPED | IN_PROGRESS | PENDING => execution_time step
              end ∧
            step_id step' = step_id step ∧
            name step' = name step ∧
            description step' = description step ∧
            action_type step' = action_type step ∧
            parameters step' = parameters step ∧
            prerequisites step' = prerequisites step ∧
            timeout_minutes step' = timeout_minutes step ∧
            critical step' = critical step
      end
  end.
Proof.
  unfold update_step_status, update_steps.
  destruct (active_workflows self !! incident_id) as [workflow|] eqn:Hwf; [|done].
  destruct (find_step workflow id) as [[i step]|] eqn:Hfind.
  - apply find_step_Some in Hfind as (Hi & Hid & _).
    split; [done|]. split; [done|].
    eexists _, _, (set_status now step new_status new_result).
    split; [reflexivity|]. simpl.
    split; [done|].
    split; [intros other Hne; by rewrite lookup_insert_ne|].
    split; [by rewrite lookup_insert_eq|].
    split; [apply length_insert|].
    split; [intros j Hne; by rewrite list_lookup_insert_ne|].
    split; [apply list_lookup_insert_eq; by eapply lookup_lt_Some|].
    by destruct new_status.
  - split; [|done]. by apply find_step_None.
Qed.

(** An unknown step id, and an unknown incident, are reported by [False]. *)
Example update_unknown_step :
  update_step_status 3%Z ransomware_engine "INC-001" "RANSOM_999" COMPLETED None
  = (false, ransomware_engine) ∧
  update_step_status 3%Z ransomware_engine "INC-404" "RANSOM_001" COMPLETED None
  = (false, ransomware_engine).
Proof. split; reflexivity. Qed.

(** Skipping a step leaves its execution time unset; completing it sets
    it. *)
Example update_execution_time :
  (execution_time <$> (update_steps 3%Z ransomware_workflow "RANSOM_002" SKIPPED None
                       ≫= λ w, w !! 1))
  = Some None ∧
  (execution_time <$> (update_steps 3%Z ransomware_workflow "RANSOM_002" COMPLETED None
                       ≫= λ w, w !! 1))
  = Some (Some 3%Z).
Proof. split; reflexivity. Qed.

(** ** Classification *)

Module ClassifierFacts.
Import ResponseSystem.

Lemma first_match_none rules residual indicators :
  (∀ rule, rule ∈ rules -> rule.1 indicators = false) ->
  first_match rules residual indicators = residual.
Proof.
  induction rules as [|[matches category] rules IH]; intros Hnone; simpl; [done|].
  pose proof (Hnone (matches, category) ltac:(by left)) as Hrule.
  simpl in Hrule. rewrite Hrule.
  apply IH. intros rule Hin. apply Hnone. by right.
Qed.

(** C5. On a report whose indicators are a dict (or absent), the
    incident type is decided, without failure, by the ordered category
    predicates ransomware, data exfiltration, credential compromise, ddos,
    supply chain: the first that matches wins, and when none matches the
    type is insider threat. *)
Theorem determine_incident_type_ordered (str : val -> string)
    (data indicators : dict) :
  get data "indicators" (Dict []) = Dict indicators ->
  _determine_incident_type str data
  = Ok (first_match (category_predicates str) INSIDER_THREAT indicators) ∧
  ((∀ rule, rule ∈ category_predicates str -> rule.1 indicators = false) ->
   _determine_incident_type str data = Ok INSIDER_THREAT).
Proof.
  intros Hind.
  assert (_determine_incident_type str data
          = Ok (first_match (category_predicates str) INSIDER_THREAT indicators)) as Heq.
  { unfold _determine_incident_type. rewrite Hind.
    unfold category_predicates, first_match, ransomware_markers.
    destruct (existsb _ _); [done|].
    unfold exfiltration_markers, credential_markers, ddos_markers,
      supply_chain_markers, has_key, contains, or_else.
    repeat (match goal with
            | |- context [lookup indicators ?k] => destruct (lookup indicators k)
            end; simpl; try done). }
  split; [done|].
  intros Hnone. rewrite Heq. f_equal. by apply first_match_none.
Qed.

Lemma determine_incident_type_ordered_witness :
  get insider_report "indicators" (Dict [])
  = Dict [("employee_id", Str "E1042"); ("badge_anomaly", Bool true)] ∧
  _determine_incident_type Py.str insider_report = Ok INSIDER_THREAT.
Proof.
  split; [reflexivity|].
  exact (proj1 (determine_incident_type_ordered Py.str insider_report
                  [("employee_id", Str "E1042"); ("badge_anomaly", Bool true)]
                  eq_refl)).
Defined.

(** The ransomware markers are looked for in the text of the whole
    indicator dict, so they win over the keys of the later categories. *)
Example ransomware_wins :
  _determine_incident_type Py.str
    [("indicators",
      Dict [("external_ips", strs ["203.0.113.9"]);
            ("encrypted_file_extensions", strs [".locked"])])]
  = Ok RANSOMWARE.
Proof. vm_compute. reflexivity. Qed.

Example repr_of_report :
  repr (Dict [("c2_ips", strs ["198.51.100.25"]); ("count", Int 2); ("ok", Bool true)])
  = "{'c2_ips': ['198.51.100.25'], 'count': 2, 'ok': True}".
Proof. vm_compute. reflexivity. Qed.

End ClassifierFacts.

(** ** Persistence of response actions *)

Module StoreFacts.
Import ResponseSystem.

Lemma store_ok now db incident_id step :
  bindable (target step) = true ->
  (response_actions_seq db ≠ max_rowid)%Z ->
  _store_response_action now db incident_id step
  = Ok (mkDatabase
          (response_actions db ++
           [mkActionRow (response_actions_seq db + 1) incident_id
              (ResponseAction_value (action step)) (target step) (parameters step)
              (status step) (execution_time step) (result step) now])
          (response_actions_seq db + 1)).
Proof.
  intros Hbind Hseq. unfold _store_response_action. rewrite Hbind. simpl.
  destruct (Z.eqb_spec (response_actions_seq db) max_rowid); [done|reflexivity].
Qed.

Lemma store_both_ok now (db : Incidents.Store) incident_id step :
  bindable (target step) = true ->
  (response_actions_seq (Incidents.actions db) ≠ max_rowid)%Z ->
  Incidents.store_response_action now db incident_id step
  = Ok (Incidents.mkStore (Incidents.incidents db)
          (mkDatabase
             (response_actions (Incidents.actions db) ++
              [mkActionRow (response_actions_seq (Incidents.actions db) + 1) incident_id
                 (ResponseAction_value (action step)) (target step) (parameters step)
                 (status step) (execution_time step) (result step) now])
             (response_actions_seq (Incidents.actions db) + 1))).
Proof.
  intros Hbind Hseq. unfold Incidents.store_response_action.
  by rewrite store_ok.
Qed.

(** C7, as the code has it.  [_store_response_action] is an insert under
    a fresh [action_id], not an upsert.  When the target of the step can
    be bound (a string, a boolean or an integer of 64 bits) and two more
    row ids are free, storing the same step twice for an incident
    succeeds both times, keeps the rows already in [response_actions] and
    adds two rows after them, with consecutive ids and otherwise the same
    columns (but the insertion time), and leaves the [incidents] table as
    it is.  [get_incident_status] then lists the step twice after the
    actions it listed before when the incident has a row, still answers
    not found when it has none, and answers as before for every other
    incident. *)
Theorem store_response_action_twice (now1 now2 : datetime) (db : Incidents.Store)
    (incident_id : string) (step : ResponseStep) :
  bindable (target step) = true ->
  (response_actions_seq (Incidents.actions db) + 1 < max_rowid)%Z ->
  ∃ row1 row2 db1 db2,
    Incidents.store_response_action now1 db incident_id step = Ok db1 ∧
    Incidents.store_response_action now2 db1 incident_id step = Ok db2 ∧
    row1 = mkActionRow (response_actions_seq (Incidents.actions db) + 1) incident_id
             (ResponseAction_value (action step)) (target step) (parameters step)
             (status step) (execution_time step) (result step) now1 ∧
    row2 = mkActionRow (response_actions_seq (Incidents.actions db) + 2) incident_id
             (ResponseAction_value (action step)) (target step) (parameters step)
             (status step) (execution_time step) (result step) now2 ∧
    response_actions (Incidents.actions db1)
    = response_actions (Incidents.actions db) ++ [row1] ∧
    response_actions (Incidents.actions db2)
    = response_actions (Incidents.actions db) ++ [row1; row2] ∧
    Incidents.incidents db2 = Incidents.incidents db ∧
    Incidents.get_incident_status db2 incident_id
    = match Incidents.get_incident_status db incident_id with
      | Incidents.NotFound message => Incidents.NotFound message
      | Incidents.Found data =>
          Incidents.Found
            (Incidents.mkIncidentStatus
               (Incidents.status_incident_id data) (Incidents.status_incident_type data)
               (Incidents.status_severity data) (Incidents.status_detection_time data)
               (Incidents.status_affected_systems data) (Incidents.status_status data)
               (Incidents.status_response_actions data
                ++ [Incidents.entry_of_step step; Incidents.entry_of_step step]))
      end ∧
    ∀ other, other ≠ incident_id ->
      Incidents.get_incident_status db2 other = Incidents.get_incident_status db other.
Proof.
  intros Hbind Hseq.
  pose proof (store_both_ok now1 db incident_id step Hbind ltac:(lia)) as H1.
  pose proof (store_both_ok now2 _ incident_id step Hbind
                (ltac:(simpl; lia) :
                   (response_actions_seq
                      (Incidents.actions
                         (Incidents.mkStore (Incidents.incidents db)
                            (mkDatabase
                               (response_actions (Incidents.actions db) ++
                                [mkActionRow
                                   (response_actions_seq (Incidents.actions db) + 1)
                                   incident_id (ResponseAction_value (action step))
                                   (target step) (parameters step) (status step)
                                   (execution_time step) (result step) now1])
                               (response_actions_seq (Incidents.actions db) + 1))))
                    ≠ max_rowid)%Z)) as H2.
  simpl in H2.
  replace (response_actions_seq (Incidents.actions db) + 1 + 1)%Z
    with (response_actions_seq (Incidents.actions db) + 2)%Z in H2 by lia.
  eexists _, _, _, _.
  split; [exact H1|]. split; [exact H2|].
  split; [reflexivity|]. split; [reflexivity|]. simpl.
  split; [reflexivity|].
  split; [by rewrite <- app_assoc|]. split; [reflexivity|].
  unfold Incidents.get_incident_status, Incidents.select_incident, select_actions. simpl.
  split.
  - destruct (List.find _ (Incidents.incidents db)) as [row|]; [|done]. simpl.
    rewrite !List.filter_app, !map_app. simpl. rewrite String.eqb_refl. simpl.
    by rewrite <- app_assoc.
  - intros other Hne.
    destruct (List.find (λ row, String.eqb (Incidents.row_id row) other)
                (Incidents.incidents db)) as [row|]; [|done].
    rewrite !List.filter_app. simpl.
    destruct (String.eqb_spec incident_id other); [congruence|].
    by rewrite !app_nil_r.
Qed.

Lemma store_response_action_twice_witness :
  ∃ db1 db2 data,
    Incidents.store_response_action 1704067261%Z stored_sample "INC-20240101000000"
      sample_step = Ok db1 ∧
    Incidents.store_response_action 1704067262%Z db1 "INC-20240101000000" sample_step
    = Ok db2 ∧
    map action_id (response_actions (Incidents.actions db2)) = [1%Z; 2%Z] ∧
    Incidents.get_incident_status db2 "INC-20240101000000" = Incidents.Found data ∧
    Incidents.status_response_actions data
    = [Incidents.entry_of_step sample_step; Incidents.entry_of_step sample_step].
Proof.
  destruct (store_response_action_twice 1704067261%Z 1704067262%Z stored_sample
              "INC-20240101000000" sample_step eq_refl eq_refl)
    as (row1 & row2 & db1 & db2 & H1 & H2 & Hrow1 & Hrow2 & _ & Hrows & _ & Hstatus & _).
  exists db1, db2. eexists.
  split; [exact H1|]. split; [exact H2|].
  split; [rewrite Hrows, Hrow1, Hrow2; reflexivity|].
  split; [exact Hstatus|reflexivity].
Defined.

(** C7 as stated fails: after the same step is stored twice the table
    differs from the table after one store, and holds two records for the
    step. *)
Lemma store_response_action_not_idempotent :
  ∃ db1 db2,
    _store_response_action 1704067261%Z empty_database "INC-20240101000000" sample_step
    = Ok db1 ∧
    _store_response_action 1704067261%Z db1 "INC-20240101000000" sample_step = Ok db2 ∧
    db2 ≠ db1 ∧
    length (select_actions db1 "INC-20240101000000") = 1 ∧
    length (select_actions db2 "INC-20240101000000") = 2 ∧
    map action_id (response_actions db2) = [1%Z; 2%Z].
Proof.
  eexists _, _. split; [reflexivity|]. split; [reflexivity|].
  split; [discriminate|]. repeat split.
Qed.

End StoreFacts.

(** ** Workflow creation *)

Section Acyclic.

Implicit Types (workflow : list WorkflowStep) (s q : WorkflowStep) (id p : string).

Lemma find_step_at workflow i s :
  NoDup (step_ids workflow) -> workflow !! i = Some s ->
  find_step workflow (step_id s) = Some (i, s).
Proof.
  intros Hnd Hi. apply find_step_Some. repeat split; [done..|].
  intros j y Hj Hlt Hy.
  assert (i = j); [|lia].
  eapply NoDup_lookup; [exact Hnd| |]; unfold step_ids; rewrite list_lookup_fmap.
  - rewrite Hi. simpl. reflexivity.
  - rewrite Hj. simpl. congruence.
Qed.

Lemma topo_listed_spec workflow i s p :
  topo_listed workflow = true -> workflow !! i = Some s -> p ∈ prereq_ids s ->
  ∃ j q, find_step workflow p = Some (j, q) ∧ j < i.
Proof.
  unfold topo_listed. rewrite forallb_forall. intros Hall Hi Hp.
  specialize (Hall (forallb (λ p, match find_step workflow p with
                                  | Some (j, _) => Nat.ltb j i
                                  | None => false
                                  end) (prereq_ids s))).
  rewrite forallb_forall in Hall.
  assert (match find_step workflow p with
          | Some (j, _) => Nat.ltb j i
          | None => false
          end = true) as Hfound.
  { apply Hall; [|by apply list_elem_of_In].
    apply list_elem_of_In, list_elem_of_lookup. exists i.
    rewrite list_lookup_imap, Hi. reflexivity. }
  destruct (find_step workflow p) as [[j q]|]; [|done].
  exists j, q. split; [done|]. by apply Nat.ltb_lt.
Qed.

(** The order of the list is a topological order. *)
Lemma topo_listed_acyclic workflow :
  NoDup (step_ids workflow) -> topo_listed workflow = true -> acyclic workflow.
Proof.
  intros Hnd Htopo.
  exists (λ id, match find_step workflow id with Some (j, _) => j | None => 0 end).
  intros s p [i Hi]%list_elem_of_lookup Hp.
  destruct (topo_listed_spec workflow i s p Htopo Hi Hp) as (j & q & Hfind & Hlt).
  rewrite Hfind, (find_step_at workflow i s Hnd Hi). split; [by eexists|done].
Qed.

End Acyclic.

(** What the five generators produce for any report: distinct step ids,
    prerequisites listed before their dependents, and no notification
    step. *)
Lemma generated_workflow_shape (incident_type : string) (incident_data : dict)
    generate (workflow : list WorkflowStep) :
  workflow_generators WorkflowEngine_init !! incident_type = Some generate ->
  generate incident_data = Ok workflow ->
  NoDup (step_ids workflow) ∧ topo_listed workflow = true ∧
  forallb (λ s, negb (String.eqb (action_type s) "notify_stakeholders")) workflow = true ∧
  forallb (λ s, bool_decide (status s = PENDING)) workflow = true.
Proof.
  intros Hgen%elem_of_list_to_map_2 Hrun.
  assert (∀ w : list WorkflowStep,
            bool_decide (NoDup (step_ids w)) && topo_listed w
            && forallb (λ s, negb (String.eqb (action_type s) "notify_stakeholders")) w
            && forallb (λ s, bool_decide (status s = PENDING)) w = true ->
            NoDup (step_ids w) ∧ topo_listed w = true ∧
            forallb (λ s, negb (String.eqb (action_type s) "notify_stakeholders")) w = true ∧
            forallb (λ s, bool_decide (status s = PENDING)) w = true) as Hcheck.
  { intros w. rewrite !andb_true_iff, bool_decide_eq_true. tauto. }
  apply Hcheck. clear Hcheck.
  repeat match type of Hgen with
         | _ ∈ _ :: _ => apply elem_of_cons in Hgen as [[= -> ->]|Hgen]
         | _ ∈ [] => inversion Hgen
         end.
  - unfold RansomwareWorkflow.generate_workflow in Hrun. generated Hrun.
    vm_compute. reflexivity.
  - unfold DataExfiltrationWorkflow.generate_workflow in Hrun. generated Hrun;
      vm_compute; reflexivity.
  - unfold CredentialCompromiseWorkflow.generate_workflow in Hrun. generated Hrun;
      vm_compute; reflexivity.
  - unfold DDoSWorkflow.generate_workflow in Hrun. generated Hrun.
    vm_compute. reflexivity.
  - unfold InsiderThreatWorkflow.generate_workflow in Hrun. generated Hrun.
    vm_compute. reflexivity.
Qed.

Lemma create_workflow_unknown_type self incident_id incident_type incident_data :
  workflow_generators self !! incident_type = None ->
  create_workflow self incident_id incident_type incident_data = Raise ValueError.
Proof. intros Hnone. unfold create_workflow. by rewrite Hnone. Qed.

Lemma create_workflow_ok self incident_id incident_type incident_data generate workflow :
  workflow_generators self !! incident_type = Some generate ->
  generate incident_data = Ok workflow ->
  create_workflow self incident_id incident_type incident_data
  = Ok (workflow,
        mkWorkflowEngine (<[incident_id := workflow]> (active_workflows self))
          (workflow_generators self)).
Proof. intros Hgen Hrun. unfold create_workflow. rewrite Hgen, Hrun. reflexivity. Qed.

(** C1, as the code has it.  [create_workflow] makes no attempt at a
    topological sort: for a registered incident type it stores under the
    incident id, and returns, the step set its generator produces,
    whatever the prerequisite graph.  The workflows of an engine that has
    the five generators of [__init__] are acyclic all the same, because
    each of these generators lists every prerequisite before its
    dependents, under distinct step ids. *)
Theorem create_workflow_stores_generated (self : WorkflowEngine)
    (incident_id incident_type : string) (incident_data : dict)
    generate (workflow : list WorkflowStep) :
  workflow_generators self !! incident_type = Some generate ->
  generate incident_data = Ok workflow ->
  ∃ self',
    create_workflow self incident_id incident_type incident_data
    = Ok (workflow, self') ∧
    active_workflows self' !! incident_id = Some workflow ∧
    (∀ other, other ≠ incident_id ->
       active_workflows self' !! other = active_workflows self !! other) ∧
    workflow_generators self' = workflow_generators self ∧
    (workflow_generators self = workflow_generators WorkflowEngine_init ->
     NoDup (step_ids workflow) ∧ acyclic workflow).
Proof.
  intros Hgen Hrun. eexists.
  split; [by eapply create_workflow_ok|]. simpl.
  split; [by rewrite lookup_insert_eq|].
  split; [intros other Hne; by rewrite lookup_insert_ne|].
  split; [done|].
  intros Hinit. rewrite Hinit in Hgen.
  destruct (generated_workflow_shape _ _ _ _ Hgen Hrun) as (Hnd & Htopo & _).
  split; [done|]. by apply topo_listed_acyclic.
Qed.

Lemma create_workflow_stores_generated_witness :
  ∃ workflow self',
    RansomwareWorkflow.generate_workflow ransomware_data = Ok workflow ∧
    create_workflow WorkflowEngine_init "INC-001" "malware_outbreak" ransomware_data
    = Ok (workflow, self') ∧
    NoDup (step_ids workflow) ∧ acyclic workflow.
Proof.
  eexists.
  destruct (create_workflow_stores_generated WorkflowEngine_init
              "INC-001" "malware_outbreak" ransomware_data
              RansomwareWorkflow.generate_workflow _ eq_refl eq_refl)
    as (self' & Hcreate & _ & _ & _ & Hacyclic).
  exists self'. split; [reflexivity|]. split; [exact Hcreate|].
  exact (Hacyclic eq_refl).
Defined.

(** C1 as stated fails: a step set whose two steps wait for each other is
    instantiated like any other; its steps are then never returned by
    [get_next_steps]. *)
Lemma create_workflow_accepts_cycle :
  ∃ workflow self',
    create_workflow cyclic_engine "INC-CYCLE" "mutual_wait" [] = Ok (workflow, self') ∧
    active_workflows self' !! "INC-CYCLE" = Some workflow ∧
    step_ids workflow = ["CYCLE_A"; "CYCLE_B"] ∧
    ¬ acyclic workflow ∧
    get_next_steps self' "INC-CYCLE" = [].
Proof.
  eexists _, _.
  split; [by apply (create_workflow_ok cyclic_engine _ _ _ cyclic_generator)|].
  simpl. split; [by rewrite lookup_insert_eq|].
  split; [reflexivity|]. split.
  - intros [rank Hrank].
    destruct (Hrank (new_step "CYCLE_A" "First" "Waits for the second" "collect_evidence" []
                       (Some ["CYCLE_B"]) 10 false) "CYCLE_B") as [_ Hab].
    { by left. }
    { by left. }
    destruct (Hrank (new_step "CYCLE_B" "Second" "Waits for the first" "collect_evidence" []
                       (Some ["CYCLE_A"]) 10 false) "CYCLE_A") as [_ Hba].
    { right. by left. }
    { by left. }
    simpl in Hab, Hba. lia.
  - unfold get_next_steps. simpl. rewrite lookup_insert_eq. vm_compute. reflexivity.
Qed.

(** ** Response plans *)

Module PlanFacts.
Import ResponseSystem.

Lemma mapM_Forall {A B} (f : A -> res B) (P : B -> Prop) xs ys :
  (∀ x y, f x = Ok y -> P y) -> mapM f xs = Ok ys -> Forall P ys.
Proof.
  intros Hf. revert ys. induction xs as [|x xs IH]; intros ys Hm; simpl in Hm.
  - injection Hm as <-. constructor.
  - destruct (f x) as [y|] eqn:Hy; simpl in Hm; [|done].
    destruct (mapM f xs) as [ys'|]; simpl in Hm; [|done].
    injection Hm as <-. constructor; eauto.
Qed.

Lemma mapM_total {A B} (f : A -> res B) xs :
  (∀ x, x ∈ xs -> ∃ y, f x = Ok y) -> ∃ ys, mapM f xs = Ok ys.
Proof.
  induction xs as [|x xs IH]; intros Hf; simpl; [by eexists|].
  destruct (Hf x) as [y Hy]; [by left|]. rewrite Hy. simpl.
  destruct IH as [ys Hys]; [intros; apply Hf; by right|].
  rewrite Hys. simpl. by eexists.
Qed.

Lemma map_not_notify {A} (f : A -> ResponseStep) (l : list A) :
  (∀ x, not_notify (f x)) -> Forall not_notify (map f l).
Proof. intros Hf. apply Forall_fmap, Forall_forall. intros x _. apply Hf. Qed.

Lemma block_not_notify (prefix : string) (post : string -> string) xs ys :
  mapM (λ ip, r ← replace ip dot underscore;
              Ok (new_response_step BLOCK_IP ip
                    [("rule_name", Str (prefix ++ post r)%string)])) xs = Ok ys ->
  Forall not_notify ys.
Proof.
  apply mapM_Forall. intros x y Hy.
  destruct (replace x dot underscore); simpl in Hy; [|done].
  injection Hy as <-. done.
Qed.

(** The branches add isolation, blocking, collection and account steps
    only. *)
Lemma type_specific_not_notify incident steps :
  type_specific_steps incident = Ok steps -> Forall not_notify steps.
Proof.
  unfold type_specific_steps. intros H.
  destruct (incident_type incident).
  - run_binds H. injection H as <-.
    rewrite !Forall_app. split_and!.
    + by apply map_not_notify.
    + by eapply (block_not_notify "BLOCK_C2_" (λ r, r)).
    + by apply map_not_notify.
  - run_binds H. injection H as <-.
    rewrite !Forall_app. split_and!.
    + by eapply (block_not_notify "BLOCK_EXFIL_" (λ r, r)).
    + by apply map_not_notify.
    + destruct (truthy _); repeat constructor. done.
  - run_binds H; destruct (truthy _); simpl in H; try discriminate H;
      injection H as <-;
      rewrite Forall_app; (split; [by apply map_not_notify|]);
      repeat constructor; done.
  - injection H as <-. constructor.
  - run_binds H. injection H as <-.
    by eapply (block_not_notify "BLOCK_DDOS_" (replace_char slash underscore)).
  - injection H as <-. constructor.
Qed.

Lemma iter_str_list v :
  str_list v = true -> ∃ l, iter v = Ok l ∧ forallb is_str l = true.
Proof. destruct v; try done. simpl. eauto. Qed.

Lemma block_total (prefix : string) (post : string -> string) l :
  forallb is_str l = true ->
  ∃ ys, mapM (λ ip, r ← replace ip dot underscore;
                    Ok (new_response_step BLOCK_IP ip
                          [("rule_name", Str (prefix ++ post r)%string)])) l = Ok ys.
Proof.
  rewrite forallb_forall. intros Hstr. apply mapM_total.
  intros x Hx%list_elem_of_In%Hstr. destruct x; try done. simpl. by eexists.
Qed.

Lemma type_specific_total incident :
  plan_inputs_typed incident = true -> ∃ steps, type_specific_steps incident = Ok steps.
Proof.
  unfold plan_inputs_typed, type_specific_steps.
  intros [Hsys Hind]%andb_true_iff.
  destruct (indicators incident) as [| | | | |d]; try done.
  apply andb_true_iff in Hind as [Hind Hsrc].
  apply andb_true_iff in Hind as [Hind Hatk].
  apply andb_true_iff in Hind as [Hind Hacc].
  apply andb_true_iff in Hind as [Hc2 Hext].
  destruct (iter_str_list _ Hsys) as (systems & -> & _).
  simpl.
  destruct (incident_type incident); simpl.
  - destruct (iter_str_list _ Hc2) as (ips & -> & Hips). simpl.
    destruct (block_total "BLOCK_C2_" (λ r, r) ips Hips) as [ys ->]. simpl. by eexists.
  - destruct (iter_str_list _ Hext) as (ips & -> & Hips). simpl.
    destruct (block_total "BLOCK_EXFIL_" (λ r, r) ips Hips) as [ys ->]. simpl. by eexists.
  - destruct (iter_str_list _ Hacc) as (accounts & -> & _). simpl.
    destruct (truthy (get d "source_ip" None_)); simpl in *; [|by eexists].
    destruct (get d "source_ip" None_); try done. simpl. by eexists.
  - by eexists.
  - destruct (iter_str_list _ Hatk) as (sources & -> & Hsources). simpl.
    apply (block_total "BLOCK_DDOS_" (replace_char slash underscore) sources Hsources).
  - by eexists.
Qed.

(** C6, as the code has it.  The response plan of
    [_generate_response_plan] ends, for every incident type and every
    incident, with the one notification step of the plan, addressed to the
    security team; a [ResponseStep] has no prerequisites.  The plan is
    produced whenever the incident has its declared types.  The workflow
    generators of [incident_workflows.py], on the other hand, generate no
    notification step at all. *)
Theorem response_plan_ends_with_notification (incident : IncidentData) :
  (∀ steps, _generate_response_plan incident = Ok steps ->
     ∃ before, steps = before ++ [notification_step incident] ∧
               ∀ s, s ∈ before -> action s ≠ NOTIFY_STAKEHOLDERS) ∧
  (plan_inputs_typed incident = true ->
     ∃ steps, _generate_response_plan incident = Ok steps) ∧
  action (notification_step incident) = NOTIFY_STAKEHOLDERS ∧
  target (notification_step incident) = Str "security_team" ∧
  (∀ incident_type incident_data generate (workflow : list WorkflowStep),
     workflow_generators WorkflowEngine_init !! incident_type = Some generate ->
     generate incident_data = Ok workflow ->
     ∀ s, s ∈ workflow -> action_type s ≠ "notify_stakeholders").
Proof.
  split_and!; [..|done|done|].
  - intros steps Hplan. unfold _generate_response_plan in Hplan.
    destruct (type_specific_steps incident) as [before|] eqn:Hbranch;
      simpl in Hplan; [|done].
    injection Hplan as <-. exists before. split; [done|].
    apply Forall_forall. by eapply type_specific_not_notify.
  - intros [before Hbefore]%type_specific_total.
    unfold _generate_response_plan. rewrite Hbefore. simpl. by eexists.
  - intros ty data generate workflow Hgen Hrun s Hs Haction.
    destruct (generated_workflow_shape _ _ _ _ Hgen Hrun) as (_ & _ & Hnone & _).
    rewrite forallb_forall in Hnone.
    apply list_elem_of_In, Hnone in Hs. rewrite Haction in Hs. done.
Qed.

Lemma response_plan_ends_with_notification_witness :
  plan_inputs_typed sample_incident = true ∧
  ∃ steps before,
    _generate_response_plan sample_incident = Ok steps ∧
    steps = before ++ [notification_step sample_incident].
Proof.
  split; [reflexivity|].
  destruct (response_plan_ends_with_notification sample_incident)
    as (Hshape & Htotal & _).
  destruct (Htotal eq_refl) as [steps Hsteps].
  destruct (Hshape steps Hsteps) as (before & Heq & _).
  exists steps, before. split; assumption.
Defined.

(** The plan of the sample incident: an isolation step per system, a
    block step per address, a collection step per system, and the
    notification. *)
Example sample_plan :
  (map (λ s, (action s, target s)) <$> _generate_response_plan sample_incident)
  = Ok [ (ISOLATE_SYSTEM, Str "10.0.1.150"); (ISOLATE_SYSTEM, Str "10.0.1.175");
         (BLOCK_IP, Str "198.51.100.25"); (BLOCK_IP, Str "203.0.113.50");
         (COLLECT_EVIDENCE, Str "10.0.1.150"); (COLLECT_EVIDENCE, Str "10.0.1.175");
         (NOTIFY_STAKEHOLDERS, Str "security_team") ].
Proof. vm_compute. reflexivity. Qed.

(** C6 as stated fails for the workflow generators: the ransomware
    workflow of [main()] has no notification step, and its last step
    waits for the backup assessment. *)
Lemma ransomware_workflow_without_notification :
  ∃ (workflow : list WorkflowStep) (final : WorkflowStep),
    RansomwareWorkflow.generate_workflow ransomware_data = Ok workflow ∧
    (∀ s, s ∈ workflow -> action_type s ≠ "notify_stakeholders") ∧
    last workflow = Some final ∧
    step_id final = "RANSOM_008" ∧
    prerequisites final = Some ["RANSOM_007"].
Proof.
  eexists _, _. split; [reflexivity|]. split.
  - intros s Hs.
    repeat (apply elem_of_cons in Hs as [->|Hs]; [discriminate|]).
    inversion Hs.
  - repeat split.
Qed.

End PlanFacts.

(** ** Updating one step of a workflow *)

Section Update.

Implicit Types (workflow : list WorkflowStep) (s q : WorkflowStep) (id p : string).

Lemma update_steps_Some now workflow id st r workflow' :
  update_steps now workflow id st r = Some workflow' ↔
  ∃ i s, find_step workflow id = Some (i, s) ∧
         workflow' = <[i := set_status now s st r]> workflow.
Proof.
  unfold update_steps. destruct (find_step workflow id) as [[i s]|].
  - split; [intros [= <-]; eauto|]. by intros (? & ? & [= <- <-] & ->).
  - split; [done|]. by intros (? & ? & ? & ?).
Qed.

(** Replacing a step by one of the same id moves no step found by id. *)
Lemma find_step_insert_ne workflow i s s' p j q :
  workflow !! i = Some s -> step_id s' = step_id s ->
  find_step workflow p = Some (j, q) -> j ≠ i ->
  find_step (<[i := s']> workflow) p = Some (j, q).
Proof.
  intros Hi Hid (Hj & Hq & Hfirst)%find_step_Some Hne.
  apply find_step_Some. split; [by rewrite list_lookup_insert_ne|].
  split; [done|]. intros k y Hk Hlt.
  destruct (decide (k = i)) as [->|Hki].
  - rewrite list_lookup_insert_eq in Hk by (by eapply lookup_lt_Some).
    injection Hk as <-. rewrite Hid. by eapply Hfirst.
  - rewrite list_lookup_insert_ne in Hk by done. by eapply Hfirst.
Qed.

Lemma find_step_insert_eq workflow i s s' p :
  step_id s' = step_id s ->
  find_step workflow p = Some (i, s) ->
  find_step (<[i := s']> workflow) p = Some (i, s').
Proof.
  intros Hid (Hi & Hs & Hfirst)%find_step_Some.
  apply find_step_Some.
  split; [apply list_lookup_insert_eq; by eapply lookup_lt_Some|].
  split; [congruence|]. intros k y Hk Hlt.
  rewrite list_lookup_insert_ne in Hk by lia. by eapply Hfirst.
Qed.

Lemma elem_of_insert workflow i s' s :
  s ∈ <[i := s']> workflow -> s = s' ∨ ∃ j, j ≠ i ∧ workflow !! j = Some s.
Proof.
  intros [j Hj]%list_elem_of_lookup.
  destruct (decide (j = i)) as [->|Hne].
  - left. destruct (decide (i < length workflow)).
    + rewrite list_lookup_insert_eq in Hj by done. congruence.
    + rewrite list_insert_ge in Hj by lia. apply lookup_lt_Some in Hj. lia.
  - right. exists j. by rewrite list_lookup_insert_ne in Hj.
Qed.

(** A completed prerequisite stays completed when a step that is not
    completed is replaced. *)
Lemma prereq_completed_insert workflow i s s' p :
  workflow !! i = Some s -> step_id s' = step_id s -> status s ≠ COMPLETED ->
  prereq_completed workflow p = true ->
  prereq_completed (<[i := s']> workflow) p = true.
Proof.
  intros Hi Hid Hst (j & q & Hfind & Hq)%prereq_completed_true.
  apply prereq_completed_true. exists j, q. split; [|done].
  eapply find_step_insert_ne; [done..|].
  intros ->. apply find_step_Some in Hfind as [Hj _]. congruence.
Qed.

(** A prerequisite of another id stays completed when a step is
    replaced. *)
Lemma prereq_completed_insert_other workflow i s s' p :
  workflow !! i = Some s -> step_id s' = step_id s -> p ≠ step_id s ->
  prereq_completed workflow p = true ->
  prereq_completed (<[i := s']> workflow) p = true.
Proof.
  intros Hi Hid Hp (j & q & Hfind & Hq)%prereq_completed_true.
  apply prereq_completed_true. exists j, q. split; [|done].
  eapply find_step_insert_ne; [done..|].
  intros ->. apply find_step_Some in Hfind as (Hj & Hidq & _). congruence.
Qed.

Lemma remaining_insert workflow i s s' :
  workflow !! i = Some s ->
  remaining (<[i := s']> workflow) + (2 - progress (status s))
  = remaining workflow + (2 - progress (status s')).
Proof.
  unfold remaining. revert i. induction workflow as [|x workflow IH]; intros i Hi; [done|].
  destruct i as [|i]; simpl in *.
  - injection Hi as ->. lia.
  - specialize (IH i Hi). lia.
Qed.

Lemma step_ids_insert workflow i s s' :
  workflow !! i = Some s -> step_id s' = step_id s ->
  step_ids (<[i := s']> workflow) = step_ids workflow.
Proof.
  intros Hi Hid. unfold step_ids. rewrite list_fmap_insert, Hid.
  apply list_insert_id. by rewrite list_lookup_fmap, Hi.
Qed.

End Update.

(** ** Runs of a caller that follows the scheduler *)

Section Runs.

Implicit Types (workflow : list WorkflowStep) (s q : WorkflowStep) (id p : string).

(** The one step a call changes, and how. *)
Lemma sched_step_inv workflow workflow' :
  sched_step workflow workflow' ->
  ∃ now i s st r,
    workflow !! i = Some s ∧
    find_step workflow (step_id s) = Some (i, s) ∧
    workflow' = <[i := set_status now s st r]> workflow ∧
    ((st = IN_PROGRESS ∧ ready workflow s = true) ∨
     (st ∈ [COMPLETED; FAILED] ∧ status s = IN_PROGRESS)).
Proof.
  intros [now w id i s r w' Hfind Hready Hupd|now w id i s st r w' Hfind Hst Hnew Hupd];
    apply update_steps_Some in Hupd as (i' & s' & Hfind' & ->);
    rewrite Hfind in Hfind'; injection Hfind' as <- <-;
    pose proof Hfind as (Hi & <- & _)%find_step_Some;
    exists now, i, s; eauto 10.
Qed.

Lemma sched_call_step now workflow id st r workflow' :
  sched_call now workflow id st r = Some workflow' -> sched_step workflow workflow'.
Proof.
  unfold sched_call. destruct (find_step workflow id) as [[i s]|] eqn:Hfind; [|done].
  destruct st; try done.
  - destruct (ready workflow s) eqn:Hready; [|done]. intros Hupd.
    by eapply sched_start.
  - case_bool_decide; [|done]. intros Hupd.
    eapply sched_finish; [done..| |done]. by left.
  - case_bool_decide; [|done]. intros Hupd.
    eapply sched_finish; [done..| |done]. right. by left.
Qed.

Lemma sched_calls_run now calls workflow workflow' :
  sched_calls now workflow calls = Some workflow' ->
  sched_run (length calls) workflow workflow'.
Proof.
  revert workflow. induction calls as [|[id st] calls IH]; intros workflow; simpl.
  - intros [= <-]. constructor.
  - destruct (sched_call now workflow id st None) as [w|] eqn:Hcall; [|done].
    intros Hrest. econstructor; [by eapply sched_call_step|by apply IH].
Qed.

Lemma quiescentb_true workflow :
  quiescentb workflow = true ↔ quiescent workflow.
Proof.
  unfold quiescentb, quiescent, next_steps. rewrite forallb_forall. split.
  - intros Hall. split.
    + apply filter_nil_forall. intros s Hs.
      specialize (Hall s Hs). apply andb_true_iff in Hall as [Hr _].
      by apply negb_true_iff.
    + intros s Hs%list_elem_of_In Hst.
      specialize (Hall s Hs). apply andb_true_iff in Hall as [_ Hp].
      apply negb_true_iff, bool_decide_eq_false in Hp. done.
  - intros [Hnone Hprog] s Hs. apply andb_true_iff. split.
    + apply negb_true_iff. by eapply (proj1 (filter_nil_forall _ _)) in Hnone.
    + apply negb_true_iff, bool_decide_eq_false. apply Hprog. by apply list_elem_of_In.
Qed.

(** Every call moves one step one stage forward. *)
Lemma sched_step_progress workflow workflow' :
  sched_step workflow workflow' ->
  ∃ i s s',
    workflow !! i = Some s ∧ workflow' = <[i := s']> workflow ∧
    step_id s' = step_id s ∧ prerequisites s' = prerequisites s ∧
    terminal (status s) = false ∧ status s' ≠ SKIPPED ∧
    progress (status s') = S (progress (status s)).
Proof.
  intros (now & i & s & st & r & Hi & _ & -> & Hcase)%sched_step_inv.
  exists i, s, (set_status now s st r). repeat split; [done|..]; simpl.
  - destruct Hcase as [[-> [Hst _]%ready_true]|[_ Hst]]; by rewrite Hst.
  - destruct Hcase as [[-> _]|[Hst _]]; [done|].
    intros ->. repeat (apply elem_of_cons in Hst as [?|Hst]; [done|]). inversion Hst.
  - destruct Hcase as [[-> [Hst _]%ready_true]|[Hnew Hst]]; rewrite Hst; [done|].
    apply elem_of_cons in Hnew as [->|Hnew]; [done|].
    apply elem_of_cons in Hnew as [->|Hnew]; [done|]. inversion Hnew.
Qed.

Lemma sched_step_remaining workflow workflow' :
  sched_step workflow workflow' -> remaining workflow = S (remaining workflow').
Proof.
  intros (i & s & s' & Hi & -> & _ & _ & Hterm & _ & Hprog)%sched_step_progress.
  pose proof (remaining_insert workflow i s s' Hi) as Hrem.
  destruct (status s), (status s'); simpl in *; try done; lia.
Qed.

Lemma sched_step_graph workflow workflow' :
  sched_step workflow workflow' ->
  graph workflow' = graph workflow ∧ step_ids workflow' = step_ids workflow.
Proof.
  intros (i & s & s' & Hi & -> & Hid & Hpre & _)%sched_step_progress.
  split; [|by eapply step_ids_insert].
  unfold graph, prereq_ids. rewrite list_fmap_insert, Hid, Hpre.
  apply list_insert_id. by rewrite list_lookup_fmap, Hi.
Qed.

Lemma sched_step_monotone workflow workflow' k s0 :
  sched_step workflow workflow' -> workflow !! k = Some s0 ->
  ∃ s1, workflow' !! k = Some s1 ∧ step_id s1 = step_id s0 ∧
        progress (status s0) ≤ progress (status s1) ∧
        (terminal (status s0) = true -> s1 = s0) ∧
        (status s1 = SKIPPED -> status s0 = SKIPPED).
Proof.
  intros (i & s & s' & Hi & -> & Hid & _ & Hterm & Hskip & Hprog)%sched_step_progress Hk.
  destruct (decide (k = i)) as [->|Hne].
  - rewrite Hi in Hk. injection Hk as <-. exists s'.
    split; [apply list_lookup_insert_eq; by eapply lookup_lt_Some|].
    split; [done|]. split; [lia|]. split; [congruence|done].
  - exists s0. by rewrite list_lookup_insert_ne.
Qed.



End Runs.

Section Termination.

Implicit Types (workflow : list WorkflowStep) (s q : WorkflowStep) (id p : string).

Lemma sched_run_remaining n workflow workflow' :
  sched_run n workflow workflow' -> remaining workflow = n + remaining workflow'.
Proof.
  induction 1 as [|n w1 w2 w3 Hstep _ IH]; [done|].
  apply sched_step_remaining in Hstep. lia.
Qed.

Lemma remaining_bound workflow : remaining workflow ≤ 2 * length workflow.
Proof.
  unfold remaining. induction workflow as [|s workflow IH]; simpl; [done|]. lia.
Qed.

Lemma sched_run_graph n workflow workflow' :
  sched_run n workflow workflow' ->
  graph workflow' = graph workflow ∧ step_ids workflow' = step_ids workflow.
Proof.
  induction 1 as [|n w1 w2 w3 Hstep _ [IHg IHi]]; [done|].
  apply sched_step_graph in Hstep as [Hg Hi]. split; congruence.
Qed.

Lemma sched_run_monotone n workflow workflow' k s0 :
  sched_run n workflow workflow' -> workflow !! k = Some s0 ->
  ∃ s1, workflow' !! k = Some s1 ∧ step_id s1 = step_id s0 ∧
        progress (status s0) ≤ progress (status s1) ∧
        (terminal (status s0) = true -> s1 = s0) ∧
        (status s1 = SKIPPED -> status s0 = SKIPPED).
Proof.
  intros Hrun. revert s0. induction Hrun as [|n w1 w2 w3 Hstep _ IH]; intros s0 Hk.
  - exists s0. done.
  - destruct (sched_step_monotone _ _ _ _ Hstep Hk) as (s1 & Hk1 & Hid1 & Hp1 & Ht1 & Hs1).
    destruct (IH s1 Hk1) as (s2 & Hk2 & Hid2 & Hp2 & Ht2 & Hs2).
    exists s2. split; [done|]. split; [congruence|]. split; [lia|]. split.
    + intros Hterm. rewrite <- (Ht1 Hterm). apply Ht2. by rewrite (Ht1 Hterm).
    + auto.
Qed.


Lemma forallb_false_exists {A} (f : A -> bool) (l : list A) :
  forallb f l = false -> ∃ i x, l !! i = Some x ∧ f x = false.
Proof.
  induction l as [|x l IH]; simpl; [done|].
  destruct (f x) eqn:Hx; simpl.
  - intros (i & y & Hi & Hy)%IH. by exists (S i), y.
  - intros _. by exists 0, x.
Qed.

(** A workflow that is not quiescent admits a call. *)
Lemma not_quiescent_step workflow :
  NoDup (step_ids workflow) -> quiescentb workflow = false ->
  ∃ workflow', sched_step workflow workflow'.
Proof.
  intros Hnd (i & s & Hi & Hs)%forallb_false_exists.
  pose proof (find_step_at workflow i s Hnd Hi) as Hfind.
  apply andb_false_iff in Hs as [Hready|Hprog].
  - apply negb_false_iff in Hready. eexists.
    eapply (sched_start 0%Z workflow (step_id s) i s None); [done..|].
    unfold update_steps. by rewrite Hfind.
  - apply negb_false_iff, bool_decide_eq_true in Hprog. eexists.
    eapply (sched_finish 0%Z workflow (step_id s) i s COMPLETED None); [done..|by left|].
    unfold update_steps. by rewrite Hfind.
Qed.

(** From any workflow a quiescent one is reached. *)
Lemma reach_quiescent workflow :
  NoDup (step_ids workflow) ->
  ∃ n workflow', sched_run n workflow workflow' ∧ quiescent workflow'.
Proof.
  remember (remaining workflow) as k eqn:Hk. revert workflow Hk.
  induction k as [k IH] using lt_wf_ind. intros workflow -> Hnd.
  destruct (quiescentb workflow) eqn:Hq.
  - exists 0, workflow. split; [constructor|by apply quiescentb_true].
  - destruct (not_quiescent_step workflow Hnd Hq) as [w1 Hstep].
    pose proof (sched_step_remaining _ _ Hstep) as Hrem.
    pose proof (sched_step_graph _ _ Hstep) as [_ Hids].
    destruct (IH (remaining w1) ltac:(lia) w1 eq_refl) as (n & w2 & Hrun & Hquiet).
    { by rewrite Hids. }
    exists (S n), w2. split; [by econstructor|done].
Qed.

Lemma graph_elem workflow workflow' s :
  graph workflow' = graph workflow -> s ∈ workflow' ->
  ∃ s0, s0 ∈ workflow ∧ step_id s0 = step_id s ∧ prereq_ids s0 = prereq_ids s.
Proof.
  intros Hg Hs.
  assert ((step_id s, prereq_ids s) ∈ graph workflow) as Hin.
  { rewrite <- Hg. unfold graph. apply list_elem_of_fmap. by exists s. }
  unfold graph in Hin. apply list_elem_of_fmap in Hin as (s0 & [= Hid Hpre] & Hs0).
  by exists s0.
Qed.

Lemma find_step_is_Some workflow p :
  is_Some (find_step workflow p) ↔ p ∈ step_ids workflow.
Proof.
  unfold step_ids. rewrite list_elem_of_fmap. split.
  - intros [[i q] (Hq & Hid)%find_step_elem]. by exists q.
  - intros (q & -> & Hq). destruct (find_step workflow (step_id q)) eqn:Hfind; [done|].
    rewrite find_step_None in Hfind. by destruct (Hfind q Hq).
Qed.

Lemma acyclic_graph workflow workflow' :
  graph workflow' = graph workflow -> step_ids workflow' = step_ids workflow ->
  acyclic workflow -> acyclic workflow'.
Proof.
  intros Hg Hids [rank Hrank]. exists rank. intros s p Hs Hp.
  destruct (graph_elem _ _ _ Hg Hs) as (s0 & Hs0 & Hid & Hpre).
  rewrite <- Hpre in Hp. destruct (Hrank s0 p Hs0 Hp) as [Hfound Hlt].
  split; [|by rewrite <- Hid].
  apply find_step_is_Some. rewrite Hids. by apply find_step_is_Some.
Qed.

(** In a quiescent workflow a pending step has a prerequisite that is
    not completed. *)
Lemma quiescent_pending_blocked workflow s :
  quiescent workflow -> s ∈ workflow -> status s = PENDING ->
  ∃ p, p ∈ prereq_ids s ∧ prereq_completed workflow p = false.
Proof.
  intros [Hnone _] Hs Hst.
  assert (ready workflow s = false) as Hready.
  { destruct (ready workflow s) eqn:Hr; [|done].
    assert (s ∈ next_steps workflow) as Hin by by apply next_steps_elem.
    rewrite Hnone in Hin. inversion Hin. }
  destruct (forallb (prereq_completed workflow) (prereq_ids s)) eqn:Hall.
  - rewrite forallb_forall in Hall.
    assert (ready workflow s = true); [|congruence].
    apply ready_true. split; [done|]. intros p Hp. by apply Hall, list_elem_of_In.
  - apply forallb_false_exists in Hall as (i & p & Hi & Hp).
    exists p. split; [|done]. apply list_elem_of_lookup. eauto.
Qed.

End Termination.

(** ** Steps without an ordering relationship *)

Section Unordered.

Implicit Types (workflow w : list WorkflowStep) (s q : WorkflowStep) (id p : string).










(** Runs that touch only the steps of a set [P] of ids closed under
    prerequisites, and fail none: from a workflow whose steps outside
    [P] are pending, the steps of [P] can all be completed. *)
Section Drive.

Variables (workflow0 : list WorkflowStep) (rank : string -> nat) (P : string -> Prop).

Hypothesis Hnd : NoDup (step_ids workflow0).
Hypothesis Hresolve :
  ∀ s p, s ∈ workflow0 -> p ∈ prereq_ids s -> p ∈ step_ids workflow0.
Hypothesis Hrank :
  ∀ s p, s ∈ workflow0 -> p ∈ prereq_ids s -> rank p < rank (step_id s).
Hypothesis HPdec : ∀ id, P id ∨ ¬ P id.
Hypothesis HPclosed :
  ∀ s p, s ∈ workflow0 -> P (step_id s) -> p ∈ prereq_ids s -> P p.




End Drive.


(** With distinct ids, [acyclic] says that the listed prerequisites name
    steps and that a rank orders them. *)
Lemma acyclic_ranked workflow :
  acyclic workflow ↔
  (∀ s p, s ∈ workflow -> p ∈ prereq_ids s -> p ∈ step_ids workflow) ∧
  ∃ rank : string -> nat,
    ∀ s p, s ∈ workflow -> p ∈ prereq_ids s -> rank p < rank (step_id s).
Proof.
  split.
  - intros [rank Hrank]. split.
    + intros s p Hs Hp. apply find_step_is_Some. by apply (Hrank s p).
    + exists rank. intros s p Hs Hp. by apply (Hrank s p).
  - intros [Hres [rank Hrank]]. exists rank. intros s p Hs Hp. split.
    + apply find_step_is_Some. by eapply Hres.
    + by apply Hrank.
Qed.

Lemma stages_remaining workflow :
  stages_passed workflow + remaining workflow = 2 * length workflow.
Proof.
  unfold stages_passed, remaining.
  induction workflow as [|s workflow IH]; simpl; [done|].
  destruct (status s); simpl; lia.
Qed.

Lemma stages_pending workflow :
  (∀ s, s ∈ workflow -> status s = PENDING) -> stages_passed workflow = 0.
Proof.
  unfold stages_passed. induction workflow as [|s workflow IH]; intros Hall; simpl; [done|].
  rewrite (Hall s) by by left. simpl. apply IH. intros t Ht. apply Hall. by right.
Qed.

End Unordered.

Section Claims.

Implicit Types (workflow : list WorkflowStep) (s q : WorkflowStep) (id p : string).

Lemma sched_run_not_skipped n workflow workflow' s :
  (∀ s0, s0 ∈ workflow -> status s0 = PENDING) ->
  sched_run n workflow workflow' -> s ∈ workflow' -> status s ≠ SKIPPED.
Proof.
  intros Hpending Hrun [k Hk]%list_elem_of_lookup Hskip.
  pose proof (sched_run_graph _ _ _ Hrun) as [_ Hids].
  assert (length workflow' = length workflow) as Hlen.
  { apply (f_equal length) in Hids. unfold step_ids in Hids.
    by rewrite !length_map in Hids. }
  destruct (lookup_lt_is_Some_2 workflow k) as [s0 Hs0].
  { rewrite <- Hlen. by eapply lookup_lt_Some. }
  destruct (sched_run_monotone _ _ _ _ _ Hrun Hs0) as (s1 & Hk1 & _ & _ & _ & Hs1).
  rewrite Hk in Hk1. injection Hk1 as <-.
  specialize (Hpending s0 ltac:(apply list_elem_of_lookup; eauto)).
  rewrite Hs1 in Hpending; done.
Qed.

Lemma ransomware_workflow_pending s :
  s ∈ ransomware_workflow -> status s = PENDING.
Proof.
  intros Hs. repeat (apply elem_of_cons in Hs as [->|Hs]; [reflexivity|]). inversion Hs.
Qed.

Lemma isolation_fails_run : sched_run 10 ransomware_workflow after_isolation_fails.
Proof. apply (sched_calls_run 0%Z isolation_fails). vm_compute. reflexivity. Qed.

Lemma ransomware_workflow_acyclic :
  NoDup (step_ids ransomware_workflow) ∧ acyclic ransomware_workflow.
Proof.
  assert (NoDup (step_ids ransomware_workflow)) as Hnd.
  { eapply bool_decide_unpack. vm_compute. exact I. }
  split; [done|]. apply topo_listed_acyclic; [done|]. vm_compute. reflexivity.
Qed.





(** [update_step_status] itself looks at no prerequisite: called outside
    such a run it reports the memory-dump step in progress while the
    isolation step it waits for is pending.  The order is a property of
    the callers that follow [get_next_steps]. *)
Lemma update_step_status_ignores_prerequisites :
  match create_workflow WorkflowEngine_init "INC-001" "malware_outbreak" ransomware_data with
  | Ok (_, engine) =>
      let '(ok, engine') :=
        update_step_status 0%Z engine "INC-001" "RANSOM_004" IN_PROGRESS None in
      ok = true ∧
      (statuses <$> active_workflows engine' !! "INC-001")
      = Some [ ("RANSOM_001", PENDING); ("RANSOM_002", PENDING);
               ("RANSOM_003", PENDING); ("RANSOM_004", IN_PROGRESS);
               ("RANSOM_005", PENDING); ("RANSOM_006", PENDING);
               ("RANSOM_007", PENDING); ("RANSOM_008", PENDING) ] ∧
      (prereq_ids <$> (snd <$> (active_workflows engine' !! "INC-001"
                                ≫= λ w, find_step w "RANSOM_004")))
      = Some ["RANSOM_001"]
  | Raise _ => False
  end.
Proof. vm_compute. done. Qed.

(** C8, as the code has it.  Along every run in which a step is reported
    in progress only when [get_next_steps] returns it and completed or
    failed only when it is in progress, the status of every step only
    moves forward along pending, in_progress, terminal: a step in a
    terminal status is left as it is, and a step that is pending at the
    end was pending at the start. *)
Theorem status_monotone_along_runs (n : nat) (workflow workflow' : list WorkflowStep)
    (k : nat) (s : WorkflowStep) :
  sched_run n workflow workflow' ->
  workflow !! k = Some s ->
  ∃ s', workflow' !! k = Some s' ∧
        step_id s' = step_id s ∧
        progress (status s) ≤ progress (status s') ∧
        (terminal (status s) = true -> s' = s) ∧
        (status s' = PENDING -> status s = PENDING).
Proof.
  intros Hrun Hk.
  destruct (sched_run_monotone _ _ _ _ _ Hrun Hk) as (s' & Hk' & Hid & Hprog & Hterm & _).
  exists s'. split_and!; [done..|].
  intros Hst. rewrite Hst in Hprog. destruct (status s); simpl in Hprog; [done|lia..].
Qed.

Lemma status_monotone_along_runs_witness :
  ransomware_workflow !! 0 = Some isolation_step ∧
  ∃ s', after_isolation_fails !! 0 = Some s' ∧
        step_id s' = step_id isolation_step ∧
        progress (status isolation_step) ≤ progress (status s').
Proof.
  split; [reflexivity|].
  destruct (status_monotone_along_runs 10 ransomware_workflow after_isolation_fails 0
              isolation_step isolation_fails_run eq_refl)
    as (s' & Hk & Hid & Hprog & _).
  exists s'. split; [exact Hk|]. split; assumption.
Defined.

(** C8 as stated fails: [update_step_status] moves a completed step back
    to pending. *)
Lemma update_step_status_reverts_completed :
  match create_workflow WorkflowEngine_init "INC-001" "malware_outbreak" ransomware_data with
  | Ok (_, engine) =>
      let '(ok1, engine1) :=
        update_step_status 5%Z engine "INC-001" "RANSOM_001" COMPLETED (Some "Success") in
      let '(ok2, engine2) :=
        update_step_status 9%Z engine1 "INC-001" "RANSOM_001" PENDING None in
      ok1 = true ∧ ok2 = true ∧
      (head <$> (statuses <$> active_workflows engine1 !! "INC-001"))
      = Some (Some ("RANSOM_001", COMPLETED)) ∧
      (head <$> (statuses <$> active_workflows engine2 !! "INC-001"))
      = Some (Some ("RANSOM_001", PENDING))
  | Raise _ => False
  end.
Proof. vm_compute. done. Qed.

Lemma quiescent_stuck workflow workflow' :
  quiescent workflow -> sched_step workflow workflow' -> False.
Proof.
  intros [Hnone Hprog] (now & i & s & st & r & Hi & _ & _ & Hcase)%sched_step_inv.
  assert (s ∈ workflow) as Hs by (apply list_elem_of_lookup; eauto).
  destruct Hcase as [[_ Hready]|[_ Hst]].
  - assert (s ∈ next_steps workflow) as Hin by by apply next_steps_elem.
    rewrite Hnone in Hin. inversion Hin.
  - by apply (Hprog s).
Qed.

(** C9, as the code has it.  Take a workflow as created, all steps
    pending, with distinct step ids, and any run of calls that follow the
    scheduler.  The number of calls made is the number of stages the
    steps have passed (one for a step in progress, two for a step
    completed or failed), hence at most two per step, and no deadline is
    needed; the run can always be continued to a configuration in which
    nothing is ready and nothing is in progress.  In such a configuration
    every step is completed, failed, or still pending behind a listed
    prerequisite that names no step or whose step is failed or pending:
    no step is skipped.  When moreover every listed prerequisite names a
    step and the prerequisites are acyclic, every step is completed
    unless some step has failed. *)
Theorem scheduled_runs_terminate (n : nat) (workflow workflow' : list WorkflowStep) :
  NoDup (step_ids workflow) ->
  (∀ s, s ∈ workflow -> status s = PENDING) ->
  sched_run n workflow workflow' ->
  n = stages_passed workflow' ∧
  n ≤ 2 * length workflow ∧
  (∃ m workflow'', sched_run m workflow' workflow'' ∧ quiescent workflow'') ∧
  (quiescent workflow' ->
     (∀ s, s ∈ workflow' ->
        status s = COMPLETED ∨ status s = FAILED ∨
        (status s = PENDING ∧
         ∃ p, p ∈ prereq_ids s ∧
              (p ∉ step_ids workflow' ∨
               ∃ q, q ∈ workflow' ∧ step_id q = p ∧
                    (status q = FAILED ∨ status q = PENDING)))) ∧
     ((∀ s p, s ∈ workflow -> p ∈ prereq_ids s -> p ∈ step_ids workflow) ->
      (∃ rank : string -> nat,
         ∀ s p, s ∈ workflow -> p ∈ prereq_ids s -> rank p < rank (step_id s)) ->
      (∀ s, s ∈ workflow' -> status s ≠ FAILED) ->
      ∀ s, s ∈ workflow' -> status s = COMPLETED)).
Proof.
  intros Hnd Hpending Hrun.
  pose proof (sched_run_graph _ _ _ Hrun) as [Hgraph Hids].
  assert (length workflow' = length workflow) as Hlen.
  { apply (f_equal length) in Hids. unfold step_ids in Hids.
    by rewrite !length_map in Hids. }
  pose proof (sched_run_remaining _ _ _ Hrun) as Hrem.
  pose proof (stages_remaining workflow) as Hsum.
  pose proof (stages_remaining workflow') as Hsum'.
  rewrite (stages_pending workflow Hpending) in Hsum.
  split; [lia|]. split; [lia|].
  split.
  { apply reach_quiescent. by rewrite Hids. }
  intros Hquiet.
  assert (∀ s, s ∈ workflow' ->
            status s = COMPLETED ∨ status s = FAILED ∨ status s = PENDING) as Hthree.
  { intros s Hs.
    pose proof (sched_run_not_skipped _ _ _ s Hpending Hrun Hs).
    pose proof (proj2 Hquiet s Hs).
    destruct (status s); auto; done. }
  split.
  - intros s Hs. destruct (Hthree s Hs) as [?|[?|Hst]]; [auto..|].
    right. right. split; [done|].
    destruct (quiescent_pending_blocked _ _ Hquiet Hs Hst) as (p & Hp & Hnot).
    exists p. split; [done|].
    destruct (find_step workflow' p) as [[i q]|] eqn:Hfind.
    + right. pose proof (find_step_elem _ _ _ _ Hfind) as [Hin Hid].
      exists q. split; [done|]. split; [done|].
      destruct (Hthree q Hin) as [Hq|[?|?]]; [|auto..].
      assert (prereq_completed workflow' p = true); [|congruence].
      apply prereq_completed_true. eauto.
    + left. intros Hin%find_step_is_Some. rewrite Hfind in Hin. by destruct Hin.
  - intros Hres Hranked Hnofail.
    assert (acyclic workflow) as Hacyclic by by apply acyclic_ranked.
    destruct (acyclic_graph _ _ Hgraph Hids Hacyclic) as [rank Hrank].
    assert (∀ s, s ∈ workflow' -> status s = PENDING ->
              ∃ p i q, p ∈ prereq_ids s ∧ find_step workflow' p = Some (i, q) ∧
                       status q ≠ COMPLETED ∧ rank (step_id q) < rank (step_id s))
      as Hblocked.
    { intros s Hs Hst.
      destruct (quiescent_pending_blocked _ _ Hquiet Hs Hst) as (p & Hp & Hnot).
      destruct (Hrank s p Hs Hp) as [[[i q] Hfind] Hlt].
      exists p, i, q. split; [done|]. split; [done|].
      pose proof (find_step_elem _ _ _ _ Hfind) as [_ Hid]. rewrite Hid.
      split; [|done]. intros Hq.
      assert (prereq_completed workflow' p = true); [|congruence].
      apply prereq_completed_true. eauto. }
    assert (∀ k s, s ∈ workflow' -> rank (step_id s) < k -> status s = COMPLETED) as Hall.
    { induction k as [|k IH]; intros s Hs Hk; [lia|].
      destruct (Hthree s Hs) as [?|[Hf|Hst]]; [done|by destruct (Hnofail s Hs)|].
      destruct (Hblocked s Hs Hst) as (p & i & q & _ & Hfind & Hq & Hlt).
      pose proof (find_step_elem _ _ _ _ Hfind) as [Hin _].
      destruct Hq. apply IH; [done|lia]. }
    intros s Hs. by apply (Hall (S (rank (step_id s)))); [|lia].
Qed.

Lemma scheduled_runs_terminate_witness :
  10 = stages_passed after_isolation_fails ∧
  10 ≤ 2 * length ransomware_workflow ∧
  ∃ m workflow'', sched_run m after_isolation_fails workflow'' ∧ quiescent workflow''.
Proof.
  destruct (scheduled_runs_terminate 10 ransomware_workflow after_isolation_fails
              (proj1 ransomware_workflow_acyclic)
              ransomware_workflow_pending isolation_fails_run)
    as (Hcalls & Hbound & Hreach & _).
  split; [exact Hcalls|]. split; assumption.
Defined.

(** C9 as stated fails: when the isolation step of the ransomware
    workflow fails, the run ends with nothing ready and nothing in
    progress while the three steps behind it are pending for good; no
    step is skipped. *)
Lemma failed_step_leaves_dependents_pending :
  acyclic ransomware_workflow ∧
  sched_run 10 ransomware_workflow after_isolation_fails ∧
  quiescent after_isolation_fails ∧
  statuses after_isolation_fails
  = [ ("RANSOM_001", FAILED); ("RANSOM_002", COMPLETED); ("RANSOM_003", COMPLETED);
      ("RANSOM_004", PENDING); ("RANSOM_005", PENDING); ("RANSOM_006", PENDING);
      ("RANSOM_007", COMPLETED); ("RANSOM_008", COMPLETED) ] ∧
  (∀ m workflow, sched_run m after_isolation_fails workflow ->
     workflow = after_isolation_fails).
Proof.
  assert (quiescent after_isolation_fails) as Hquiet.
  { apply quiescentb_true. vm_compute. reflexivity. }
  split; [apply ransomware_workflow_acyclic|].
  split; [apply isolation_fails_run|].
  split; [done|]. split; [vm_compute; reflexivity|].
  intros m workflow Hrun. inversion Hrun as [|? ? w2 ? Hstep]; [done|].
  destruct (quiescent_stuck _ _ Hquiet Hstep).
Qed.

(** A step that lists a prerequisite naming no step is never returned:
    the run ends at once with the step pending, although no step has
    failed. *)
Example missing_prerequisite_blocks :
  quiescent orphan_workflow ∧
  statuses orphan_workflow = [("WAIT_A", PENDING)] ∧
  ("GHOST" ∉ step_ids orphan_workflow) ∧
  ∀ m workflow, sched_run m orphan_workflow workflow -> workflow = orphan_workflow.
Proof.
  assert (quiescent orphan_workflow) as Hquiet.
  { apply quiescentb_true. vm_compute. reflexivity. }
  split; [done|]. split; [reflexivity|]. split.
  - intros [Heq|H]%elem_of_cons; [discriminate Heq|inversion H].
  - intros m workflow Hrun. inversion Hrun as [|? ? w2 ? Hstep]; [done|].
    destruct (quiescent_stuck _ _ Hquiet Hstep).
Qed.

(** C2, as the code has it.  When [update_step_status] marks a step
    failed, critical or not, that step is all that changes: the engine
    keeps no incident status, the other workflows and the other steps are
    as before.  A step that [get_next_steps] returned and that does not
    list the failed step is still returned.  A step that lists the failed
    step keeps its status (it is not marked skipped) and is not
    returned. *)
Theorem failed_step_effects (now : datetime) (self : WorkflowEngine)
    (incident_id id : string) (r : option string)
    (workflow : list WorkflowStep) (i : nat) (failed : WorkflowStep) :
  active_workflows self !! incident_id = Some workflow ->
  find_step workflow id = Some (i, failed) ->
  ∃ self' workflow' failed',
    update_step_status now self incident_id id FAILED r = (true, self') ∧
    workflow_generators self' = workflow_generators self ∧
    (∀ other, other ≠ incident_id ->
       active_workflows self' !! other = active_workflows self !! other) ∧
    active_workflows self' !! incident_id = Some workflow' ∧
    workflow' !! i = Some failed' ∧ status failed' = FAILED ∧
    (∀ j, j ≠ i -> workflow' !! j = workflow !! j) ∧
    (∀ j s, j ≠ i -> workflow !! j = Some s -> id ∉ prereq_ids s ->
       s ∈ get_next_steps self incident_id ->
       s ∈ get_next_steps self' incident_id) ∧
    (∀ j s, j ≠ i -> workflow !! j = Some s -> id ∈ prereq_ids s ->
       workflow' !! j = Some s ∧ s ∉ get_next_steps self' incident_id).
Proof.
  intros Hwf Hfind.
  pose proof Hfind as (Hi & Hid & _)%find_step_Some.
  set (failed' := set_status now failed FAILED r).
  exists (mkWorkflowEngine (<[incident_id := <[i := failed']> workflow]> (active_workflows self))
            (workflow_generators self)),
         (<[i := failed']> workflow), failed'.
  split. { unfold update_step_status, update_steps. by rewrite Hwf, Hfind. }
  split; [done|]. simpl.
  split; [intros other Hne; by rewrite lookup_insert_ne|].
  split; [by rewrite lookup_insert_eq|].
  split; [apply list_lookup_insert_eq; by eapply lookup_lt_Some|].
  split; [done|].
  split; [intros j Hne; by rewrite list_lookup_insert_ne|].
  unfold get_next_steps. simpl. rewrite Hwf, lookup_insert_eq.
  split.
  - intros j s Hne Hj Hnot [_ [Hst Hpre]%ready_true]%next_steps_elem.
    apply next_steps_elem. split.
    + apply list_elem_of_lookup. exists j. by rewrite list_lookup_insert_ne.
    + apply ready_true. split; [done|]. intros p Hp.
      apply prereq_completed_insert_other with (s := failed); [done..| |by apply Hpre].
      intros ->. by rewrite Hid in Hp.
  - intros j s Hne Hj Hdep. split; [by rewrite list_lookup_insert_ne|].
    intros [_ [_ Hpre]%ready_true]%next_steps_elem.
    specialize (Hpre id Hdep).
    apply prereq_completed_true in Hpre as (i' & q & Hfind' & Hq).
    rewrite (find_step_insert_eq workflow i failed failed' id eq_refl Hfind) in Hfind'.
    injection Hfind' as <- <-. done.
Qed.

Lemma failed_step_effects_witness :
  active_workflows ransomware_engine !! "INC-001" = Some ransomware_workflow ∧
  find_step ransomware_workflow "RANSOM_001" = Some (0, isolation_step) ∧
  ∃ self' workflow' failed',
    update_step_status 7%Z ransomware_engine "INC-001" "RANSOM_001" FAILED
      (Some "Failed") = (true, self') ∧
    active_workflows self' !! "INC-001" = Some workflow' ∧
    workflow' !! 0 = Some failed' ∧ status failed' = FAILED.
Proof.
  split; [reflexivity|]. split; [reflexivity|].
  destruct (failed_step_effects 7%Z ransomware_engine "INC-001" "RANSOM_001"
              (Some "Failed") ransomware_workflow 0 isolation_step eq_refl eq_refl)
    as (self' & workflow' & failed' & Hupd & _ & _ & Hwf & Hi & Hst & _).
  exists self', workflow', failed'. repeat split; assumption.
Defined.

(** C2 as stated fails: after the critical isolation step is marked
    failed, the memory-dump step that lists it is pending, not skipped;
    the steps without prerequisites are still returned. *)
Lemma failed_critical_step_skips_nothing :
  match create_workflow WorkflowEngine_init "INC-001" "malware_outbreak" ransomware_data with
  | Ok (_, engine) =>
      let '(ok, engine') :=
        update_step_status 7%Z engine "INC-001" "RANSOM_001" FAILED (Some "Failed") in
      ok = true ∧
      critical isolation_step = true ∧
      (statuses <$> active_workflows engine' !! "INC-001")
      = Some [ ("RANSOM_001", FAILED); ("RANSOM_002", PENDING);
               ("RANSOM_003", PENDING); ("RANSOM_004", PENDING);
               ("RANSOM_005", PENDING); ("RANSOM_006", PENDING);
               ("RANSOM_007", PENDING); ("RANSOM_008", PENDING) ] ∧
      (prereq_ids <$> (snd <$> (active_workflows engine' !! "INC-001"
                                ≫= λ w, find_step w "RANSOM_004")))
      = Some ["RANSOM_001"] ∧
      step_ids (get_next_steps engine' "INC-001")
      = ["RANSOM_002"; "RANSOM_003"; "RANSOM_007"]
  | Raise _ => False
  end.
Proof. vm_compute. done. Qed.

End Claims.

(** * Further properties of the workflow engine *)

Section EngineFacts.

Implicit Types (workflow : list WorkflowStep) (s q t : WorkflowStep) (id p : string).

Lemma count_status_partition workflow :
  count_status COMPLETED workflow + count_status FAILED workflow
  + count_status IN_PROGRESS workflow + count_status PENDING workflow
  + count_status SKIPPED workflow = length workflow.
Proof.
  unfold count_status. induction workflow as [|s workflow IH]; simpl; [done|].
  destruct (status s); simpl; lia.
Qed.

Lemma count_status_insert st workflow i s s' :
  workflow !! i = Some s ->
  count_status st (<[i := s']> workflow) + same_status (status s) st
  = count_status st workflow + same_status (status s') st.
Proof.
  unfold count_status, same_status. revert i.
  induction workflow as [|x workflow IH]; intros i Hi; [done|].
  destruct i as [|i]; simpl in *.
  - injection Hi as ->. repeat case_bool_decide; simpl; first [lia|congruence].
  - specialize (IH i Hi). repeat case_bool_decide; simpl; first [lia|congruence].
Qed.

(** X1. The summary of [get_workflow_status] counts every step once:
    its total is the number of steps, it has one entry per step in
    workflow order, and its four counters add up to the total less the
    skipped steps, for which the summary has no counter.  Only an
    incident without workflow gets the error. *)
Theorem get_workflow_status_counts (self : WorkflowEngine) (incident_id : string) :
  match get_workflow_status self incident_id with
  | StatusReport.Error message =>
      active_workflows self !! incident_id = None ∧ message = "Workflow not found"
  | StatusReport.Summary r =>
      ∃ workflow,
        active_workflows self !! incident_id = Some workflow ∧
        StatusReport.total_steps r = length workflow ∧
        map StatusReport.entry_step_id (StatusReport.steps r) = step_ids workflow ∧
        StatusReport.completed r + StatusReport.failed r
        + StatusReport.in_progress r + StatusReport.pending r
        + count_status SKIPPED workflow
        = StatusReport.total_steps r
  end.
Proof.
  unfold get_workflow_status.
  destruct (active_workflows self !! incident_id) as [workflow|]; [|done].
  exists workflow. simpl. split; [done|]. split; [done|].
  split; [|apply count_status_partition].
  unfold step_ids. rewrite map_map. reflexivity.
Qed.

(** X2. A successful [update_step_status] moves one step from the
    counter of its old status to the counter of the new one and leaves
    the total as it is. *)
Theorem update_step_status_moves_counts (now : datetime) (self : WorkflowEngine)
    (incident_id id : string) (st : WorkflowStatus) (r : option string)
    (workflow : list WorkflowStep) (i : nat) (s : WorkflowStep) :
  active_workflows self !! incident_id = Some workflow ->
  find_step workflow id = Some (i, s) ->
  ∃ self' before after,
    update_step_status now self incident_id id st r = (true, self') ∧
    get_workflow_status self incident_id = StatusReport.Summary before ∧
    get_workflow_status self' incident_id = StatusReport.Summary after ∧
    StatusReport.total_steps after = StatusReport.total_steps before ∧
    StatusReport.completed after + same_status (status s) COMPLETED
    = StatusReport.completed before + same_status st COMPLETED ∧
    StatusReport.failed after + same_status (status s) FAILED
    = StatusReport.failed before + same_status st FAILED ∧
    StatusReport.in_progress after + same_status (status s) IN_PROGRESS
    = StatusReport.in_progress before + same_status st IN_PROGRESS ∧
    StatusReport.pending after + same_status (status s) PENDING
    = StatusReport.pending before + same_status st PENDING.
Proof.
  intros Hwf Hfind. pose proof Hfind as (Hi & _)%find_step_Some.
  eexists _, _, _.
  split. { unfold update_step_status, update_steps. rewrite Hwf, Hfind. reflexivity. }
  unfold get_workflow_status. simpl. rewrite Hwf, lookup_insert_eq.
  split; [reflexivity|]. split; [reflexivity|]. simpl.
  split; [apply length_insert|].
  split_and!; apply (count_status_insert _ workflow i s (set_status now s st r) Hi).
Qed.

Lemma update_step_status_moves_counts_witness :
  active_workflows ransomware_engine !! "INC-001" = Some ransomware_workflow ∧
  find_step ransomware_workflow "RANSOM_001" = Some (0, isolation_step) ∧
  ∃ self' before after,
    update_step_status 7%Z ransomware_engine "INC-001" "RANSOM_001" COMPLETED None
    = (true, self') ∧
    get_workflow_status ransomware_engine "INC-001" = StatusReport.Summary before ∧
    get_workflow_status self' "INC-001" = StatusReport.Summary after ∧
    StatusReport.completed after + 0 = StatusReport.completed before + 1 ∧
    StatusReport.pending after + 1 = StatusReport.pending before + 0.
Proof.
  split; [reflexivity|]. split; [reflexivity|].
  destruct (update_step_status_moves_counts 7%Z ransomware_engine "INC-001" "RANSOM_001"
              COMPLETED None ransomware_workflow 0 isolation_step eq_refl eq_refl)
    as (self' & before & after & Hupd & Hb & Ha & _ & Hc & _ & _ & Hp).
  exists self', before, after. repeat split; assumption.
Defined.

(** X3. In a workflow all of whose steps are pending, as after
    [create_workflow], [get_next_steps] returns exactly the steps that
    list no prerequisite. *)
Theorem fresh_workflow_ready_steps (self : WorkflowEngine) (incident_id : string)
    (workflow : list WorkflowStep) :
  active_workflows self !! incident_id = Some workflow ->
  (∀ s, s ∈ workflow -> status s = PENDING) ->
  get_next_steps self incident_id
  = List.filter (λ s, bool_decide (prereq_ids s = [])) workflow.
Proof.
  intros Hwf Hpending. unfold get_next_steps, next_steps. rewrite Hwf.
  apply List.filter_ext_in. intros s Hs%list_elem_of_In.
  unfold ready, prereq_ids. rewrite (Hpending s Hs). simpl.
  destruct (prerequisites s) as [[|p prereqs]|]; simpl; [done| |done].
  unfold prereq_completed at 1.
  destruct (find_step workflow p) as [[j q]|] eqn:Hfind; [|done].
  apply find_step_elem in Hfind as [Hq _]. by rewrite (Hpending q Hq).
Qed.

Lemma fresh_workflow_ready_steps_witness :
  active_workflows ransomware_engine !! "INC-001" = Some ransomware_workflow ∧
  step_ids (get_next_steps ransomware_engine "INC-001")
  = ["RANSOM_001"; "RANSOM_002"; "RANSOM_003"; "RANSOM_007"].
Proof.
  split; [reflexivity|].
  rewrite (fresh_workflow_ready_steps ransomware_engine "INC-001" ransomware_workflow
             eq_refl ransomware_workflow_pending).
  reflexivity.
Defined.

Lemma find_step_insert_back workflow i s s' p j q :
  workflow !! i = Some s -> step_id s' = step_id s ->
  find_step (<[i := s']> workflow) p = Some (j, q) -> j ≠ i ->
  find_step workflow p = Some (j, q).
Proof.
  intros Hi Hid Hfind Hne.
  assert (i < length workflow) as Hlt by by eapply lookup_lt_Some.
  rewrite <- (list_insert_id workflow i s Hi).
  rewrite <- (list_insert_insert_eq workflow i s s').
  eapply find_step_insert_ne; [by apply list_lookup_insert_eq|done..].
Qed.

(** X4. Completing a step that was not completed keeps every other
    step that [get_next_steps] returned, and the steps it newly returns
    all list the completed step as a prerequisite. *)
Theorem completing_enables_only_dependents (now : datetime) (self : WorkflowEngine)
    (incident_id id : string) (r : option string)
    (workflow : list WorkflowStep) (i : nat) (s : WorkflowStep) :
  active_workflows self !! incident_id = Some workflow ->
  find_step workflow id = Some (i, s) ->
  status s ≠ COMPLETED ->
  ∃ self',
    update_step_status now self incident_id id COMPLETED r = (true, self') ∧
    (∀ j t, j ≠ i -> workflow !! j = Some t ->
       t ∈ get_next_steps self incident_id -> t ∈ get_next_steps self' incident_id) ∧
    (∀ t, t ∈ get_next_steps self' incident_id ->
       t ∈ get_next_steps self incident_id ∨ id ∈ prereq_ids t).
Proof.
  intros Hwf Hfind Hst. pose proof Hfind as (Hi & Hid & _)%find_step_Some.
  set (s' := set_status now s COMPLETED r).
  eexists. split.
  { unfold update_step_status, update_steps. rewrite Hwf, Hfind. reflexivity. }
  unfold get_next_steps. simpl. rewrite Hwf, lookup_insert_eq. split.
  - intros j t Hne Hj [_ [Ht Hpre]%ready_true]%next_steps_elem.
    apply next_steps_elem. split.
    + apply list_elem_of_lookup. exists j. by rewrite list_lookup_insert_ne.
    + apply ready_true. split; [done|]. intros p Hp.
      apply prereq_completed_insert with (s := s); [done..|by apply Hpre].
  - intros t [Hin [Ht Hpre]%ready_true]%next_steps_elem.
    apply elem_of_insert in Hin as [->|(j & Hne & Hj)]; [done|].
    destruct (bool_decide (id ∈ prereq_ids t)) eqn:Hdep.
    { right. by apply bool_decide_eq_true in Hdep. }
    apply bool_decide_eq_false in Hdep.
    left. apply next_steps_elem. split; [apply list_elem_of_lookup; eauto|].
    apply ready_true. split; [done|]. intros p Hp.
    specialize (Hpre p Hp). apply prereq_completed_true in Hpre as (k & q & Hfindq & Hq).
    apply prereq_completed_true. exists k, q. split; [|done].
    eapply (find_step_insert_back workflow i s s'); [done..|].
    intros ->.
    apply find_step_Some in Hfindq as (Hk & Hidq & _).
    rewrite list_lookup_insert_eq in Hk by (by eapply lookup_lt_Some).
    injection Hk as <-. simpl in Hidq. rewrite Hid in Hidq. by subst p.
Qed.

Lemma completing_enables_only_dependents_witness :
  active_workflows ransomware_engine !! "INC-001" = Some ransomware_workflow ∧
  find_step ransomware_workflow "RANSOM_001" = Some (0, isolation_step) ∧
  status isolation_step ≠ COMPLETED ∧
  ∃ self',
    update_step_status 7%Z ransomware_engine "INC-001" "RANSOM_001" COMPLETED None
    = (true, self') ∧
    step_ids (get_next_steps self' "INC-001")
    = ["RANSOM_002"; "RANSOM_003"; "RANSOM_004"; "RANSOM_007"].
Proof.
  split; [reflexivity|]. split; [reflexivity|]. split; [discriminate|].
  destruct (completing_enables_only_dependents 7%Z ransomware_engine "INC-001"
              "RANSOM_001" None ransomware_workflow 0 isolation_step eq_refl eq_refl
              ltac:(discriminate))
    as (self' & Hupd & _).
  exists self'. split; [exact Hupd|].
  injection Hupd as <-. vm_compute. reflexivity.
Defined.

End EngineFacts.

Section GeneratorFacts.

(** X5. Two updates of the same step in a row: the status and result of
    the second win, but the execution time is that of the last update to
    completed or failed, so a time set by the first update survives a
    second update to pending, in_progress or skipped.  No other step
    changes. *)
Theorem update_step_status_twice (now1 now2 : datetime) (self : WorkflowEngine)
    (incident_id id : string) (st1 st2 : WorkflowStatus) (r1 r2 : option string)
    (workflow : list WorkflowStep) (i : nat) (s : WorkflowStep) :
  active_workflows self !! incident_id = Some workflow ->
  find_step workflow id = Some (i, s) ->
  ∃ self1 self2 workflow2 s2,
    update_step_status now1 self incident_id id st1 r1 = (true, self1) ∧
    update_step_status now2 self1 incident_id id st2 r2 = (true, self2) ∧
    active_workflows self2 !! incident_id = Some workflow2 ∧
    workflow2 !! i = Some s2 ∧
    (∀ j, j ≠ i -> workflow2 !! j = workflow !! j) ∧
    status s2 = st2 ∧ result s2 = r2 ∧
    execution_time s2 =
      match st2 with
      | COMPLETED | FAILED => Some now2
      | PENDING | IN_PROGRESS | SKIPPED =>
          match st1 with
          | COMPLETED | FAILED => Some now1
          | PENDING | IN_PROGRESS | SKIPPED => execution_time s
          end
      end.
Proof.
  intros Hwf Hfind. pose proof Hfind as (Hi & _)%find_step_Some.
  assert (i < length workflow) as Hlt by by eapply lookup_lt_Some.
  pose proof (find_step_insert_eq workflow i s (set_status now1 s st1 r1) id
                eq_refl Hfind) as Hfind1.
  eexists _, _, _, (set_status now2 (set_status now1 s st1 r1) st2 r2).
  split. { unfold update_step_status, update_steps. rewrite Hwf, Hfind. reflexivity. }
  split.
  { unfold update_step_status, update_steps. cbn [active_workflows].
    rewrite lookup_insert_eq, Hfind1. reflexivity. }
  simpl. split; [by rewrite lookup_insert_eq|].
  split. { apply list_lookup_insert_eq. by rewrite length_insert. }
  split. { intros j Hne. by rewrite !list_lookup_insert_ne. }
  by destruct st1, st2.
Qed.

Lemma update_step_status_twice_witness :
  active_workflows ransomware_engine !! "INC-001" = Some ransomware_workflow ∧
  find_step ransomware_workflow "RANSOM_001" = Some (0, isolation_step) ∧
  ∃ self1 self2 workflow2 s2,
    update_step_status 5%Z ransomware_engine "INC-001" "RANSOM_001" COMPLETED
      (Some "Success") = (true, self1) ∧
    update_step_status 9%Z self1 "INC-001" "RANSOM_001" PENDING None = (true, self2) ∧
    active_workflows self2 !! "INC-001" = Some workflow2 ∧
    workflow2 !! 0 = Some s2 ∧
    status s2 = PENDING ∧ execution_time s2 = Some 5%Z.
Proof.
  split; [reflexivity|]. split; [reflexivity|].
  destruct (update_step_status_twice 5%Z 9%Z ransomware_engine "INC-001" "RANSOM_001"
              COMPLETED PENDING (Some "Success") None ransomware_workflow 0
              isolation_step eq_refl eq_refl)
    as (self1 & self2 & workflow2 & s2 & H1 & H2 & Hwf & Hs2 & _ & Hst & _ & Htime).
  exists self1, self2, workflow2, s2. repeat split; assumption.
Defined.

(** The generators of [__init__], one by one. *)
Lemma builtin_generator incident_type generate :
  workflow_generators WorkflowEngine_init !! incident_type = Some generate ->
  (incident_type = "malware_outbreak" ∧ generate = RansomwareWorkflow.generate_workflow) ∨
  (incident_type = "data_exfiltration"
   ∧ generate = DataExfiltrationWorkflow.generate_workflow) ∨
  (incident_type = "credential_compromise"
   ∧ generate = CredentialCompromiseWorkflow.generate_workflow) ∨
  (incident_type = "ddos_attack" ∧ generate = DDoSWorkflow.generate_workflow) ∨
  (incident_type = "insider_threat" ∧ generate = InsiderThreatWorkflow.generate_workflow).
Proof.
  intros Hgen%elem_of_list_to_map_2.
  repeat match type of Hgen with
         | _ ∈ _ :: _ => apply elem_of_cons in Hgen as [[= -> ->]|Hgen]; [tauto|]
         | _ ∈ [] => inversion Hgen
         end.
Qed.

Lemma generator_runs incident_type generate (incident_data : dict) :
  workflow_generators WorkflowEngine_init !! incident_type = Some generate ->
  report_typed incident_data = true ->
  ∃ workflow : list WorkflowStep,
    generate incident_data = Ok workflow ∧ 5 ≤ length workflow ≤ 8.
Proof.
  intros Hgen Htyped. unfold report_typed in Htyped.
  destruct (get incident_data "indicators" (Dict [])) as [| | | | |d] eqn:Hind;
    try done.
  apply andb_true_iff in Htyped as [Himpact Hsized].
  destruct (builtin_generator _ _ Hgen)
    as [[_ ->]|[[_ ->]|[[_ ->]|[[_ ->]|[_ ->]]]]].
  - unfold RansomwareWorkflow.generate_workflow. rewrite Hind. simpl.
    eexists. split; [reflexivity|]. simpl. lia.
  - unfold DataExfiltrationWorkflow.generate_workflow. rewrite Hind. simpl.
    destruct (get incident_data "impact_assessment" (Dict [])); try done. simpl.
    eexists. split; [reflexivity|].
    do 2 destruct (truthy _); simpl; lia.
  - unfold CredentialCompromiseWorkflow.generate_workflow. rewrite Hind. simpl.
    destruct (get d "compromised_accounts" (List [])); try done; simpl;
      (eexists; split; [reflexivity|]; simpl; lia).
  - unfold DDoSWorkflow.generate_workflow. rewrite Hind. simpl.
    eexists. split; [reflexivity|]. simpl. lia.
  - unfold InsiderThreatWorkflow.generate_workflow. rewrite Hind. simpl.
    eexists. split; [reflexivity|]. simpl. lia.
Qed.

(** X6. On a report whose indicators and impact assessment are dicts
    when present and whose compromised accounts have a length, an empty
    report included, each of the five generators returns a workflow, of
    five to eight steps. *)
Theorem generators_total_on_typed_reports (incident_type : string) generate
    (incident_data : dict) :
  workflow_generators WorkflowEngine_init !! incident_type = Some generate ->
  report_typed incident_data = true ->
  ∃ workflow : list WorkflowStep,
    generate incident_data = Ok workflow ∧ 5 ≤ length workflow ≤ 8.
Proof. apply generator_runs. Qed.

Lemma generators_total_on_typed_reports_witness :
  report_typed [] = true ∧
  ∃ workflow : list WorkflowStep,
    DDoSWorkflow.generate_workflow [] = Ok workflow ∧ 5 ≤ length workflow ≤ 8.
Proof.
  split; [reflexivity|].
  exact (generators_total_on_typed_reports "ddos_attack" DDoSWorkflow.generate_workflow
           [] eq_refl eq_refl).
Defined.

(** X7. The failures of the five generators: each raises
    [AttributeError] when the report's indicators are not a dict; beyond
    that, the data-exfiltration generator raises [AttributeError] when
    the impact assessment is not a dict, the credential generator raises
    [TypeError] when the compromised accounts have no length, and nothing
    else makes a generator fail. *)
Theorem generator_failures (incident_type : string) generate (incident_data : dict) :
  workflow_generators WorkflowEngine_init !! incident_type = Some generate ->
  (is_dict (get incident_data "indicators" (Dict [])) = false ->
   generate incident_data = Raise AttributeError) ∧
  (∀ e, generate incident_data = Raise e ->
     (e = AttributeError ∧
      (is_dict (get incident_data "indicators" (Dict [])) = false ∨
       (incident_type = "data_exfiltration" ∧
        is_dict (get incident_data "impact_assessment" (Dict [])) = false))) ∨
     (e = TypeError ∧ incident_type = "credential_compromise" ∧
      ∃ d, get incident_data "indicators" (Dict []) = Dict d ∧
           sized (get d "compromised_accounts" (List [])) = false)).
Proof.
  intros Hgen.
  destruct (builtin_generator _ _ Hgen)
    as [[-> ->]|[[-> ->]|[[-> ->]|[[-> ->]|[-> ->]]]]]; split.
  all: unfold RansomwareWorkflow.generate_workflow,
         DataExfiltrationWorkflow.generate_workflow,
         CredentialCompromiseWorkflow.generate_workflow,
         DDoSWorkflow.generate_workflow, InsiderThreatWorkflow.generate_workflow.
  all: destruct (get incident_data "indicators" (Dict [])) as [| | | | |d] eqn:Hind;
    simpl; try done; try (intros e [= <-]; left; split; [done|by left]).
  - destruct (get incident_data "impact_assessment" (Dict [])); simpl; try done;
      intros e [= <-]; left; (split; [done|right; done]).
  - destruct (get d "compromised_accounts" (List [])) eqn:Hacc; simpl; try done;
      intros e [= <-]; right; (split; [done|]); (split; [done|]);
      exists d; rewrite Hacc; done.
Qed.

Lemma generator_failures_witness :
  is_dict (get [("indicators", Str "none")] "indicators" (Dict [])) = false ∧
  DDoSWorkflow.generate_workflow [("indicators", Str "none")] = Raise AttributeError.
Proof.
  split; [reflexivity|].
  exact (proj1 (generator_failures "ddos_attack" DDoSWorkflow.generate_workflow
                  [("indicators", Str "none")] eq_refl) eq_refl).
Defined.

(** X8. Of the six incident types of the classifier, supply-chain
    compromise is the one without workflow: on a well-typed report
    [create_workflow] raises [ValueError] for its value and creates a
    workflow for the value of every other type. *)
Theorem supply_chain_has_no_workflow (t : ResponseSystem.IncidentType)
    (incident_id : string) (incident_data : dict) :
  report_typed incident_data = true ->
  match create_workflow WorkflowEngine_init incident_id
          (ResponseSystem.IncidentType_value t) incident_data with
  | Ok (workflow, self') =>
      t ≠ ResponseSystem.SUPPLY_CHAIN ∧
      active_workflows self' !! incident_id = Some workflow
  | Raise e => t = ResponseSystem.SUPPLY_CHAIN ∧ e = ValueError
  end.
Proof.
  intros Htyped.
  destruct (workflow_generators WorkflowEngine_init !! ResponseSystem.IncidentType_value t)
    as [generate|] eqn:Hgen.
  - destruct (generator_runs _ _ incident_data Hgen Htyped) as (workflow & Hrun & _).
    rewrite (create_workflow_ok _ incident_id _ _ _ _ Hgen Hrun). simpl.
    split; [|by rewrite lookup_insert_eq].
    intros ->. vm_compute in Hgen. done.
  - rewrite (create_workflow_unknown_type _ _ _ _ Hgen).
    split; [|done]. by destruct t; vm_compute in Hgen.
Qed.

Lemma supply_chain_has_no_workflow_witness :
  report_typed ransomware_data = true ∧
  create_workflow WorkflowEngine_init "INC-002" "supply_chain_compromise" ransomware_data
  = Raise ValueError.
Proof.
  split; [reflexivity|].
  pose proof (supply_chain_has_no_workflow ResponseSystem.SUPPLY_CHAIN "INC-002"
                ransomware_data eq_refl) as H.
  destruct (create_workflow WorkflowEngine_init "INC-002"
              (ResponseSystem.IncidentType_value ResponseSystem.SUPPLY_CHAIN)
              ransomware_data) as [[w e']|e] eqn:Hcreate.
  - destruct H as [H _]. by destruct H.
  - destruct H as [_ ->]. exact Hcreate.
Defined.

End GeneratorFacts.

(** * Properties of classification and persistence *)

Module IncidentFacts.
Import ResponseSystem Incidents.

(** X9. The severity of a report is the severity whose name its
    [severity] entry spells, in any letter case; it is medium when the
    entry is missing or spells no severity, and a [severity] that is not
    a string raises [AttributeError]. *)
Theorem determine_severity_cases (data : dict) :
  match lookup data "severity" with
  | None => _determine_severity data = Ok MEDIUM
  | Some (Str s) =>
      (∀ sev, PyStr.lower s = IncidentSeverity_value sev ->
              _determine_severity data = Ok sev) ∧
      ((∀ sev, PyStr.lower s ≠ IncidentSeverity_value sev) ->
       _determine_severity data = Ok MEDIUM)
  | Some _ => _determine_severity data = Raise AttributeError
  end.
Proof.
  unfold _determine_severity, get.
  destruct (lookup data "severity") as [[| | |s| |]|]; try reflexivity.
  split.
  - intros sev ->. by destruct sev.
  - intros Hnone. f_equal. unfold severity_map, severity_get.
    repeat match goal with
           | |- context [String.eqb ?a ?b] =>
               destruct (String.eqb_spec a b) as [Heq|_];
               [symmetry in Heq|]
           end; try reflexivity.
    + by destruct (Hnone LOW).
    + by destruct (Hnone HIGH).
    + by destruct (Hnone CRITICAL).
Qed.

Example severity_upper_case :
  _determine_severity [("severity", Str "CRITICAL")] = Ok CRITICAL ∧
  _determine_severity [("severity", Str "urgent")] = Ok MEDIUM ∧
  _determine_severity [("severity", Int 3)] = Raise AttributeError.
Proof. repeat split. Qed.

Lemma find_snoc {A} (f : A -> bool) (l : list A) (x : A) :
  List.find f (l ++ [x])
  = match List.find f l with
    | Some y => Some y
    | None => if f x then Some x else None
    end.
Proof.
  induction l as [|y l IH]; simpl; [done|]. by destruct (f y).
Qed.

Lemma store_incident_Ok now db incident db' :
  _store_incident now db incident = Ok db' ->
  bindable_or_null (description incident) = true ∧
  select_incident db (incident_id incident) = None ∧
  db' = mkStore
          (incidents db ++
           [mkIncidentRow (incident_id incident)
              (IncidentType_value (incident_type incident))
              (IncidentSeverity_value (severity incident))
              (detection_time incident) (affected_systems incident)
              (indicators incident) (description incident)
              (incident_status incident) now])
          (actions db).
Proof.
  unfold _store_incident.
  destruct (bindable_or_null (description incident)); simpl; [|done].
  destruct (select_incident db (incident_id incident)); [done|].
  by intros [= <-].
Qed.

(** X10. After [_store_incident] succeeds, [get_incident_status] finds
    the incident with the type, severity, detection time, affected
    systems and status that were stored, together with the actions
    recorded under its id; the status of every other id is as before. *)
Theorem store_incident_then_status (now : datetime) (db db' : Store)
    (incident : IncidentData) :
  _store_incident now db incident = Ok db' ->
  get_incident_status db' (incident_id incident)
  = Found (mkIncidentStatus (incident_id incident)
             (IncidentType_value (incident_type incident))
             (IncidentSeverity_value (severity incident))
             (detection_time incident) (affected_systems incident)
             (incident_status incident)
             (map action_entry_of
                (select_actions (actions db) (incident_id incident)))) ∧
  ∀ other, other ≠ incident_id incident ->
    get_incident_status db' other = get_incident_status db other.
Proof.
  intros (_ & Hfresh & ->)%store_incident_Ok.
  unfold get_incident_status, select_incident in *. simpl.
  split.
  - rewrite find_snoc, Hfresh. simpl. by rewrite String.eqb_refl.
  - intros other Hne. rewrite find_snoc.
    destruct (List.find (λ row, String.eqb (row_id row) other) (incidents db));
      [done|]. simpl.
    destruct (String.eqb_spec (incident_id incident) other); [congruence|done].
Qed.

Lemma store_incident_then_status_witness :
  ∃ db',
    _store_incident 1704067201%Z empty_store sample_incident = Ok db' ∧
    ∃ data, get_incident_status db' "INC-20240101000000" = Found data ∧
            status_severity data = "high" ∧ status_response_actions data = [].
Proof.
  eexists. split; [reflexivity|].
  eexists. split.
  - exact (proj1 (store_incident_then_status 1704067201%Z empty_store _
                    sample_incident eq_refl)).
  - split; reflexivity.
Defined.

(** X11. [_store_incident] succeeds exactly when the incident id is not
    yet in the table and the description can be bound. *)
Theorem store_incident_refuses_known_id (now : datetime) (db : Store)
    (incident : IncidentData) :
  (∃ db', _store_incident now db incident = Ok db') ↔
  get_incident_status db (incident_id incident) = NotFound "Incident not found" ∧
  bindable_or_null (description incident) = true.
Proof.
  unfold get_incident_status. split.
  - intros [db' (Hbind & Hfresh & _)%store_incident_Ok]. by rewrite Hfresh.
  - intros [Hnot Hbind]. unfold _store_incident. rewrite Hbind. simpl.
    destruct (select_incident db (incident_id incident)); [done|]. by eexists.
Qed.

(** X12. The incident id has the resolution of its timestamp: when two
    reports are classified at clock readings that print alike and the
    first incident is stored, storing the second is refused. *)
Theorem same_stamp_incidents_collide (str : val -> string)
    (strftime : string -> datetime -> string)
    (now1 detection1 now2 detection2 t1 t2 : datetime)
    (data1 data2 : dict) (incident1 incident2 : IncidentData) (db db1 : Store) :
  strftime "%Y%m%d%H%M%S" now1 = strftime "%Y%m%d%H%M%S" now2 ->
  classify_incident str strftime now1 detection1 data1 = Ok incident1 ->
  classify_incident str strftime now2 detection2 data2 = Ok incident2 ->
  _store_incident t1 db incident1 = Ok db1 ->
  incident_id incident2 = incident_id incident1 ∧
  _store_incident t2 db1 incident2 = Raise SqliteError.
Proof.
  intros Hstamp Hc1 Hc2 (_ & Hfresh & ->)%store_incident_Ok.
  assert (incident_id incident2 = incident_id incident1) as Hid.
  { unfold classify_incident in Hc1, Hc2.
    destruct (_determine_incident_type str data1); simpl in Hc1; [|done].
    destruct (_determine_severity data1); simpl in Hc1; [|done].
    destruct (_determine_incident_type str data2); simpl in Hc2; [|done].
    destruct (_determine_severity data2); simpl in Hc2; [|done].
    injection Hc1 as <-. injection Hc2 as <-. simpl.
    unfold _generate_incident_id. by rewrite Hstamp. }
  split; [done|].
  unfold _store_incident, select_incident. simpl.
  destruct (bindable_or_null (description incident2)); simpl; [|done].
  rewrite find_snoc. unfold select_incident in Hfresh. rewrite Hid, Hfresh. simpl.
  by rewrite String.eqb_refl.
Qed.

Lemma same_stamp_incidents_collide_witness :
  seconds_stamp "%Y%m%d%H%M%S" 1704067200100%Z
  = seconds_stamp "%Y%m%d%H%M%S" 1704067200900%Z ∧
  ∃ incident1 incident2 db1,
    classify_incident Py.str seconds_stamp 1704067200100%Z 1704067200101%Z
      ransomware_data = Ok incident1 ∧
    classify_incident Py.str seconds_stamp 1704067200900%Z 1704067200901%Z
      insider_report = Ok incident2 ∧
    _store_incident 1704067201000%Z empty_store incident1 = Ok db1 ∧
    _store_incident 1704067202000%Z db1 incident2 = Raise SqliteError.
Proof.
  split; [reflexivity|].
  eexists _, _, _. split; [reflexivity|]. split; [reflexivity|]. split; [reflexivity|].
  exact (proj2 (same_stamp_incidents_collide Py.str seconds_stamp
                  1704067200100%Z 1704067200101%Z 1704067200900%Z 1704067200901%Z
                  1704067201000%Z 1704067202000%Z ransomware_data insider_report
                  _ _ empty_store _ eq_refl eq_refl eq_refl eq_refl)).
Defined.

(** X26. On a report whose indicators are a dict or missing,
    [classify_incident] fails only with [AttributeError], when the
    severity entry is not a string; otherwise it returns an active
    incident whose id is the stamp of the first clock reading, whose
    detection time is the second, and which carries the report's affected
    systems, indicators and description, or an empty list, an empty dict
    and the empty string for those that are missing. *)
Theorem classify_incident_result (str : val -> string)
    (strftime : string -> datetime -> string) (now_id now_detection : datetime)
    (data indicators : dict) :
  get data "indicators" (Dict []) = Dict indicators ->
  match classify_incident str strftime now_id now_detection data with
  | Ok incident =>
      incident_id incident = ("INC-" ++ strftime "%Y%m%d%H%M%S" now_id)%string ∧
      _determine_incident_type str data = Ok (incident_type incident) ∧
      _determine_severity data = Ok (severity incident) ∧
      detection_time incident = now_detection ∧
      affected_systems incident = default (List []) (lookup data "affected_systems") ∧
      ResponseSystem.indicators incident = Dict indicators ∧
      description incident = default (Str EmptyString) (lookup data "description") ∧
      incident_status incident = "active"
  | Raise e =>
      e = AttributeError ∧
      ∃ v, lookup data "severity" = Some v ∧ is_str v = false
  end.
Proof.
  intros Hind. unfold classify_incident.
  assert (∃ t, _determine_incident_type str data = Ok t) as [t Ht].
  { unfold _determine_incident_type. rewrite Hind.
    destruct (existsb _ _); [by eexists|].
    unfold contains, or_else.
    repeat (match goal with
            | |- context [lookup indicators ?k] => destruct (lookup indicators k)
            end; simpl; try by eexists). }
  rewrite Ht. simpl. unfold _determine_severity, get in *.
  destruct (lookup data "severity") as [[| | |s| |]|] eqn:Hsev; simpl;
    try (split; [done|]; by eexists); rewrite ?Hind; repeat split;
    by destruct (lookup data _).
Qed.

Lemma classify_incident_result_witness :
  get insider_report "indicators" (Dict [])
  = Dict [("employee_id", Str "E1042"); ("badge_anomaly", Bool true)] ∧
  ∃ incident,
    classify_incident Py.str seconds_stamp 1704067200100%Z 1704067200101%Z
      insider_report = Ok incident ∧
    incident_id incident = "INC-1704067200" ∧
    incident_status incident = "active".
Proof.
  split; [reflexivity|].
  pose proof (classify_incident_result Py.str seconds_stamp 1704067200100%Z
                1704067200101%Z insider_report
                [("employee_id", Str "E1042"); ("badge_anomaly", Bool true)] eq_refl)
    as H.
  destruct (classify_incident Py.str seconds_stamp 1704067200100%Z 1704067200101%Z
              insider_report) as [incident|e] eqn:Hc.
  - exists incident. destruct H as (Hid & _ & _ & _ & _ & _ & _ & Hst).
    split; [reflexivity|]. split; [exact Hid|exact Hst].
  - destruct H as [_ (v & Hv & _)]. discriminate Hv.
Defined.

(** An integer beyond 64 bits is refused as a target and as a
    description, and nothing is stored. *)
Example oversized_integer_refused :
  store_response_action 1704067261%Z stored_sample "INC-20240101000000" oversized_step
  = Raise SqliteError ∧
  _store_incident 1704067201%Z empty_store
    (mkIncidentData "INC-20240101000000" RANSOMWARE HIGH 1704067200%Z (List [])
       (Dict []) (Int 9223372036854775808) "active")
  = Raise SqliteError ∧
  _store_incident 1704067201%Z empty_store
    (mkIncidentData "INC-20240101000000" RANSOMWARE HIGH 1704067200%Z (List [])
       (Dict []) (Int 9223372036854775807) "active")
  ≠ Raise SqliteError.
Proof. repeat split. discriminate. Qed.

Lemma store_action_Ok now db incident_id step db' :
  store_response_action now db incident_id step = Ok db' ->
  db' = mkStore (incidents db)
          (mkDatabase
             (response_actions (actions db) ++
              [mkActionRow (response_actions_seq (actions db) + 1) incident_id
                 (ResponseAction_value (action step)) (target step) (parameters step)
                 (status step) (execution_time step) (result step) now])
             (response_actions_seq (actions db) + 1)) ∧
  (response_actions_seq (actions db) ≠ max_rowid)%Z.
Proof.
  unfold store_response_action, _store_response_action.
  destruct (bindable (target step)); simpl; [|done].
  destruct (Z.eqb_spec (response_actions_seq (actions db)) max_rowid); simpl; [done|].
  by intros [= <-].
Qed.

(** X13. [_store_response_action] does not ask for the incident to
    exist: it records an action under an id that has no incident row as
    under any other, and [get_incident_status] answers not found for that
    id before and after, whatever actions are recorded under it. *)
Theorem orphan_actions_are_hidden (now : datetime) (db : Store) (id : string)
    (step : ResponseStep) :
  get_incident_status db id = NotFound "Incident not found" ->
  bindable (target step) = true ->
  (response_actions_seq (actions db) ≠ max_rowid)%Z ->
  ∃ db',
    store_response_action now db id step = Ok db' ∧
    select_actions (actions db') id ≠ [] ∧
    get_incident_status db' id = NotFound "Incident not found".
Proof.
  intros Hnot Hbind Hseq.
  unfold store_response_action.
  rewrite (StoreFacts.store_ok now (actions db) id step Hbind Hseq). simpl.
  eexists. split; [reflexivity|]. split.
  - unfold select_actions. simpl. rewrite List.filter_app. simpl.
    rewrite String.eqb_refl. by destruct (List.filter _ _).
  - unfold get_incident_status, select_incident in *. simpl.
    by destruct (List.find _ (incidents db)).
Qed.

Lemma orphan_actions_are_hidden_witness :
  get_incident_status empty_store "INC-20240101000000" = NotFound "Incident not found" ∧
  ∃ db',
    store_response_action 1704067261%Z empty_store "INC-20240101000000" sample_step
    = Ok db' ∧
    get_incident_status db' "INC-20240101000000" = NotFound "Incident not found".
Proof.
  split; [reflexivity|].
  destruct (orphan_actions_are_hidden 1704067261%Z empty_store "INC-20240101000000"
              sample_step eq_refl eq_refl ltac:(discriminate))
    as (db' & Hstore & _ & Hstatus).
  exists db'. split; assumption.
Defined.

(** X14. A stored action shows in the status of its incident as one
    more entry after those already there, carrying the step's action
    type, target, status, execution time and result; the status of every
    other incident is as before. *)
Theorem stored_action_appears_in_status (now : datetime) (db db' : Store)
    (id : string) (step : ResponseStep) (data : incident_status_data) :
  store_response_action now db id step = Ok db' ->
  get_incident_status db id = Found data ->
  get_incident_status db' id
  = Found (mkIncidentStatus (status_incident_id data) (status_incident_type data)
             (status_severity data) (status_detection_time data)
             (status_affected_systems data) (status_status data)
             (status_response_actions data ++ [entry_of_step step])) ∧
  ∀ other, other ≠ id -> get_incident_status db' other = get_incident_status db other.
Proof.
  intros [-> _]%store_action_Ok Hfound.
  unfold get_incident_status, select_incident, select_actions in *. simpl.
  split.
  - destruct (List.find _ (incidents db)) as [row|]; [|done].
    injection Hfound as <-. simpl.
    rewrite List.filter_app, map_app. simpl. by rewrite String.eqb_refl.
  - intros other Hne.
    destruct (List.find (λ row, String.eqb (row_id row) other) (incidents db))
      as [row|]; [|done].
    rewrite List.filter_app. simpl.
    destruct (String.eqb_spec id other); [congruence|]. by rewrite app_nil_r.
Qed.

Lemma stored_action_appears_in_status_witness :
  ∃ db2 data,
    store_response_action 1704067261%Z stored_sample "INC-20240101000000" sample_step
    = Ok db2 ∧
    get_incident_status stored_sample "INC-20240101000000" = Found data ∧
    ∃ data', get_incident_status db2 "INC-20240101000000" = Found data' ∧
             status_response_actions data' = [entry_of_step sample_step].
Proof.
  eexists _, _. split; [reflexivity|]. split; [reflexivity|].
  eexists. split.
  - exact (proj1 (stored_action_appears_in_status 1704067261%Z stored_sample _
                    "INC-20240101000000" sample_step _ eq_refl eq_refl)).
  - reflexivity.
Defined.

Lemma seq_snoc (n : nat) : seq 1 (S n) = seq 1 n ++ [S n].
Proof. by rewrite seq_S. Qed.

Lemma apply_write_consistent db w db' :
  store_consistent db -> apply_write db w = Ok db' -> store_consistent db'.
Proof.
  intros (Hnd & Hids & Hseq). destruct w as [now incident|now id step]; simpl.
  - intros (_ & Hfresh & ->)%store_incident_Ok. split; [|done]. simpl.
    rewrite map_app. simpl. apply NoDup_app. split; [done|]. split.
    + intros x Hx [<-|[]]%list_elem_of_In.
      apply list_elem_of_fmap in Hx as (row & Hid & Hrow%list_elem_of_In).
      unfold select_incident in Hfresh.
      eapply List.find_none in Hfresh; [|exact Hrow]. simpl in Hfresh.
      rewrite <- Hid, String.eqb_refl in Hfresh. done.
    + apply NoDup_singleton.
  - intros [-> _]%store_action_Ok. split; [done|]. simpl.
    rewrite !length_app, map_app. simpl. rewrite Nat.add_1_r, seq_snoc, map_app.
    simpl. rewrite <- Hids, Hseq. split; [|lia]. do 3 f_equal. lia.
Qed.

(** X15. Whatever incidents and actions the engine writes to a fresh
    database, as long as no write is refused the incident ids in it are
    distinct and the action ids are 1, 2, ... in insertion order. *)
Theorem writes_keep_keys (ws : list write) (db : Store) :
  apply_writes empty_store ws = Ok db -> store_consistent db.
Proof.
  assert (store_consistent empty_store) as Hempty.
  { split; [constructor|done]. }
  revert Hempty. generalize empty_store. revert db.
  induction ws as [|w ws IH]; intros db db0 Hcons; simpl.
  - by intros [= <-].
  - destruct (apply_write db0 w) as [db1|] eqn:Hw; simpl; [|done].
    apply IH. by eapply apply_write_consistent.
Qed.

Lemma writes_keep_keys_witness :
  ∃ db, apply_writes empty_store sample_writes = Ok db ∧ store_consistent db.
Proof.
  eexists. split; [reflexivity|].
  exact (writes_keep_keys sample_writes _ eq_refl).
Defined.

End IncidentFacts.

(** * Properties of the device managers *)

Module TextFacts.

Local Open Scope string_scope.
#[local] Arguments String.append !_ _ / : simpl nomatch.

Lemma prefix_app (n h : string) :
  String.prefix n h = true ↔ ∃ b, h = n ++ b.
Proof.
  revert h. induction n as [|c n IH]; intros h.
  - split; [by exists h|by destruct h].
  - destruct h as [|c' h]; simpl; [split; [done|by intros [b [=]]]|].
    destruct (Ascii.ascii_dec c c') as [->|Hne].
    + rewrite IH. split; [intros [b ->]; by exists b|intros [b [= ->]]; by exists b].
    + split; [done|]. intros [b [= -> _]]. done.
Qed.

Lemma app_assoc (a b c : string) : (a ++ b) ++ c = a ++ b ++ c.
Proof. induction a as [|x a IH]; simpl; [done|]. by rewrite IH. Qed.

Lemma contains_app (n h : string) :
  str_contains n h = true ↔ ∃ a b, h = a ++ n ++ b.
Proof.
  induction h as [|c h IH].
  - destruct n as [|x n]; simpl.
    + split; [by exists EmptyString, EmptyString|done].
    + split; [done|]. intros (a & b & Hab). by destruct a.
  - cbn [str_contains]. rewrite orb_true_iff, prefix_app, IH. split.
    + intros [[b Hb]|(a & b & ->)]; [by exists EmptyString, b|].
      by exists (String c a), b.
    + intros (a & b & Hab). destruct a as [|x a]; [left; by exists b|].
      right. injection Hab as _ ->. by exists a, b.
Qed.

Lemma contains_trans (a b c : string) :
  str_contains a b = true -> str_contains b c = true -> str_contains a c = true.
Proof.
  rewrite !contains_app. intros (x & y & ->) (u & v & ->).
  exists (u ++ x), (y ++ v). by rewrite !app_assoc.
Qed.

Lemma contains_cons (n : string) (c : ascii) (h : string) :
  str_contains n h = true -> str_contains n (String c h) = true.
Proof. intros H. cbn [str_contains]. rewrite H. apply orb_true_r. Qed.

Lemma split_by_cons sep s : ∃ piece pieces, PyStr.split_by sep s = piece :: pieces.
Proof.
  destruct s as [|c s]; simpl; [by eexists _, _|].
  destruct (sep c); [by eexists _, _|].
  destruct (PyStr.split_by sep s); by eexists _, _.
Qed.

Lemma split_by_head sep s h t :
  PyStr.split_by sep s = h :: t ->
  (∃ b, s = h ++ b) ∧ PyStr.all_chars (λ c, negb (sep c)) h = true.
Proof.
  revert h t. induction s as [|c s IH]; intros h t; simpl.
  - intros [= <- <-]. split; [by exists EmptyString|done].
  - destruct (sep c) eqn:Hc.
    + intros [= <- <-]. split; [by exists (String c s)|done].
    + destruct (split_by_cons sep s) as (h' & t' & Hsplit). rewrite Hsplit.
      intros [= <- <-]. destruct (IH h' t' Hsplit) as [[b ->] Hall].
      split; [by exists b|]. simpl. by rewrite Hc.
Qed.

(** Every piece of a split is a part of the text, free of separators. *)
Lemma split_by_piece sep s piece :
  piece ∈ PyStr.split_by sep s ->
  (∃ a b, s = a ++ piece ++ b) ∧ PyStr.all_chars (λ c, negb (sep c)) piece = true.
Proof.
  revert piece. induction s as [|c s IH]; intros piece; simpl.
  - intros [->|[]%elem_of_nil]%elem_of_cons.
    split; [by exists EmptyString, EmptyString|done].
  - destruct (sep c) eqn:Hc.
    + intros [->|Hin]%elem_of_cons.
      * split; [by exists EmptyString, (String c s)|done].
      * destruct (IH piece Hin) as [(a & b & ->) Hall]. split; [|done].
        by exists (String c a), b.
    + destruct (split_by_cons sep s) as (h & t & Hsplit). rewrite Hsplit in *.
      intros [->|Hin]%elem_of_cons.
      * destruct (split_by_head sep s h t Hsplit) as [[b ->] Hall].
        split; [by exists EmptyString, b|]. simpl. by rewrite Hc.
      * destruct (IH piece ltac:(by right)) as [(a & b & ->) Hall]. split; [|done].
        by exists (String c a), b.
Qed.

Lemma split_by_first sep (m b : string) :
  PyStr.all_chars (λ c, negb (sep c)) m = true ->
  ∃ h t, PyStr.split_by sep (m ++ b) = (m ++ h) :: t.
Proof.
  induction m as [|c m IH]; simpl; intros Hall.
  - apply split_by_cons.
  - apply andb_true_iff in Hall as [Hc%negb_true_iff Hall]. rewrite Hc.
    destruct (IH Hall) as (h & t & ->). by exists h, t.
Qed.

(** A text without separator that occurs in [s] occurs in one of the
    pieces of [s]. *)
Lemma split_by_contains sep (m s : string) :
  PyStr.all_chars (λ c, negb (sep c)) m = true ->
  str_contains m s = true ->
  ∃ piece, piece ∈ PyStr.split_by sep s ∧ str_contains m piece = true.
Proof.
  intros Hall (a & b & ->)%contains_app.
  induction a as [|c a IH]; simpl.
  - destruct (split_by_first sep m b Hall) as (h & t & ->).
    exists (m ++ h). split; [by left|]. apply contains_app. by exists EmptyString, h.
  - destruct IH as (piece & Hin & Hm).
    destruct (sep c); [exists piece; split; [by right|done]|].
    destruct (PyStr.split_by sep (a ++ m ++ b)) as [|h t]; [by apply elem_of_nil in Hin|].
    apply elem_of_cons in Hin as [->|Hin].
    + exists (String c h). split; [by left|by apply contains_cons].
    + exists piece. split; [by right|done].
Qed.

Lemma first_result_Some {A B} (f : A -> option B) (l : list A) y :
  PyStr.first_result f l = Some y -> ∃ x, x ∈ l ∧ f x = Some y.
Proof.
  induction l as [|x l IH]; simpl; [done|].
  destruct (f x) as [y'|] eqn:Hx.
  - intros [= ->]. exists x. split; [by left|done].
  - intros (x' & Hin & Hx')%IH. exists x'. split; [by right|done].
Qed.

Lemma first_result_found {A B} (f : A -> option B) (l : list A) x y :
  x ∈ l -> f x = Some y -> ∃ y', PyStr.first_result f l = Some y'.
Proof.
  induction l as [|x' l IH]; simpl; [by intros ?%elem_of_nil|].
  intros [->|Hin]%elem_of_cons Hx.
  - rewrite Hx. by eexists.
  - destruct (f x'); [by eexists|by apply IH].
Qed.

Lemma split_ws_elem (line part : string) :
  part ∈ PyStr.split_ws line ↔
  part ∈ PyStr.split_by PyStr.is_space line ∧ PyStr.nonempty part = true.
Proof. unfold PyStr.split_ws. rewrite !list_elem_of_In. apply filter_In. Qed.

Lemma find_found {A} (f : A -> bool) (l : list A) x :
  x ∈ l -> f x = true -> ∃ y, List.find f l = Some y.
Proof.
  intros Hin%list_elem_of_In Hx.
  destruct (List.find f l) eqn:Hfind; [by eexists|].
  eapply List.find_none in Hfind; [|done]. congruence.
Qed.

End TextFacts.

Module SwitchFacts.
Import Managers TextFacts.

Local Open Scope string_scope.

Lemma line_in_output (output line : string) :
  line ∈ PyStr.split_on PyStr.newline output -> str_contains line output = true.
Proof.
  intros [(a & b & ->) _]%split_by_piece. apply contains_app. by exists a, b.
Qed.

Lemma token_in_line (line part : string) :
  part ∈ PyStr.split_ws line ->
  str_contains part line = true ∧ no_space part = true.
Proof.
  intros [[(a & b & ->) Hall]%split_by_piece _]%split_ws_elem.
  split; [|done]. apply contains_app. by exists a, b.
Qed.

(** X16. The token [_extract_mac_from_arp] returns has seventeen
    characters, a colon among them and no white space, and stands on a
    line of the output that contains the address searched for; it returns
    nothing only when no line containing the address has such a token, in
    particular when the address does not occur in the output. *)
Theorem extract_mac_from_arp_result (arp_output target_ip : string) :
  match _extract_mac_from_arp arp_output target_ip with
  | Some part =>
      String.length part = 17 ∧ str_contains ":" part = true ∧
      no_space part = true ∧
      ∃ line, line ∈ PyStr.split_on PyStr.newline arp_output ∧
              str_contains target_ip line = true ∧ part ∈ PyStr.split_ws line
  | None =>
      ∀ line part, line ∈ PyStr.split_on PyStr.newline arp_output ->
                   str_contains target_ip line = true ->
                   part ∈ PyStr.split_ws line -> mac_like part = false
  end ∧
  (str_contains target_ip arp_output = false ->
   _extract_mac_from_arp arp_output target_ip = None).
Proof.
  assert (∀ part, _extract_mac_from_arp arp_output target_ip = Some part ->
            mac_like part = true ∧
            ∃ line, line ∈ PyStr.split_on PyStr.newline arp_output ∧
                    str_contains target_ip line = true ∧ part ∈ PyStr.split_ws line)
    as Hsome.
  { intros part (line & Hline & Hf)%first_result_Some.
    destruct (str_contains target_ip line) eqn:Hip; [|done].
    apply List.find_some in Hf as [Hin%list_elem_of_In Hmac]. eauto. }
  split.
  - destruct (_extract_mac_from_arp arp_output target_ip) as [part|] eqn:Hres.
    + destruct (Hsome part eq_refl) as [Hmac (line & Hline & Hip & Hpart)].
      apply andb_true_iff in Hmac as [Hcolon Hlen%Nat.eqb_eq].
      split; [done|]. split; [done|].
      split; [by apply (token_in_line line)|eauto].
    + intros line part Hline Hip Hpart.
      destruct (mac_like part) eqn:Hmac; [|done].
      destruct (find_found mac_like _ part Hpart Hmac) as [y Hy].
      destruct (first_result_found
                  (λ line, if str_contains target_ip line
                           then List.find mac_like (PyStr.split_ws line) else None)
                  _ line y Hline) as [y' Hy'].
      { by rewrite Hip. }
      change (_extract_mac_from_arp arp_output target_ip = Some y') in Hy'.
      congruence.
  - intros Hnot.
    destruct (_extract_mac_from_arp arp_output target_ip) as [part|] eqn:Hres; [|done].
    destruct (Hsome part eq_refl) as [_ (line & Hline & Hip & _)].
    rewrite (contains_trans target_ip line arp_output Hip (line_in_output _ _ Hline))
      in Hnot. done.
Qed.

(** X17. The search is by containment: when the search for an address
    finds a token, so does the search for any text that address
    contains, for instance for the address without its last digit. *)
Theorem extract_mac_matches_longer_addresses (arp_output ip ip' part : string) :
  str_contains ip ip' = true ->
  _extract_mac_from_arp arp_output ip' = Some part ->
  ∃ part', _extract_mac_from_arp arp_output ip = Some part'.
Proof.
  intros Hsub (line & Hline & Hf)%first_result_Some.
  destruct (str_contains ip' line) eqn:Hip'; [|done].
  eapply (first_result_found _ _ line part Hline).
  by rewrite (contains_trans ip ip' line Hsub Hip').
Qed.

Lemma extract_mac_matches_longer_addresses_witness :
  str_contains "10.0.0.1" "10.0.0.10" = true ∧
  _extract_mac_from_arp sample_arp "10.0.0.10" = Some "aa:bb:cc:dd:ee:01" ∧
  ∃ part', _extract_mac_from_arp sample_arp "10.0.0.1" = Some part'.
Proof.
  split; [reflexivity|]. split; [reflexivity|].
  exact (extract_mac_matches_longer_addresses sample_arp "10.0.0.1" "10.0.0.10"
           "aa:bb:cc:dd:ee:01" eq_refl eq_refl).
Defined.

(** In the sample table the search for 10.0.0.1 returns the hardware
    address of 10.0.0.10, which stands on an earlier line. *)
Example extract_mac_of_another_host :
  _extract_mac_from_arp sample_arp "10.0.0.1" = Some "aa:bb:cc:dd:ee:01".
Proof. reflexivity. Qed.

Lemma port_marker_plain (m : string) :
  In m port_markers ->
  PyStr.all_chars (λ c, negb (Ascii.eqb PyStr.newline c)) m = true ∧
  no_space m = true ∧ PyStr.nonempty m = true.
Proof. intros [<-|[<-|[<-|[]]]]; by vm_compute. Qed.

Lemma contains_nonempty (m piece : string) :
  PyStr.nonempty m = true -> str_contains m piece = true -> PyStr.nonempty piece = true.
Proof. destruct m; [done|]. by destruct piece. Qed.

(** X18. [_extract_port_from_cam] returns nothing exactly when none of
    the markers Gi, Fa and Eth occurs in the output; what it returns is a
    token of the output, free of white space, that contains a marker. *)
Theorem extract_port_from_cam_result (cam_output : string) :
  match _extract_port_from_cam cam_output with
  | Some port =>
      has_port_marker cam_output = true ∧ has_port_marker port = true ∧
      no_space port = true ∧ PyStr.nonempty port = true ∧
      str_contains port cam_output = true
  | None => has_port_marker cam_output = false
  end.
Proof.
  destruct (_extract_port_from_cam cam_output) as [port|] eqn:Hres.
  - apply first_result_Some in Hres as (line & Hline & Hf).
    destruct (has_port_marker line) eqn:Hmark; [|done].
    apply List.find_some in Hf as [Hin%list_elem_of_In Hport].
    pose proof (token_in_line line port Hin) as [Hsub Hns].
    pose proof (contains_trans _ _ _ Hsub (line_in_output _ _ Hline)) as Hout.
    apply split_ws_elem in Hin as [_ Hne].
    split_and!; try done.
    unfold has_port_marker in *. apply existsb_exists in Hport as (m & Hm & Hmp).
    apply existsb_exists. exists m. split; [done|]. by eapply contains_trans.
  - destruct (has_port_marker cam_output) eqn:Hmark; [|done]. exfalso.
    unfold has_port_marker in Hmark. apply existsb_exists in Hmark as (m & Hm & Hout).
    destruct (port_marker_plain m Hm) as (Hnl & Hns & Hne).
    destruct (split_by_contains _ m cam_output Hnl Hout) as (line & Hline & Hml).
    destruct (split_by_contains _ m line Hns Hml) as (piece & Hpiece & Hmp).
    assert (piece ∈ PyStr.split_ws line) as Htok.
    { apply split_ws_elem. split; [done|]. by eapply contains_nonempty. }
    assert (has_port_marker piece = true) as Hpm.
    { apply existsb_exists. by exists m. }
    assert (has_port_marker line = true) as Hlm.
    { apply existsb_exists. by exists m. }
    destruct (find_found has_port_marker _ piece Htok Hpm) as [y Hy].
    destruct (first_result_found
                (λ line, if has_port_marker line
                         then List.find has_port_marker (PyStr.split_ws line) else None)
                _ line y Hline) as [y' Hy'].
    { by rewrite Hlm. }
    change (_extract_port_from_cam cam_output = Some y') in Hy'. congruence.
Qed.

End SwitchFacts.

Module ManagerFacts.
Import ResponseSystem Managers.

#[local] Arguments String.append !_ _ / : simpl nomatch.

Section World.

Context {World : Type}.
Variable execute_command :
  NetworkDevice -> string -> string -> string -> World -> option string * World.
Variable isolate_endpoint : val -> World -> bool * World.
Variable clock : World -> datetime * World.
Variable strftime : string -> datetime -> string.
Variable str : val -> string.

(** The functions of the managers at these parameters. *)
Abbreviation block_loop := (Managers.block_loop World execute_command str).
Abbreviation block_ip_address := (Managers.block_ip_address World execute_command str).
Abbreviation isolate_on_device := (Managers.isolate_on_device World execute_command).
Abbreviation isolate_port_by_ip := (Managers.isolate_port_by_ip World execute_command).
Abbreviation _execute_response_step :=
  (Managers._execute_response_step World execute_command isolate_endpoint clock
     strftime str).


Lemma block_loop_count devices ip n w :
  block_loop devices ip n w
  = (n + fst (block_loop devices ip 0 w), snd (block_loop devices ip 0 w)).
Proof.
  revert n w. induction devices as [|device devices IH]; intros n w; simpl.
  - f_equal. lia.
  - destruct (block_on_device World execute_command str device ip w) as [ok w'].
    rewrite (IH (if ok then S n else n)), (IH (if ok then 1 else 0)). simpl.
    f_equal. destruct ok; lia.
Qed.

Lemma block_loop_app devices1 devices2 ip n w :
  block_loop (devices1 ++ devices2) ip n w
  = block_loop devices2 ip (fst (block_loop devices1 ip n w))
      (snd (block_loop devices1 ip n w)).
Proof.
  revert n w. induction devices1 as [|device devices1 IH]; intros n w; simpl; [done|].
  destruct (block_on_device World execute_command str device ip w) as [ok w'].
  apply IH.
Qed.

(** X19. [block_ip_address] tries every firewall in turn, whatever
    happened on the earlier ones: on a list of devices it does what it
    does on the first part and then on the rest, and answers True when
    one of the two does.  The rule name makes no difference. *)
Theorem block_ip_address_app (devices1 devices2 : list NetworkDevice)
    (ip_address rule_name rule_name1 rule_name2 : val) (w : World) :
  block_ip_address (devices1 ++ devices2) ip_address rule_name w
  = let '(ok1, w1) := block_ip_address devices1 ip_address rule_name1 w in
    let '(ok2, w2) := block_ip_address devices2 ip_address rule_name2 w1 in
    (ok1 || ok2, w2).
Proof.
  unfold Managers.block_ip_address. rewrite block_loop_app.
  destruct (block_loop devices1 ip_address 0 w) as [n1 w1]. simpl.
  rewrite (block_loop_count devices2 ip_address n1 w1).
  destruct (block_loop devices2 ip_address 0 w1) as [n2 w2]. simpl.
  f_equal. destruct n1, n2; simpl; try done.
  all: rewrite ?orb_true_r; apply Nat.ltb_lt; lia.
Qed.

(** X20. On devices none of which is a Palo Alto or Cisco firewall, an
    empty list included, [block_ip_address] answers False and runs no
    command. *)
Theorem block_ip_address_unknown_devices (devices : list NetworkDevice)
    (ip_address rule_name : val) (w : World) :
  forallb (λ device, negb (known_firewall device)) devices = true ->
  block_ip_address devices ip_address rule_name w = (false, w).
Proof.
  intros Hall. unfold Managers.block_ip_address.
  assert (block_loop devices ip_address 0 w = (0, w)) as ->; [|done].
  induction devices as [|device devices IH]; simpl in *; [done|].
  apply andb_true_iff in Hall as [Hdev%negb_true_iff Hall].
  apply orb_false_iff in Hdev as [Hp Hc].
  unfold block_on_device. rewrite Hp, Hc. by apply IH.
Qed.

(** X21. [isolate_port_by_ip] stops at the first switch on which the
    port is shut down: on a list of devices it does what it does on the
    first part, and goes on to the rest only when that failed. *)
Theorem isolate_port_by_ip_app (devices1 devices2 : list NetworkDevice)
    (target_ip : val) (w : World) :
  isolate_port_by_ip (devices1 ++ devices2) target_ip w
  = let '(ok1, w1) := isolate_port_by_ip devices1 target_ip w in
    if ok1 then (true, w1) else isolate_port_by_ip devices2 target_ip w1.
Proof.
  revert w. induction devices1 as [|device devices1 IH]; intros w; simpl; [done|].
  destruct (isolate_on_device device target_ip w) as [[] w']; [done|]. apply IH.
Qed.

(** X22. With a target that is not a string [isolate_port_by_ip]
    isolates nothing: it answers False, after asking every switch for its
    ARP table. *)
Theorem isolate_port_by_ip_needs_string (devices : list NetworkDevice)
    (target_ip : val) (w : World) :
  is_str target_ip = false ->
  fst (isolate_port_by_ip devices target_ip w) = false.
Proof.
  intros Hstr. revert w. induction devices as [|device devices IH]; intros w; simpl;
    [done|].
  unfold Managers.isolate_on_device.
  destruct (execute_command device "show ip arp" "admin" "password" w) as [arp w1].
  destruct arp, target_ip; try done; apply IH.
Qed.

Lemma executable_runs (m : managers) (incident_id : string) (step : ResponseStep)
    (w : World) :
  if executable step
  then ∃ out, fst (_execute_response_step m incident_id step w) = Ok out
  else ∃ e, _execute_response_step m incident_id step w = (Raise e, w).
Proof.
  unfold executable, Managers._execute_response_step.
  destruct (action step).
  - destruct (is_string _ "edr_isolation"); simpl.
    { destruct (isolate_endpoint (target step) w). by eexists. }
    destruct (is_string _ "network_isolation"); simpl; [|by eexists].
    destruct (isolate_port_by_ip (switches m) (target step) w). by eexists.
  - destruct (Managers.block_ip_address _ _ _ _ _ _ _). by eexists.
  - destruct (iter _); [|by eexists].
    destruct (collect_loop _ _ _ _ _ _ _ _ _ _). by eexists.
  - by eexists.
  - by eexists.
  - by eexists.
Qed.

(** X23. [_execute_response_step] raises exactly on the steps it has no
    branch for (the quarantine of a file, an isolation by a method other
    than the two it knows, a collection whose evidence types cannot be
    iterated over) and then leaves the world untouched; on every other
    step it returns a result. *)
Theorem execute_response_step_raises (m : managers) (incident_id : string)
    (step : ResponseStep) (w : World) :
  if executable step
  then ∃ out, fst (_execute_response_step m incident_id step w) = Ok out
  else ∃ e, _execute_response_step m incident_id step w = (Raise e, w).
Proof. apply executable_runs. Qed.

Lemma plan_step_executable incident steps step :
  _generate_response_plan incident = Ok steps -> step ∈ steps ->
  executable step = true.
Proof.
  unfold _generate_response_plan.
  destruct (type_specific_steps incident) as [before|] eqn:Hbranch; simpl; [|done].
  intros [= <-] Hin. apply elem_of_app in Hin as [Hin|Hin].
  2: { apply list_elem_of_singleton in Hin as ->. done. }
  assert (Forall (λ s, executable s = true) before) as Hall;
    [|by eapply Forall_forall in Hall].
  clear Hin. unfold type_specific_steps in Hbranch.
  assert (∀ (prefix : string) (post : string -> string) xs ys,
            mapM (λ ip, r ← replace ip dot underscore;
                        Ok (new_response_step BLOCK_IP ip
                              [("rule_name", Str (prefix ++ post r)%string)])) xs = Ok ys ->
            Forall (λ s, executable s = true) ys) as Hblock.
  { intros prefix post xs ys. apply PlanFacts.mapM_Forall. intros x y Hy.
    destruct (replace x dot underscore); simpl in Hy; [|done]. by injection Hy as <-. }
  destruct (incident_type incident).
  - run_binds Hbranch. injection Hbranch as <-.
    rewrite !Forall_app. split_and!.
    + apply Forall_fmap, Forall_forall. done.
    + by eapply (Hblock "BLOCK_C2_" (λ r, r)).
    + apply Forall_fmap, Forall_forall. done.
  - run_binds Hbranch. injection Hbranch as <-.
    rewrite !Forall_app. split_and!.
    + by eapply (Hblock "BLOCK_EXFIL_" (λ r, r)).
    + apply Forall_fmap, Forall_forall. done.
    + destruct (truthy _); repeat constructor.
  - run_binds Hbranch; destruct (truthy _); simpl in Hbranch; try discriminate Hbranch;
      injection Hbranch as <-;
      rewrite Forall_app; (split; [apply Forall_fmap, Forall_forall; done|]);
      repeat constructor.
  - injection Hbranch as <-. constructor.
  - run_binds Hbranch. injection Hbranch as <-.
    by eapply (Hblock "BLOCK_DDOS_" (replace_char slash underscore)).
  - injection Hbranch as <-. constructor.
Qed.

(** X24. Every step of a plan that [_generate_response_plan] produces is
    one that [_execute_response_step] executes without raising, whatever
    the devices answer. *)
Theorem generated_plan_steps_execute (incident : IncidentData)
    (steps : list ResponseStep) (step : ResponseStep)
    (m : managers) (incident_id : string) (w : World) :
  _generate_response_plan incident = Ok steps ->
  step ∈ steps ->
  ∃ out, fst (_execute_response_step m incident_id step w) = Ok out.
Proof.
  intros Hplan Hin.
  pose proof (executable_runs m incident_id step w) as Hrun.
  by rewrite (plan_step_executable incident steps step Hplan Hin) in Hrun.
Qed.

Lemma nonempty_app_r (a b : string) :
  PyStr.nonempty b = true -> PyStr.nonempty (a ++ b)%string = true.
Proof. by destruct a. Qed.

Lemma path_join_nonempty (a p : string) :
  PyStr.nonempty p = true -> PyStr.nonempty (PyStr.path_join a p) = true.
Proof.
  intros Hp. unfold PyStr.path_join.
  destruct (PyStr.starts_with _ p); [done|].
  destruct (_ || _); by apply nonempty_app_r.
Qed.

Lemma collect_loop_length (m : managers) (incident_id : string) (target : val)
    (types : list val) (results : list string) (w : World) :
  length (fst (collect_loop World clock strftime str m incident_id target types
                 results w))
  = length results + length (List.filter known_evidence types).
Proof.
  revert results w. induction types as [|ty types IH]; intros results w; simpl; [lia|].
  unfold known_evidence, collect_memory_dump, collect_disk_image, collect_network_logs.
  destruct (is_string ty "memory_dump"); simpl.
  { destruct (clock w) as [now w']. rewrite path_join_nonempty, IH.
    - rewrite length_app. unfold known_evidence. simpl. lia.
    - by apply nonempty_app_r. }
  destruct (is_string ty "disk_image"); simpl.
  { destruct (clock w) as [now w']. rewrite path_join_nonempty, IH.
    - rewrite length_app. unfold known_evidence. simpl. lia.
    - by apply nonempty_app_r. }
  destruct (is_string ty "network_logs"); simpl.
  { destruct (clock w) as [now w']. rewrite path_join_nonempty, IH.
    - rewrite length_app. unfold known_evidence. simpl. lia.
    - by apply nonempty_app_r. }
  rewrite IH. by unfold known_evidence.
Qed.

(** X25. The collection branch of [_execute_response_step] collects one
    result for each listed evidence type that is memory_dump, disk_image
    or network_logs and passes over the others in silence; when none of
    the listed types is one of the three it answers that no evidence was
    collected. *)
Theorem collect_evidence_skips_unknown_types (m : managers) (incident_id : string)
    (step : ResponseStep) (types : list val) (w : World) :
  action step = COLLECT_EVIDENCE ->
  iter (get (parameters step) "evidence_types" (List [Str "memory_dump"])) = Ok types ->
  length (fst (collect_loop World clock strftime str m incident_id (target step)
                 types [] w))
  = length (List.filter known_evidence types) ∧
  (List.filter known_evidence types = [] ->
   fst (_execute_response_step m incident_id step w) = Ok "No evidence collected").
Proof.
  intros Haction Htypes. split; [by rewrite collect_loop_length|].
  intros Hnone. unfold Managers._execute_response_step. rewrite Haction, Htypes.
  pose proof (collect_loop_length m incident_id (target step) types [] w) as Hlen.
  rewrite Hnone in Hlen.
  destruct (collect_loop _ _ _ _ _ _ _ _ _ _) as [[|r rs] w']; [done|].
  simpl in Hlen. lia.
Qed.

End World.

Lemma collect_evidence_skips_unknown_types_witness :
  action (new_response_step COLLECT_EVIDENCE (Str "10.0.1.150")
            [("evidence_types", strs ["registry_hives"; "browser_history"])])
  = COLLECT_EVIDENCE ∧
  fst (_execute_response_step log log_command log_isolate log_clock seconds_stamp
         Py.str sample_managers "INC-20240101000000"
         (new_response_step COLLECT_EVIDENCE (Str "10.0.1.150")
            [("evidence_types", strs ["registry_hives"; "browser_history"])]) [])
  = Ok "No evidence collected".
Proof.
  split; [reflexivity|].
  exact (proj2 (collect_evidence_skips_unknown_types log_command log_isolate log_clock
                  seconds_stamp Py.str sample_managers "INC-20240101000000"
                  (new_response_step COLLECT_EVIDENCE (Str "10.0.1.150")
                     [("evidence_types", strs ["registry_hives"; "browser_history"])])
                  [Str "registry_hives"; Str "browser_history"] []
                  eq_refl eq_refl) eq_refl).
Defined.

(** A memory dump and a disk image of one host: two results, each the
    type and the path under the evidence directory. *)
Example collect_two_kinds :
  fst (_execute_response_step log log_command log_isolate log_clock seconds_stamp
         Py.str sample_managers "INC-1"
         (new_response_step COLLECT_EVIDENCE (Str "10.0.1.150")
            [("evidence_types", strs ["memory_dump"; "pagefile"; "disk_image"])]) [])
  = Ok ("memory_dump: ./evidence/INC-1_10.0.1.150_0_memory.dump; "
        ++ "disk_image: ./evidence/INC-1_10.0.1.150_0_disk.img")%string.
Proof. vm_compute. reflexivity. Qed.

Lemma block_ip_address_unknown_devices_witness :
  block_ip_address log log_command Py.str
    [mkNetworkDevice "lb-1" "10.0.0.3" "f5_bigip" "ssh"] (Str "198.51.100.25")
    (Str "BLOCK_C2_198_51_100_25") [] = (false, []).
Proof.
  exact (block_ip_address_unknown_devices log_command Py.str
           [mkNetworkDevice "lb-1" "10.0.0.3" "f5_bigip" "ssh"] (Str "198.51.100.25")
           (Str "BLOCK_C2_198_51_100_25") [] eq_refl).
Defined.

Lemma isolate_port_by_ip_needs_string_witness :
  is_str (Int 7) = false ∧
  fst (isolate_port_by_ip log log_command sample_firewalls (Int 7) []) = false.
Proof.
  split; [reflexivity|].
  exact (isolate_port_by_ip_needs_string log_command sample_firewalls (Int 7) []
           eq_refl).
Defined.

Lemma generated_plan_steps_execute_witness :
  ∃ steps,
    _generate_response_plan sample_incident = Ok steps ∧
    notification_step sample_incident ∈ steps ∧
    ∃ out, fst (_execute_response_step log log_command log_isolate log_clock
                  seconds_stamp Py.str sample_managers "INC-20240101000000"
                  (notification_step sample_incident) []) = Ok out.
Proof.
  eexists. split; [reflexivity|].
  assert (notification_step sample_incident
          ∈ [new_response_step ISOLATE_SYSTEM (Str "10.0.1.150")
               [("method", Str "edr_isolation")];
             new_response_step ISOLATE_SYSTEM (Str "10.0.1.175")
               [("method", Str "edr_isolation")];
             new_response_step BLOCK_IP (Str "198.51.100.25")
               [("rule_name", Str "BLOCK_C2_198_51_100_25")];
             new_response_step BLOCK_IP (Str "203.0.113.50")
               [("rule_name", Str "BLOCK_C2_203_0_113_50")];
             new_response_step COLLECT_EVIDENCE (Str "10.0.1.150")
               [("evidence_types", strs ["memory_dump"; "disk_image"])];
             new_response_step COLLECT_EVIDENCE (Str "10.0.1.175")
               [("evidence_types", strs ["memory_dump"; "disk_image"])];
             notification_step sample_incident]) as Hin.
  { do 6 right. by left. }
  split; [exact Hin|].
  exact (generated_plan_steps_execute log_command log_isolate log_clock seconds_stamp
           Py.str sample_incident _ (notification_step sample_incident)
           sample_managers "INC-20240101000000" [] eq_refl Hin).
Defined.

(** The sample plan run on the logging world: both firewalls of a known
    type get their command, the load balancer none. *)
Example block_on_sample_firewalls :
  block_ip_address log log_command Py.str sample_firewalls (Str "198.51.100.25")
    (Str "BLOCK_C2_198_51_100_25") []
  = (true,
     [ ("fw-edge",
        "configure" ++ nl ++ "set rulebase security rules BLOCK_198_51_100_25"
        ++ " from any to any source 198.51.100.25 action deny" ++ nl ++ "commit");
       ("fw-core",
        "configure terminal" ++ nl ++ "access-list 100 deny ip host 198.51.100.25 any"
        ++ nl ++ "exit" ++ nl ++ "write memory") ]%string).
Proof. vm_compute. reflexivity. Qed.

End ManagerFacts.
